(** * feedback-widget-native: offline queue, sync engine and widget facade

    A shallow embedding of [src/core/offline-queue.ts] (class [OfflineQueue])
    and of the routing logic of the [FeedbackWidget] facade, followed by the
    properties of the offline durability subsystem.

    Conventions of the embedding.
    - JavaScript numbers that the code only counts with ([retryCount],
      [maxRetries], [createdAt]) are integers ([Z]); the two counters of a
      drain pass are [nat].
    - An [async] method is a function from the world before the call to its
      outcome (returned value, or thrown value) and the world after it.  The
      cooperative scheduler is not modelled: a method body runs from its first
      to its last [await] without another task in between, except where a
      statement quantifies over the intermediate worlds explicitly.
    - [AsyncStorage] is one cell holding the text stored under the queue's
      key.  Rejections of [getItem] and [setItem] are scripted by two lists
      of booleans consumed one per call ([true]: this call rejects); an empty
      script means that every further call succeeds.
    - The optional observer callbacks of [OfflineQueueConfig] and of
      [WidgetConfig] append an event to the log of the world, and so do the
      invocation of the delivery function and the pause between records.
      In the first part every callback returns; module [Observed] holds the
      same code with callbacks that may throw.
    - A text is the sequence of its bytes, in UTF-8 outside ASCII. *)

From Stdlib Require Import String Ascii List ZArith Bool Arith Lia DecimalString.
From Stdlib Require DecimalPos DecimalZ.
Import ListNotations.

Local Open Scope string_scope.
Local Open Scope list_scope.

(* ===================================================================== *)
(** * Data model ([src/types/index.ts]) *)
(* ===================================================================== *)

Inductive FeedbackType := bug | feature | design.

Inductive FeedbackPriority := low | medium | high | critical.

(** The context snapshot is an opaque attachment for the core: a bag of
    attributes. *)
Definition FeedbackContext := list (string * string).

Record FeedbackSubmission := mkSubmission {
  fb_type : FeedbackType;
  priority : FeedbackPriority;
  title : string;
  description : string;
  submitter_name : option string;
  submitter_email : option string;
  widget_version : option string;
  context : option FeedbackContext
}.

Record SubmissionResponse := mkResponse {
  success : bool;
  feedback_id : option string;
  error : option string
}.

Record QueuedSubmission := mkQueued {
  id : string;
  submission : FeedbackSubmission;
  screenshotUri : option string;
  createdAt : Z;
  retryCount : Z
}.

(** A value thrown by JavaScript code: an [Error] object with its message,
    or any other value, kept as the text [String(value)]. *)
Inductive JsThrown :=
| ErrorObj (message : string)
| NonError (text : string).

(** What awaiting the delivery function on a record yields. *)
Inductive Delivery :=
| Resolved (ok : bool)
| Rejected (e : JsThrown).

Definition SyncCallback := QueuedSubmission -> Delivery.

(** The result of [sync()]: [{ succeeded, failed }]. *)
Record Counts := mkCounts { succeeded : nat; failed : nat }.

Inductive AppStateStatus := active | background | inactive.

(** Observable events, in the order they happen. *)
Inductive Event :=
| SyncStart
| SyncComplete (s f : nat)
| SubmissionSynced (i : string)
| SubmissionFailed (i : string) (detail : string)
| DeliveryCalled (item : QueuedSubmission)
| Pause (ms : nat)
| SubmitStart
| SubmitSuccess (i : option string)
| SubmitError (e : JsThrown)
| TransportCalled (s : FeedbackSubmission)
| ScreenshotUploaded (i uri : string)
| Warned (text : string).

(* ===================================================================== *)
(** * The world: the queue object and its environment *)
(* ===================================================================== *)

(** The text held by [AsyncStorage] under [STORAGE_KEY]: nothing, text
    that is not JSON, or the array of records that [saveQueue], the only
    writer of the key, stores.  Text that parses to another value (such as
    [null]) is outside this type. *)
Inductive Stored :=
| NoItem                                   (* getItem resolves to null *)
| Unparseable                              (* JSON.parse throws on it  *)
| Json (queue : list QueuedSubmission).    (* JSON.stringify(queue)    *)

(** The fields of an [OfflineQueue] object.  The two subscription fields
    say whether the object holds the handle returned by the respective
    [addEventListener]. *)
Record OfflineQueue := mkOfflineQueue {
  maxRetries : option Z;
  syncCallback : option SyncCallback;
  syncInProgress : bool;
  isConnected : bool;
  unsubscribeNetInfo : bool;
  appStateSubscription : bool
}.

(** The environment: storage with its scripted rejections, the listeners
    registered with [NetInfo] and [AppState], the number of pending
    [setTimeout(() => this.sync(), 2000)] tasks, and the event log. *)
Record Env := mkEnv {
  storage : Stored;
  getFaults : list bool;
  setFaults : list bool;
  netListener : bool;
  appListener : bool;
  timers : nat;
  log : list Event
}.

Record World := mkWorld { oq : OfflineQueue; env : Env }.

Definition set_storage (s : Stored) (e : Env) : Env :=
  mkEnv s (getFaults e) (setFaults e) (netListener e) (appListener e)
        (timers e) (log e).

Definition set_getFaults (f : list bool) (e : Env) : Env :=
  mkEnv (storage e) f (setFaults e) (netListener e) (appListener e)
        (timers e) (log e).

Definition set_setFaults (f : list bool) (e : Env) : Env :=
  mkEnv (storage e) (getFaults e) f (netListener e) (appListener e)
        (timers e) (log e).

Definition set_listeners (n a : bool) (e : Env) : Env :=
  mkEnv (storage e) (getFaults e) (setFaults e) n a (timers e) (log e).

Definition set_timers (t : nat) (e : Env) : Env :=
  mkEnv (storage e) (getFaults e) (setFaults e) (netListener e)
        (appListener e) t (log e).

Definition add_event (ev : Event) (e : Env) : Env :=
  mkEnv (storage e) (getFaults e) (setFaults e) (netListener e)
        (appListener e) (timers e) (log e ++ [ev]).

Definition set_syncInProgress (b : bool) (q : OfflineQueue) : OfflineQueue :=
  mkOfflineQueue (maxRetries q) (syncCallback q) b (isConnected q)
                 (unsubscribeNetInfo q) (appStateSubscription q).

Definition set_isConnected (b : bool) (q : OfflineQueue) : OfflineQueue :=
  mkOfflineQueue (maxRetries q) (syncCallback q) (syncInProgress q) b
                 (unsubscribeNetInfo q) (appStateSubscription q).

Definition set_subscriptions (n a : bool) (q : OfflineQueue) : OfflineQueue :=
  mkOfflineQueue (maxRetries q) (syncCallback q) (syncInProgress q)
                 (isConnected q) n a.

Definition set_syncCallback (cb : SyncCallback) (q : OfflineQueue)
  : OfflineQueue :=
  mkOfflineQueue (maxRetries q) (Some cb) (syncInProgress q) (isConnected q)
                 (unsubscribeNetInfo q) (appStateSubscription q).

Definition on_env (f : Env -> Env) (w : World) : World :=
  mkWorld (oq w) (f (env w)).

Definition on_oq (f : OfflineQueue -> OfflineQueue) (w : World) : World :=
  mkWorld (f (oq w)) (env w).

(* ===================================================================== *)
(** * Asynchronous computations: state and exceptions *)
(* ===================================================================== *)

Inductive Outcome (A : Type) :=
| Returned (a : A)
| Threw (e : JsThrown).

Arguments Returned {A} a.
Arguments Threw {A} e.

(** A computation over a state [S]; the state reached when a value is
    thrown is kept, as mutations made before a JavaScript [throw] are. *)
Definition M (S A : Type) := S -> Outcome A * S.

Definition ret {S A} (a : A) : M S A := fun s => (Returned a, s).

Definition throw {S A} (e : JsThrown) : M S A := fun s => (Threw e, s).

Definition bind {S A B} (m : M S A) (k : A -> M S B) : M S B :=
  fun s => match m s with
           | (Returned a, s') => k a s'
           | (Threw e, s') => (Threw e, s')
           end.

(** [try { m } catch (e) { h e }] *)
Definition try_catch {S A} (m : M S A) (h : JsThrown -> M S A) : M S A :=
  fun s => match m s with
           | (Returned a, s') => (Returned a, s')
           | (Threw e, s') => h e s'
           end.

(** [try { m } finally { f }], for a [finally] block that cannot throw. *)
Definition try_finally {S A} (m : M S A) (f : S -> S) : M S A :=
  fun s => let (r, s') := m s in (r, f s').

Definition modify {S} (f : S -> S) : M S unit := fun s => (Returned tt, f s).

Definition gets {S A} (f : S -> A) : M S A := fun s => (Returned (f s), s).

Declare Scope async_scope.
Delimit Scope async_scope with async.
Notation "x <- m ;; k" := (bind m (fun x => k))
  (at level 61, m at next level, right associativity) : async_scope.
Notation "m ;;; k" := (bind m (fun _ => k))
  (at level 61, right associativity) : async_scope.
Local Open Scope async_scope.

Definition Async (A : Type) := M World A.

Definition emit (ev : Event) : Async unit := modify (on_env (add_event ev)).

(* ===================================================================== *)
(** * Persistent queue store *)
(* ===================================================================== *)

Definition storage_error : JsThrown := ErrorObj "AsyncStorage failure".

Definition next_fault (script : list bool) : bool * list bool :=
  match script with
  | [] => (false, [])
  | b :: rest => (b, rest)
  end.

(** [AsyncStorage.getItem(STORAGE_KEY)] *)
Definition getItem : Async Stored := fun w =>
  let (fails, rest) := next_fault (getFaults (env w)) in
  let w' := on_env (set_getFaults rest) w in
  if fails then (Threw storage_error, w')
  else (Returned (storage (env w)), w').

(** [AsyncStorage.setItem(STORAGE_KEY, JSON.stringify(queue))] *)
Definition setItem (queue : list QueuedSubmission) : Async unit := fun w =>
  let (fails, rest) := next_fault (setFaults (env w)) in
  let w' := on_env (set_setFaults rest) w in
  if fails then (Threw storage_error, w')
  else (Returned tt, on_env (set_storage (Json queue)) w').

(** [data ? JSON.parse(data) : []]; the parse of unparseable text throws. *)
Definition parse (data : Stored) : Async (list QueuedSubmission) :=
  match data with
  | NoItem => ret []
  | Unparseable => throw (ErrorObj "Unexpected token")
  | Json queue => ret queue
  end.

Definition getQueue : Async (list QueuedSubmission) :=
  try_catch (data <- getItem ;; parse data) (fun _ => ret []).

Definition saveQueue (queue : list QueuedSubmission) : Async unit :=
  setItem queue.

(** The values [enqueue] draws from the environment: the two readings of
    [Date.now()] and [Math.random().toString(36).substring(2, 9)]. *)
Record Entropy := mkEntropy {
  now_for_id : Z;
  random_suffix : string;
  now_for_createdAt : Z
}.

Definition string_of_Z (z : Z) : string :=
  NilZero.string_of_int (Z.to_int z).

Definition fresh_id (en : Entropy) : string :=
  (string_of_Z (now_for_id en) ++ "-" ++ random_suffix en)%string.

(** The argument of [enqueue]: a queued submission without [id],
    [createdAt] and [retryCount]. *)
Record QueueItem := mkItem {
  item_submission : FeedbackSubmission;
  item_screenshotUri : option string
}.

Definition queuedItem (en : Entropy) (item : QueueItem) : QueuedSubmission :=
  mkQueued (fresh_id en) (item_submission item) (item_screenshotUri item)
           (now_for_createdAt en) 0.

Definition enqueue (en : Entropy) (item : QueueItem) : Async string :=
  queue <- getQueue ;;
  saveQueue (queue ++ [queuedItem en item]) ;;;
  ret (fresh_id en).

Definition getPending : Async (list QueuedSubmission) := getQueue.

Definition getPendingCount : Async nat :=
  queue <- getQueue ;; ret (List.length queue).

Definition remove (i : string) : Async unit :=
  queue <- getQueue ;;
  saveQueue (filter (fun item => negb (String.eqb (id item) i)) queue).

(** [queue.findIndex(p)], [None] for -1. *)
Fixpoint findIndex {A} (p : A -> bool) (l : list A) : option nat :=
  match l with
  | [] => None
  | x :: rest => if p x then Some 0%nat
                 else option_map S (findIndex p rest)
  end.

(** [queue[index] = item] for an index inside the array. *)
Fixpoint assign {A} (index : nat) (x : A) (l : list A) : list A :=
  match l, index with
  | [], _ => []
  | _ :: rest, O => x :: rest
  | y :: rest, S n => y :: assign n x rest
  end.

Definition update (item : QueuedSubmission) : Async unit :=
  queue <- getQueue ;;
  match findIndex (fun q => String.eqb (id q) (id item)) queue with
  | Some index => saveQueue (assign index item queue)
  | None => ret tt
  end.

(** [AsyncStorage.removeItem(STORAGE_KEY)], taken to succeed. *)
Definition clear : Async unit := modify (on_env (set_storage NoItem)).

(* ===================================================================== *)
(** * Sync engine *)
(* ===================================================================== *)

(** [new OfflineQueue(config)]: [{ maxRetries: config.maxRetries ?? 3,
    ...config }].  Connected until told otherwise, no delivery function, no
    subscription. *)
Definition new_OfflineQueue (configured : option Z) : OfflineQueue :=
  mkOfflineQueue
    (match configured with None => Some 3%Z | Some n => Some n end)
    None false true false false.

(** [this.config.maxRetries || 3]: a missing or zero value reads as 3. *)
Definition effectiveMaxRetries (q : OfflineQueue) : Z :=
  match maxRetries q with
  | None => 3
  | Some 0%Z => 3
  | Some n => n
  end.

Definition setSyncCallback (cb : SyncCallback) : Async unit :=
  modify (on_oq (set_syncCallback cb)).

Definition getOnlineStatus : Async bool := gets (fun w => isConnected (oq w)).

(** The variables of the [for] loop of [sync]: the record being processed,
    which the loop body mutates, and the two counters. *)
Record Locals := mkLocals { item : QueuedSubmission; tally : Counts }.

Definition Body (A : Type) := M (Locals * World) A.

Definition lift {A} (m : Async A) : Body A := fun s =>
  let (r, w') := m (snd s) in (r, (fst s, w')).

Definition on_locals (f : Locals -> Locals) : Body unit :=
  modify (fun s => (f (fst s), snd s)).

Definition bump (q : QueuedSubmission) : QueuedSubmission :=
  mkQueued (id q) (submission q) (screenshotUri q) (createdAt q)
           (retryCount q + 1).

(** [item.retryCount++] *)
Definition incr_retryCount : Body unit :=
  on_locals (fun l => mkLocals (bump (item l)) (tally l)).

(** [succeeded++] *)
Definition incr_succeeded : Body unit :=
  on_locals (fun l =>
    mkLocals (item l) (mkCounts (S (succeeded (tally l))) (failed (tally l)))).

(** [failed++] *)
Definition incr_failed : Body unit :=
  on_locals (fun l =>
    mkLocals (item l) (mkCounts (succeeded (tally l)) (S (failed (tally l))))).

Definition the_item : Body QueuedSubmission := gets (fun s => item (fst s)).

(** [await this.syncCallback(item)]; calling a null callback throws. *)
Definition callSyncCallback (it : QueuedSubmission) : Async bool := fun w =>
  match syncCallback (oq w) with
  | None => (Threw (ErrorObj "this.syncCallback is not a function"), w)
  | Some cb =>
      let w' := on_env (add_event (DeliveryCalled it)) w in
      match cb it with
      | Resolved ok => (Returned ok, w')
      | Rejected e => (Threw e, w')
      end
  end.

(** [error instanceof Error ? error.message : 'Unknown error'] *)
Definition error_detail (e : JsThrown) : string :=
  match e with
  | ErrorObj message => message
  | NonError _ => "Unknown error"
  end.

(** The body of the [for (const item of pending)] loop. *)
Definition iteration : Body unit :=
  it <- the_item ;;
  max <- lift (gets (fun w => effectiveMaxRetries (oq w))) ;;
  if (max <=? retryCount it)%Z then
    (* Skip items that exceeded max retries *)
    lift (emit (SubmissionFailed (id it) "Max retries exceeded")) ;;;
    lift (remove (id it)) ;;;
    incr_failed
  else
    try_catch
      (ok <- lift (callSyncCallback it) ;;
       if ok : bool then
         lift (remove (id it)) ;;;
         lift (emit (SubmissionSynced (id it))) ;;;
         incr_succeeded
       else
         incr_retryCount ;;;
         it' <- the_item ;;
         lift (update it') ;;;
         incr_failed)
      (fun e =>
         incr_retryCount ;;;
         it' <- the_item ;;
         lift (update it') ;;;
         lift (emit (SubmissionFailed (id it') (error_detail e))) ;;;
         incr_failed) ;;;
    (* Small delay between submissions *)
    lift (emit (Pause 100)).

(** The [for] loop over the snapshot [pending]; its state is the two
    counters and the world. *)
Fixpoint for_each (pending : list QueuedSubmission)
  : M (Counts * World) unit :=
  match pending with
  | [] => ret tt
  | it :: rest => fun s =>
      match iteration (mkLocals it (fst s), snd s) with
      | (Returned _, (l, w')) => for_each rest (tally l, w')
      | (Threw e, (l, w')) => (Threw e, (tally l, w'))
      end
  end.

(** The guard of [sync]:
    [!this.isConnected || this.syncInProgress || !this.syncCallback]. *)
Definition skips (q : OfflineQueue) : bool :=
  negb (isConnected q) || syncInProgress q ||
  match syncCallback q with None => true | Some _ => false end.

(** The [try] block of [sync]. *)
Definition drain : M (Counts * World) unit := fun s =>
  let (r, w') := getPending (snd s) in
  match r with
  | Returned pending => for_each pending (fst s, w')
  | Threw e => (Threw e, (fst s, w'))
  end.

(** The [finally] block of [sync]. *)
Definition finish (s : Counts * World) : Counts * World :=
  (fst s,
   on_env (add_event (SyncComplete (succeeded (fst s)) (failed (fst s))))
          (on_oq (set_syncInProgress false) (snd s))).

Definition sync : Async Counts := fun w =>
  if skips (oq w) then (Returned (mkCounts 0 0), w)
  else
    let w1 := on_env (add_event SyncStart)
                     (on_oq (set_syncInProgress true) w) in
    let (r, s) := try_finally drain finish (mkCounts 0 0, w1) in
    match r with
    | Returned _ => (Returned (fst s), snd s)
    | Threw e => (Threw e, snd s)
    end.

(* ===================================================================== *)
(** * Connectivity monitor *)
(* ===================================================================== *)

(** [this.sync()] without [await]: the pass runs, its result (or its
    rejection) is dropped. *)
Definition detached {A} (m : Async A) : Async unit := fun w =>
  (Returned tt, snd (m w)).

Definition subscribe : Async unit :=
  modify (fun w => mkWorld (set_subscriptions true true (oq w))
                           (set_listeners true true (env w))).

(** [init()]; [fetched] is [state.isConnected] of [NetInfo.fetch()]. *)
Definition init (fetched : option bool) : Async unit :=
  modify (on_oq (set_isConnected
                   (match fetched with Some b => b | None => true end))) ;;;
  subscribe ;;;
  connected <- getOnlineStatus ;;
  if connected : bool then detached sync else ret tt.

(** [setTimeout(() => this.sync(), 2000)] *)
Definition setTimeout_sync : Async unit :=
  modify (on_env (fun e => set_timers (S (timers e)) e)).

Definition handleNetworkChange (state : option bool) : Async unit :=
  wasOffline <- gets (fun w => negb (isConnected (oq w))) ;;
  modify (on_oq (set_isConnected
                   (match state with Some b => b | None => false end))) ;;;
  connected <- getOnlineStatus ;;
  if (wasOffline && connected)%bool then setTimeout_sync else ret tt.

Definition is_active (s : AppStateStatus) : bool :=
  match s with active => true | _ => false end.

Definition handleAppStateChange (nextAppState : AppStateStatus)
  : Async unit :=
  connected <- getOnlineStatus ;;
  if (is_active nextAppState && connected)%bool then detached sync
  else ret tt.

(** [destroy()]: each handle the object holds removes its listener. *)
Definition destroy : Async unit :=
  modify (fun w =>
    mkWorld (oq w)
      (set_listeners
         (netListener (env w) && negb (unsubscribeNetInfo (oq w)))
         (appListener (env w) && negb (appStateSubscription (oq w)))
         (env w))).

(** What the platform can do to the monitor: notify a reachability change
    or an application state change to the registered listener, or run a
    timer task whose delay has elapsed. *)
Inductive Stimulus :=
| NetInfoChanged (state : option bool)
| AppStateChanged (nextAppState : AppStateStatus)
| TimerElapsed.

Definition react (s : Stimulus) : Async unit := fun w =>
  match s with
  | NetInfoChanged state =>
      if netListener (env w) then handleNetworkChange state w
      else (Returned tt, w)
  | AppStateChanged next =>
      if appListener (env w) then handleAppStateChange next w
      else (Returned tt, w)
  | TimerElapsed =>
      match timers (env w) with
      | O => (Returned tt, w)
      | S n => detached sync (on_env (set_timers n) w)
      end
  end.

(* ===================================================================== *)
(** * Widget facade *)
(* ===================================================================== *)

Definition SDK_VERSION : string := "0.1.0".

(** [String.prototype.toLowerCase] on the ASCII letters. *)
Definition lower_char (c : ascii) : ascii :=
  let n := nat_of_ascii c in
  if ((65 <=? n) && (n <=? 90))%nat then ascii_of_nat (n + 32) else c.

Fixpoint toLowerCase (s : string) : string :=
  match s with
  | EmptyString => EmptyString
  | String c rest => String (lower_char c) (toLowerCase rest)
  end.

(** [s.includes(search)] *)
Fixpoint includes (s search : string) : bool :=
  prefix search s ||
  match s with
  | EmptyString => false
  | String _ rest => includes rest search
  end.

Definition networkErrors : list string :=
  ["network"; "fetch"; "timeout"; "offline"; "ECONNREFUSED"].

Definition isNetworkError (error : option string) : bool :=
  match error with
  | None => false
  | Some "" => false
  | Some text =>
      let lower := toLowerCase text in
      existsb (fun e => includes lower e) networkErrors
  end.

(** What the transport collaborator answers to [submitFeedback]. *)
Inductive TransportReply :=
| Responds (r : SubmissionResponse)
| Fails (e : JsThrown).

Record FeedbackTransport := mkTransport {
  submitFeedback_reply : FeedbackSubmission -> TransportReply;
  uploadScreenshot_reply : string -> string -> bool * option string
}.

Record WidgetConfig := mkConfig {
  projectId : string;
  apiKey : string;
  user_name : option string;
  user_email : option string
}.

Record FeedbackWidget := mkWidget {
  config : WidgetConfig;
  transport : FeedbackTransport;
  isSubmitting : bool;
  offlineQueue : OfflineQueue
}.

(** The process: the static [instance] field and the platform. *)
Record App := mkApp { instance : option FeedbackWidget; platform : Env }.

Record Feedback := mkFeedback {
  feedback_type : FeedbackType;
  feedback_priority : FeedbackPriority;
  feedback_title : string;
  feedback_description : string;
  feedback_screenshotUri : option string
}.

(** What one [submit] draws from its surroundings: the two context
    snapshots it may take and the entropy of a possible [enqueue]. *)
Record Surroundings := mkSurroundings {
  context_now : FeedbackContext;
  context_again : FeedbackContext;
  entropy : Entropy
}.

Definition Method (A : Type) := M (FeedbackWidget * Env) A.

Definition set_isSubmitting (b : bool) (wd : FeedbackWidget)
  : FeedbackWidget :=
  mkWidget (config wd) (transport wd) b (offlineQueue wd).

Definition set_offlineQueue (q : OfflineQueue) (wd : FeedbackWidget)
  : FeedbackWidget :=
  mkWidget (config wd) (transport wd) (isSubmitting wd) q.

(** A call on [this.offlineQueue]. *)
Definition on_queue {A} (m : Async A) : Method A := fun s =>
  let (r, w') := m (mkWorld (offlineQueue (fst s)) (snd s)) in
  (r, (set_offlineQueue (oq w') (fst s), env w')).

Definition notify (ev : Event) : Method unit :=
  modify (fun s => (fst s, add_event ev (snd s))).

Definition truthy (s : option string) : bool :=
  match s with
  | None => false
  | Some "" => false
  | Some _ => true
  end.

Definition queueSubmission (en : Entropy) (sub : FeedbackSubmission)
  (shot : option string) : Method SubmissionResponse :=
  try_catch
    (i <- on_queue (enqueue en (mkItem sub shot)) ;;
     ret (mkResponse true (Some ("offline-" ++ i)%string) None))
    (fun e =>
       ret (mkResponse false None
              (Some (match e with
                     | ErrorObj message => message
                     | NonError _ => "Failed to queue submission"
                     end)))).

(** [await this.transport.submitFeedback(submission)] *)
Definition transport_submitFeedback (sub : FeedbackSubmission)
  : Method SubmissionResponse := fun s =>
  let s' := (fst s, add_event (TransportCalled sub) (snd s)) in
  match submitFeedback_reply (transport (fst s)) sub with
  | Responds r => (Returned r, s')
  | Fails e => (Threw e, s')
  end.

(** [await this.transport.uploadScreenshot(feedback_id, uri)], which never
    throws, followed by the warning on failure. *)
Definition transport_uploadScreenshot (i uri : string) : Method unit :=
  notify (ScreenshotUploaded i uri) ;;;
  t <- gets (fun s => transport (fst s)) ;;
  if fst (uploadScreenshot_reply t i uri) then ret tt
  else notify (Warned "FeedbackWidget: Screenshot upload failed:").

Definition or_default (s : option string) (d : string) : string :=
  if truthy s then match s with Some x => x | None => d end else d.

(** The [try ... catch ... finally] statement of [submitFeedback], which
    the method enters with its flag set. *)
Definition submitFeedback_attempt (sur : Surroundings) (feedback : Feedback)
  : Method SubmissionResponse :=
  try_finally
    (try_catch
       (cfg <- gets (fun s => config (fst s)) ;;
        let submission :=
          mkSubmission (feedback_type feedback) (feedback_priority feedback)
            (feedback_title feedback) (feedback_description feedback)
            (if truthy (user_name cfg) then user_name cfg else None)
            (if truthy (user_email cfg) then user_email cfg else None)
            (Some SDK_VERSION) (Some (context_now sur)) in
        online <- on_queue getOnlineStatus ;;
        if negb online then
          queueSubmission (entropy sur) submission
                          (feedback_screenshotUri feedback)
        else
          response <- transport_submitFeedback submission ;;
          if negb (success response) then
            if isNetworkError (error response) then
              queueSubmission (entropy sur) submission
                              (feedback_screenshotUri feedback)
            else
              notify (SubmitError
                        (ErrorObj (or_default (error response)
                                              "Submission failed"))) ;;;
              ret response
          else
            (match feedback_screenshotUri feedback, feedback_id response
             with
             | Some uri, Some fid =>
                 if (truthy (Some uri) && truthy (Some fid))%bool
                 then transport_uploadScreenshot fid uri
                 else ret tt
             | _, _ => ret tt
             end) ;;;
            notify (SubmitSuccess (feedback_id response)) ;;;
            ret response)
       (fun thrown =>
          let message := match thrown with
                         | ErrorObj m => m
                         | NonError text => text
                         end in
          if isNetworkError (Some message) then
            queueSubmission (entropy sur)
              (mkSubmission (feedback_type feedback)
                 (feedback_priority feedback) (feedback_title feedback)
                 (feedback_description feedback) None None
                 (Some SDK_VERSION) (Some (context_again sur)))
              (feedback_screenshotUri feedback)
          else
            notify (SubmitError (ErrorObj message)) ;;;
            ret (mkResponse false None (Some message))))
    (fun s => (set_isSubmitting false (fst s), snd s)).

Definition submitFeedback (sur : Surroundings) (feedback : Feedback)
  : Method SubmissionResponse := fun s =>
  if isSubmitting (fst s) then
    (Returned (mkResponse false None (Some "Submission already in progress")),
     s)
  else
    (modify (fun s => (set_isSubmitting true (fst s), snd s)) ;;;
     notify SubmitStart ;;;
     submitFeedback_attempt sur feedback) s.

(** The delivery function the constructor registers. *)
Definition syncQueuedSubmission (t : FeedbackTransport) : SyncCallback :=
  fun queued =>
    match submitFeedback_reply t (submission queued) with
    | Fails _ => Resolved false
    | Responds response =>
        if (negb (success response) || negb (truthy (feedback_id response)))%bool
        then Resolved false
        else Resolved true
    end.

(** A static method that delegates to the instance's queue. *)
Definition on_instance_queue {A} (wd : FeedbackWidget) (m : Async A)
  : M App A := fun app =>
  let (r, s) := on_queue m (wd, platform app) in
  (r, mkApp (Some (fst s)) (snd s)).

Module Static.

(** [FeedbackWidget.init(config)]; [fetched] is what [NetInfo.fetch()]
    resolves to for the queue's own [init()]. *)
Definition init (cfg : WidgetConfig) (t : FeedbackTransport)
  (fetched : option bool) : M App unit := fun app =>
  match instance app with
  | Some _ => (Returned tt, app)
  | None =>
      if negb (truthy (Some (projectId cfg))) then
        (Threw (ErrorObj "FeedbackWidget: projectId is required"), app)
      else if negb (truthy (Some (apiKey cfg))) then
        (Threw (ErrorObj "FeedbackWidget: apiKey is required"), app)
      else
        let q := set_syncCallback (syncQueuedSubmission t)
                   (new_OfflineQueue (Some 3%Z)) in
        let wd := mkWidget cfg t false q in
        let (_, s) := on_queue (init fetched) (wd, platform app) in
        (Returned tt, mkApp (Some (fst s)) (snd s))
  end.

Definition destroy : M App unit := fun app =>
  match instance app with
  | None => (Returned tt, app)
  | Some wd =>
      let (_, s) := on_queue destroy (wd, platform app) in
      (Returned tt, mkApp None (snd s))
  end.

Definition isInitialized : M App bool :=
  gets (fun app => match instance app with Some _ => true | None => false end).

Definition submit (sur : Surroundings) (feedback : Feedback)
  : M App SubmissionResponse := fun app =>
  match instance app with
  | None =>
      (Returned (mkResponse false None (Some "FeedbackWidget not initialized")),
       app)
  | Some wd =>
      let (r, s) := submitFeedback sur feedback (wd, platform app) in
      (r, mkApp (Some (fst s)) (snd s))
  end.

Definition getPendingCount : M App nat := fun app =>
  match instance app with
  | None => (Returned 0%nat, app)
  | Some wd => on_instance_queue wd getPendingCount app
  end.

Definition syncOffline : M App Counts := fun app =>
  match instance app with
  | None => (Returned (mkCounts 0 0), app)
  | Some wd => on_instance_queue wd sync app
  end.

Definition isOnline : M App bool := fun app =>
  match instance app with
  | None => (Returned true, app)
  | Some wd => on_instance_queue wd getOnlineStatus app
  end.

End Static.

(* ===================================================================== *)
(** * A functional reading of one drain pass *)
(* ===================================================================== *)

(** What [getQueue] reads from a cell. *)
Definition stored_queue (s : Stored) : list QueuedSubmission :=
  match s with
  | Json queue => queue
  | NoItem | Unparseable => []
  end.

Definition pending_of (w : World) : list QueuedSubmission :=
  stored_queue (storage (env w)).

(** Storage that rejects no further call. *)
Definition reliable (w : World) : Prop :=
  getFaults (env w) = [] /\ setFaults (env w) = [].

(** The fate of one record in a pass. *)
Inductive Verdict :=
| Evict
| Delivered
| Failed (thrown : option JsThrown).

Definition verdict (max : Z) (cb : SyncCallback) (it : QueuedSubmission)
  : Verdict :=
  if (max <=? retryCount it)%Z then Evict
  else match cb it with
       | Resolved true => Delivered
       | Resolved false => Failed None
       | Rejected e => Failed (Some e)
       end.

Definition removed (i : string) (queue : list QueuedSubmission) :=
  filter (fun q => negb (String.eqb (id q) i)) queue.

Definition updated (it : QueuedSubmission) (queue : list QueuedSubmission) :=
  match findIndex (fun q => String.eqb (id q) (id it)) queue with
  | Some index => assign index it queue
  | None => queue
  end.

Definition store_after (v : Verdict) (it : QueuedSubmission)
  (queue : list QueuedSubmission) : list QueuedSubmission :=
  match v with
  | Evict | Delivered => removed (id it) queue
  | Failed _ => updated (bump it) queue
  end.

Definition events_of (v : Verdict) (it : QueuedSubmission) : list Event :=
  match v with
  | Evict => [SubmissionFailed (id it) "Max retries exceeded"]
  | Delivered => [DeliveryCalled it; SubmissionSynced (id it); Pause 100]
  | Failed None => [DeliveryCalled it; Pause 100]
  | Failed (Some e) =>
      [DeliveryCalled it; SubmissionFailed (id it) (error_detail e); Pause 100]
  end.

Definition counted (v : Verdict) (c : Counts) : Counts :=
  match v with
  | Delivered => mkCounts (S (succeeded c)) (failed c)
  | Evict | Failed _ => mkCounts (succeeded c) (S (failed c))
  end.

Definition item_after (v : Verdict) (it : QueuedSubmission) :=
  match v with
  | Failed _ => bump it
  | Evict | Delivered => it
  end.

(** [w'] differs from [w] by the stored queue and by new events only, and
    its storage is still reliable. *)
Definition moves (w : World) (queue : list QueuedSubmission)
  (evs : list Event) (w' : World) : Prop :=
  oq w' = oq w /\ reliable w' /\ pending_of w' = queue /\
  log (env w') = log (env w) ++ evs.

Section Pass.

Variable cb : SyncCallback.
Variable max : Z.

Definition pass_store (pending queue : list QueuedSubmission) :=
  fold_left (fun q it => store_after (verdict max cb it) it q) pending queue.

Definition pass_counts (pending : list QueuedSubmission) (c : Counts) :=
  fold_left (fun c it => counted (verdict max cb it) c) pending c.

Definition pass_events (pending : list QueuedSubmission) : list Event :=
  flat_map (fun it => events_of (verdict max cb it) it) pending.

(** What a record leaves in the store when identifiers are unique. *)
Definition settle (it : QueuedSubmission) : list QueuedSubmission :=
  match verdict max cb it with
  | Evict | Delivered => []
  | Failed _ => [bump it]
  end.

End Pass.

(* ===================================================================== *)
(** * Definitions used by the statements *)
(* ===================================================================== *)

(** The pass is not skipped. *)
Definition runs (q : OfflineQueue) : Prop := skips q = false.

Definition ids (queue : list QueuedSubmission) : list string :=
  map id queue.

(** The records the delivery function was called on, in order. *)
Fixpoint deliveries (evs : list Event) : list QueuedSubmission :=
  match evs with
  | [] => []
  | DeliveryCalled it :: rest => it :: deliveries rest
  | _ :: rest => deliveries rest
  end.

(** [enqueue] called once per element, in order. *)
Fixpoint enqueue_all (items : list (Entropy * QueueItem)) : Async unit :=
  match items with
  | [] => ret tt
  | p :: rest => enqueue (fst p) (snd p) ;;; enqueue_all rest
  end.

(** The records these calls create. *)
Definition queued (items : list (Entropy * QueueItem))
  : list QueuedSubmission :=
  map (fun p => queuedItem (fst p) (snd p)) items.

(** The world after [n] successive calls of [sync()]. *)
Definition after_syncs (n : nat) (w : World) : World :=
  Nat.iter n (fun w => snd (sync w)) w.

(** A delivery function that never reports success. *)
Definition always_fails (cb : SyncCallback) : Prop :=
  forall it, cb it <> Resolved true.

(** [m] preserves [inv], whether it returns or throws. *)
Definition keeps {S A} (inv : S -> Prop) (m : M S A) : Prop :=
  forall s, inv s -> inv (snd (m s)).

(** From a state satisfying [inv], [m] returns. *)
Definition returns {S A} (inv : S -> Prop) (m : M S A) : Prop :=
  forall s, inv s -> exists a, fst (m s) = Returned a.

(** A property of the world that the loop body cannot break: it does not
    depend on the read script, on the stored text or on the log, and it
    survives the consumption of one entry of the write script. *)
Record stable (P : World -> Prop) : Prop := {
  stable_reads : forall w f, P w -> P (on_env (set_getFaults f) w);
  stable_writes : forall w,
      P w -> P (on_env (set_setFaults (snd (next_fault (setFaults (env w))))) w);
  stable_stores : forall w s, P w -> P (on_env (set_storage s) w);
  stable_logs : forall w ev, P w -> P (on_env (add_event ev) w)
}.

Definition in_body (P : World -> Prop) : Locals * World -> Prop :=
  fun s => P (snd s).

Definition in_loop (P : World -> Prop) : Counts * World -> Prop :=
  fun s => P (snd s).

Definition writes_succeed (w : World) : Prop := setFaults (env w) = [].

(** The world in which the loop of a pass started on [w] begins: the flag
    is set, [onSyncStart] has been signalled, the snapshot has been read. *)
Definition pass_entry (w : World) : World :=
  snd (getPending (on_env (add_event SyncStart)
                          (on_oq (set_syncInProgress true) w))).

Definition pass_snapshot (w : World) : Outcome (list QueuedSubmission) :=
  fst (getPending (on_env (add_event SyncStart)
                          (on_oq (set_syncInProgress true) w))).

(** The number of records a pair of counters accounts for. *)
Definition total (c : Counts) : nat := succeeded c + failed c.

(** From a state satisfying [pre], [m] returns in a state satisfying
    [post] or throws in a state satisfying [exc]. *)
Definition spec {S A} (pre : S -> Prop) (m : M S A)
  (post : A -> S -> Prop) (exc : JsThrown -> S -> Prop) : Prop :=
  forall s, pre s ->
    match m s with
    | (Returned a, s') => post a s'
    | (Threw e, s') => exc e s'
    end.

(** A property of the counters of the loop. *)
Definition on_tally (L : Counts -> Prop) : Locals * World -> Prop :=
  fun s => L (tally (fst s)).

(** Concrete inputs. *)
Definition demo_submission : FeedbackSubmission :=
  mkSubmission bug high "App crashes on launch"
               "The app crashes when I open it" None None
               (Some SDK_VERSION) None.

Definition demo_item : QueueItem := mkItem demo_submission None.

Definition demo_entropy : Entropy :=
  mkEntropy 1700000000000 "k3j9x2a" 1700000000000.

Definition other_entropy : Entropy :=
  mkEntropy 1700000000050 "q8w1e5r" 1700000000050.

Definition demo_record : QueuedSubmission := queuedItem demo_entropy demo_item.

Definition quiet_env (s : Stored) : Env := mkEnv s [] [] false false 0 [].

(** A queue object built with [maxRetries: 3] and given a delivery
    function; online, idle. *)
Definition demo_queue (cb : SyncCallback) : OfflineQueue :=
  set_syncCallback cb (new_OfflineQueue (Some 3%Z)).

Definition demo_world (cb : SyncCallback) (s : Stored) : World :=
  mkWorld (demo_queue cb) (quiet_env s).

Definition refuses : SyncCallback := fun _ => Resolved false.

Definition accepts : SyncCallback := fun _ => Resolved true.

Definition breaks : SyncCallback :=
  fun _ => Rejected (ErrorObj "Network request failed").

(** C1 as the specification words it: after the third failing pass the
    record is gone and the fourth call finds nothing to do. *)
Definition evicted_by_third_pass (w1 : World) : Prop :=
  pending_of (after_syncs 3 w1) = [] /\
  fst (sync (after_syncs 3 w1)) = Returned (mkCounts 0 0).

Definition demo_config : WidgetConfig :=
  mkConfig "my-app" "fpk_xxx" None None.

Definition demo_feedback : Feedback :=
  mkFeedback bug high "App crashes on launch"
             "The app crashes when I open it" None.

Definition demo_surroundings : Surroundings :=
  mkSurroundings [("os_name", "ios")] [("os_name", "ios")] demo_entropy.

(** A transport whose [submitFeedback] always gives the same reply, and
    whose screenshot upload succeeds. *)
Definition replying (reply : TransportReply) : FeedbackTransport :=
  mkTransport (fun _ => reply) (fun _ _ => (true, None)).

(** An initialised widget: the given transport, connectivity and
    single-flight flag; empty storage. *)
Definition demo_app (t : FeedbackTransport) (online busy : bool) : App :=
  mkApp
    (Some (mkWidget demo_config t busy
             (set_subscriptions true true
                (set_isConnected online
                   (set_syncCallback (syncQueuedSubmission t)
                      (new_OfflineQueue (Some 3%Z)))))))
    (mkEnv NoItem [] [] true true 0 []).

Definition refused_text : string := "connect ECONNREFUSED 127.0.0.1:443".

(** The process while a [submit] call made in [app] is suspended at its
    first [await]: the flag of the instance is set and [onSubmitStart] has
    been signalled. *)
Definition suspended_in_submit (app : App) : App :=
  match instance app with
  | None => app
  | Some wd =>
      mkApp (Some (set_isSubmitting true wd))
            (add_event SubmitStart (platform app))
  end.

(** C7 as the specification words it, at one submission. *)
Definition offline_submit_succeeds (sur : Surroundings) (feedback : Feedback)
  (app : App) : Prop :=
  exists i app' n,
    Static.submit sur feedback app =
      (Returned (mkResponse true (Some i) None), app') /\
    fst (Static.getPendingCount app) = Returned n /\
    fst (Static.getPendingCount app') = Returned (S n).

(* ===================================================================== *)
(** * Definitions used by further properties of the code *)
(* ===================================================================== *)

(** The record is below the retry limit: a pass attempts its delivery. *)
Definition below_limit (max : Z) (r : QueuedSubmission) : bool :=
  (retryCount r <? max)%Z.

(** The delivery function reports success on the record. *)
Definition accepted (cb : SyncCallback) (r : QueuedSubmission) : bool :=
  match cb r with
  | Resolved true => true
  | Resolved false | Rejected _ => false
  end.

(** The delivery calls made on records with identifier [i]. *)
Definition attempts (i : string) (evs : list Event) : nat :=
  List.length (filter (fun r => String.eqb (id r) i) (deliveries evs)).

(** The reachability notifications [states], handled one after the
    other. *)
Definition notified (states : list (option bool)) (w : World) : World :=
  fold_left (fun w state => snd (handleNetworkChange state w)) states w.

(** The notification does not report the network as reachable. *)
Definition reports_offline (state : option bool) : bool :=
  match state with
  | Some true => false
  | Some false | None => true
  end.

(** The widget is the one of [wd], up to its single-flight flag. *)
Definition same_widget (wd : FeedbackWidget) : FeedbackWidget * Env -> Prop :=
  fun s => config (fst s) = config wd /\ transport (fst s) = transport wd /\
           offlineQueue (fst s) = offlineQueue wd.

(** The submission [submitFeedback] builds in its [try] block. *)
Definition built_submission (cfg : WidgetConfig) (sur : Surroundings)
  (feedback : Feedback) : FeedbackSubmission :=
  mkSubmission (feedback_type feedback) (feedback_priority feedback)
    (feedback_title feedback) (feedback_description feedback)
    (if truthy (user_name cfg) then user_name cfg else None)
    (if truthy (user_email cfg) then user_email cfg else None)
    (Some SDK_VERSION) (Some (context_now sur)).

(** The submission its [catch] block builds again. *)
Definition rebuilt_submission (sur : Surroundings) (feedback : Feedback)
  : FeedbackSubmission :=
  mkSubmission (feedback_type feedback) (feedback_priority feedback)
    (feedback_title feedback) (feedback_description feedback) None None
    (Some SDK_VERSION) (Some (context_again sur)).

(** The text of a thrown value, as [submitFeedback] reads it. *)
Definition thrown_text (e : JsThrown) : string :=
  match e with
  | ErrorObj message => message
  | NonError text => text
  end.

(** The transport failed, and [submitFeedback] takes the failure for a
    network failure or not. *)
Definition classified (network : bool) (reply : TransportReply) : Prop :=
  match reply with
  | Responds r => success r = false /\ isNetworkError (error r) = network
  | Fails e => isNetworkError (Some (thrown_text e)) = network
  end.

(** The platform notifies the queue of the instance, if there is one. *)
Definition platform_event (s : Stimulus) : M App unit := fun app =>
  match instance app with
  | None => (Returned tt, app)
  | Some wd => on_instance_queue wd (react s) app
  end.

(** The instance of [demo_app]. *)
Definition demo_widget (t : FeedbackTransport) (online busy : bool)
  : FeedbackWidget :=
  mkWidget demo_config t busy
    (set_subscriptions true true
       (set_isConnected online
          (set_syncCallback (syncQueuedSubmission t)
             (new_OfflineQueue (Some 3%Z))))).

Definition demo_platform : Env := mkEnv NoItem [] [] true true 0 [].

(** The body of an HTTP answer, as [submitFeedback] of the transport reads
    it: [response.ok], [response.status], and the fields [error] and
    [feedback_id] of the JSON [data]. *)
Record HttpAnswer := mkAnswer {
  http_ok : bool;
  http_status : Z;
  data_error : option string;
  data_feedback_id : option string
}.

(** What one request meets: the signature, [fetch] or [response.json()]
    rejects, or the server answers. *)
Inductive Exchange :=
| Broken (e : JsThrown)
| Answered (a : HttpAnswer).

(** [FeedbackTransport.submitFeedback], on what its request meets. *)
Definition FeedbackTransport_submitFeedback (x : Exchange) : TransportReply :=
  match x with
  | Broken e => Fails e
  | Answered a =>
      if negb (http_ok a) then
        Responds
          (mkResponse false None
             (Some (or_default (data_error a)
                      ("Request failed with status " ++
                       string_of_Z (http_status a))%string)))
      else Responds (mkResponse true (data_feedback_id a) None)
  end.

(** The transport over a network [net]. *)
Definition http_transport (net : FeedbackSubmission -> Exchange)
  (upload : string -> string -> bool * option string) : FeedbackTransport :=
  mkTransport (fun sub => FeedbackTransport_submitFeedback (net sub)) upload.

(** The server confirmed the submission: an answer that is [ok] and
    carries a non-empty identifier. *)
Definition confirmed (x : Exchange) : bool :=
  match x with
  | Broken _ => false
  | Answered a => http_ok a && truthy (data_feedback_id a)
  end.

(** A decimal digit or the minus sign. *)
Definition numeral (c : ascii) : bool :=
  let n := nat_of_ascii c in
  ((n =? 45) || ((48 <=? n) && (n <=? 57)))%nat.

(** The state of the [FeedbackForm] component, and the number of close
    timers it has scheduled. *)
Record FormState := mkForm {
  form_type : FeedbackType;
  form_priority : FeedbackPriority;
  form_feedbackTitle : string;
  form_description : string;
  form_isSubmitting : bool;
  form_error : option string;
  form_success : bool;
  form_closeTimers : nat
}.

Definition setIsSubmitting (b : bool) (f : FormState) : FormState :=
  mkForm (form_type f) (form_priority f) (form_feedbackTitle f)
    (form_description f) b (form_error f) (form_success f)
    (form_closeTimers f).

Definition setError (e : option string) (f : FormState) : FormState :=
  mkForm (form_type f) (form_priority f) (form_feedbackTitle f)
    (form_description f) (form_isSubmitting f) e (form_success f)
    (form_closeTimers f).

Definition setSuccess (b : bool) (f : FormState) : FormState :=
  mkForm (form_type f) (form_priority f) (form_feedbackTitle f)
    (form_description f) (form_isSubmitting f) (form_error f) b
    (form_closeTimers f).

(** [setTimeout(() => handleClose(), 1500)] *)
Definition setTimeout_close (f : FormState) : FormState :=
  mkForm (form_type f) (form_priority f) (form_feedbackTitle f)
    (form_description f) (form_isSubmitting f) (form_error f)
    (form_success f) (S (form_closeTimers f)).

(** [String.prototype.trim].  A text is held as its bytes, in UTF-8
    outside ASCII. *)
Definition byte_is (n : nat) (c : ascii) : bool := (nat_of_ascii c =? n)%nat.

(** The white space and the line terminators of ECMAScript, which
    [String.prototype.trim] removes, by the length of their encoding:
    U+0009 to U+000D and U+0020; *)
Definition is_space (c : ascii) : bool :=
  let n := nat_of_ascii c in
  (((9 <=? n) && (n <=? 13)) || (n =? 32))%nat.

(** U+00A0; *)
Definition is_space2 (a b : ascii) : bool := byte_is 194 a && byte_is 160 b.

(** U+1680, U+2000 to U+200A, U+2028, U+2029, U+202F, U+205F, U+3000 and
    U+FEFF. *)
Definition is_space3 (a b c : ascii) : bool :=
  let n := nat_of_ascii c in
  (byte_is 225 a && byte_is 154 b && byte_is 128 c) ||
  (byte_is 226 a && byte_is 128 b &&
   (((128 <=? n) && (n <=? 138)) || (n =? 168) || (n =? 169) || (n =? 175))%nat) ||
  (byte_is 226 a && byte_is 129 b && byte_is 159 c) ||
  (byte_is 227 a && byte_is 128 b && byte_is 128 c) ||
  (byte_is 239 a && byte_is 187 b && byte_is 191 c).

Fixpoint trimStart (s : string) : string :=
  match s with
  | EmptyString => EmptyString
  | String a r1 =>
      if is_space a then trimStart r1
      else
        match r1 with
        | EmptyString => s
        | String b r2 =>
            if is_space2 a b then trimStart r2
            else
              match r2 with
              | EmptyString => s
              | String c r3 => if is_space3 a b c then trimStart r3 else s
              end
        end
  end.

(** A text of white space only, or empty. *)
Definition blank (s : string) : bool :=
  match trimStart s with
  | EmptyString => true
  | String _ _ => false
  end.

Fixpoint trimEnd (s : string) : string :=
  match s with
  | EmptyString => EmptyString
  | String c rest => if blank (String c rest) then EmptyString
                     else String c (trimEnd rest)
  end.

Definition trim (s : string) : string := trimEnd (trimStart s).

(** The bytes of a text. *)
Definition utf8 (bytes : list nat) : string :=
  string_of_list_ascii (map ascii_of_nat bytes).

(** The handlers of the form run on the form and the process. *)
Definition Handler (A : Type) := M (FormState * App) A.

Definition on_form (f : FormState -> FormState) : Handler unit :=
  modify (fun s => (f (fst s), snd s)).

(** [await FeedbackWidget.submit(feedback)] *)
Definition FeedbackWidget_submit (sur : Surroundings) (feedback : Feedback)
  : Handler SubmissionResponse := fun s =>
  let (r, app) := Static.submit sur feedback (snd s) in (r, (fst s, app)).

(** [handleSubmit] of the form; [shot] is the [screenshotUri] property. *)
Definition handleSubmit (sur : Surroundings) (shot : option string)
  : Handler unit :=
  form <- gets fst ;;
  if negb (truthy (Some (trim (form_feedbackTitle form)))) then
    on_form (setError (Some "Please enter a title"))
  else if negb (truthy (Some (trim (form_description form)))) then
    on_form (setError (Some "Please enter a description"))
  else
    on_form (setIsSubmitting true) ;;;
    on_form (setError None) ;;;
    try_finally
      (try_catch
         (response <- FeedbackWidget_submit sur
                        (mkFeedback (form_type form) (form_priority form)
                           (trim (form_feedbackTitle form))
                           (trim (form_description form)) shot) ;;
          if success response then
            on_form (setSuccess true) ;;;
            on_form setTimeout_close
          else
            on_form (setError (Some (or_default (error response)
                                       "Failed to submit feedback"))))
         (fun err =>
            on_form (setError (Some (match err with
                                     | ErrorObj message => message
                                     | NonError _ => "An error occurred"
                                     end)))))
      (fun s => (setIsSubmitting false (fst s), snd s)).

Definition demo_form (t d : string) : FormState :=
  mkForm bug medium t d false None false 0.

(** What the identifier of a record is made of: the clock reading and the
    random suffix of its [enqueue]. *)
Definition stamp (en : Entropy) : Z * string :=
  (now_for_id en, random_suffix en).

(** The records of [queue] were created by [enqueue] calls that drew
    [ens], in this order. *)
Definition minted (ens : list Entropy) (queue : list QueuedSubmission)
  : Prop :=
  ids queue = map fresh_id ens.

(** A decimal digit. *)
Definition digit (c : ascii) : bool :=
  let n := nat_of_ascii c in ((48 <=? n) && (n <=? 57))%nat.

Definition digits (s : string) : Prop :=
  Forall (fun c => digit c = true) (list_ascii_of_string s).

(* ===================================================================== *)
(** * Callbacks that throw *)
(* ===================================================================== *)

(** The callbacks of a configuration, as their caller meets them: called
    with the arguments of the event, after the events logged so far, a
    callback returns, or throws.  In the definitions above every callback
    returns; those of this part are the same code with callbacks that may
    throw. *)
Definition Observers := list Event -> Event -> option JsThrown.

(** Callbacks that all return. *)
Definition silent : Observers := fun _ _ => None.

(** [try { m } finally { f }], for a [finally] block that can throw: what
    it throws replaces the outcome of [m]. *)
Definition try_finally_with {S A} (m : M S A) (f : M S unit) : M S A :=
  fun s =>
    let (r, s') := m s in
    match f s' with
    | (Returned _, s'') => (r, s'')
    | (Threw e, s'') => (Threw e, s'')
    end.

Module Observed.

Section Queue.

(** [onSyncStart], [onSyncComplete], [onSubmissionSynced] and
    [onSubmissionFailed] of [OfflineQueueConfig]. *)
Variable observers : Observers.

(** [this.config.onEvent?.(...)] *)
Definition observe (ev : Event) : Async unit := fun w =>
  let w' := on_env (add_event ev) w in
  match observers (log (env w)) ev with
  | None => (Returned tt, w')
  | Some e => (Threw e, w')
  end.

(** The body of the [for (const item of pending)] loop. *)
Definition iteration : Body unit :=
  it <- the_item ;;
  max <- lift (gets (fun w => effectiveMaxRetries (oq w))) ;;
  if (max <=? retryCount it)%Z then
    lift (observe (SubmissionFailed (id it) "Max retries exceeded")) ;;;
    lift (remove (id it)) ;;;
    incr_failed
  else
    try_catch
      (ok <- lift (callSyncCallback it) ;;
       if ok : bool then
         lift (remove (id it)) ;;;
         lift (observe (SubmissionSynced (id it))) ;;;
         incr_succeeded
       else
         incr_retryCount ;;;
         it' <- the_item ;;
         lift (update it') ;;;
         incr_failed)
      (fun e =>
         incr_retryCount ;;;
         it' <- the_item ;;
         lift (update it') ;;;
         lift (observe (SubmissionFailed (id it') (error_detail e))) ;;;
         incr_failed) ;;;
    lift (emit (Pause 100)).

Fixpoint for_each (pending : list QueuedSubmission)
  : M (Counts * World) unit :=
  match pending with
  | [] => ret tt
  | it :: rest => fun s =>
      match iteration (mkLocals it (fst s), snd s) with
      | (Returned _, (l, w')) => for_each rest (tally l, w')
      | (Threw e, (l, w')) => (Threw e, (tally l, w'))
      end
  end.

(** The [try] block of [sync]. *)
Definition drain : M (Counts * World) unit := fun s =>
  let (r, w') := getPending (snd s) in
  match r with
  | Returned pending => for_each pending (fst s, w')
  | Threw e => (Threw e, (fst s, w'))
  end.

(** The [finally] block of [sync]. *)
Definition finish : M (Counts * World) unit := fun s =>
  let (r, w') :=
    observe (SyncComplete (succeeded (fst s)) (failed (fst s)))
            (on_oq (set_syncInProgress false) (snd s)) in
  (r, (fst s, w')).

Definition sync : Async Counts := fun w =>
  if skips (oq w) then (Returned (mkCounts 0 0), w)
  else
    match observe SyncStart (on_oq (set_syncInProgress true) w) with
    | (Threw e, w1) => (Threw e, w1)
    | (Returned _, w1) =>
        let (r, s) := try_finally_with drain finish (mkCounts 0 0, w1) in
        match r with
        | Returned _ => (Returned (fst s), snd s)
        | Threw e => (Threw e, snd s)
        end
    end.

End Queue.

Section Widget.

(** [onSubmitStart], [onSubmitSuccess] and [onSubmitError] of
    [WidgetConfig]. *)
Variable callbacks : Observers.

(** [this.config.onEvent?.(...)] *)
Definition call (ev : Event) : Method unit := fun s =>
  let s' := (fst s, add_event ev (snd s)) in
  match callbacks (log (snd s)) ev with
  | None => (Returned tt, s')
  | Some e => (Threw e, s')
  end.

(** The [try ... catch ... finally] statement of [submitFeedback]. *)
Definition submitFeedback_attempt (sur : Surroundings) (feedback : Feedback)
  : Method SubmissionResponse :=
  try_finally
    (try_catch
       (cfg <- gets (fun s => config (fst s)) ;;
        let submission :=
          mkSubmission (feedback_type feedback) (feedback_priority feedback)
            (feedback_title feedback) (feedback_description feedback)
            (if truthy (user_name cfg) then user_name cfg else None)
            (if truthy (user_email cfg) then user_email cfg else None)
            (Some SDK_VERSION) (Some (context_now sur)) in
        online <- on_queue getOnlineStatus ;;
        if negb online then
          queueSubmission (entropy sur) submission
                          (feedback_screenshotUri feedback)
        else
          response <- transport_submitFeedback submission ;;
          if negb (success response) then
            if isNetworkError (error response) then
              queueSubmission (entropy sur) submission
                              (feedback_screenshotUri feedback)
            else
              call (SubmitError
                      (ErrorObj (or_default (error response)
                                            "Submission failed"))) ;;;
              ret response
          else
            (match feedback_screenshotUri feedback, feedback_id response
             with
             | Some uri, Some fid =>
                 if (truthy (Some uri) && truthy (Some fid))%bool
                 then transport_uploadScreenshot fid uri
                 else ret tt
             | _, _ => ret tt
             end) ;;;
            call (SubmitSuccess (feedback_id response)) ;;;
            ret response)
       (fun thrown =>
          let message := match thrown with
                         | ErrorObj m => m
                         | NonError text => text
                         end in
          if isNetworkError (Some message) then
            queueSubmission (entropy sur)
              (mkSubmission (feedback_type feedback)
                 (feedback_priority feedback) (feedback_title feedback)
                 (feedback_description feedback) None None
                 (Some SDK_VERSION) (Some (context_again sur)))
              (feedback_screenshotUri feedback)
          else
            call (SubmitError (ErrorObj message)) ;;;
            ret (mkResponse false None (Some message))))
    (fun s => (set_isSubmitting false (fst s), snd s)).

Definition submitFeedback (sur : Surroundings) (feedback : Feedback)
  : Method SubmissionResponse := fun s =>
  if isSubmitting (fst s) then
    (Returned (mkResponse false None (Some "Submission already in progress")),
     s)
  else
    (modify (fun s => (set_isSubmitting true (fst s), snd s)) ;;;
     call SubmitStart ;;;
     submitFeedback_attempt sur feedback) s.

(** [FeedbackWidget.submit(feedback)] *)
Definition submit (sur : Surroundings) (feedback : Feedback)
  : M App SubmissionResponse := fun app =>
  match instance app with
  | None =>
      (Returned (mkResponse false None (Some "FeedbackWidget not initialized")),
       app)
  | Some wd =>
      let (r, s) := submitFeedback sur feedback (wd, platform app) in
      (r, mkApp (Some (fst s)) (snd s))
  end.

End Widget.

End Observed.

(** Callbacks of which those called for the events of [sample] throw
    [thrown], and the others return. *)
Definition throwing (sample : Event -> bool) (thrown : JsThrown)
  : Observers :=
  fun _ ev => if sample ev then Some thrown else None.

Definition is_SyncStart (ev : Event) : bool :=
  match ev with SyncStart => true | _ => false end.

Definition is_SubmitStart (ev : Event) : bool :=
  match ev with SubmitStart => true | _ => false end.

Definition is_SubmitError (ev : Event) : bool :=
  match ev with SubmitError _ => true | _ => false end.

(* ===================================================================== *)
(** * Lemmas on the store *)
(* ===================================================================== *)

Lemma getQueue_reliable w :
  getFaults (env w) = [] ->
  getQueue w = (Returned (pending_of w), w).
Proof.
  destruct w as [q [st gf sf nl al tm lg]]; simpl; intros ->.
  unfold getQueue, try_catch, bind, getItem, pending_of; simpl.
  destruct st; reflexivity.
Qed.

Lemma setItem_reliable queue w :
  setFaults (env w) = [] ->
  setItem queue w = (Returned tt, on_env (set_storage (Json queue)) w).
Proof.
  destruct w as [q [st gf sf nl al tm lg]]; simpl; intros ->.
  reflexivity.
Qed.

Lemma remove_reliable i w :
  reliable w ->
  remove i w =
  (Returned tt, on_env (set_storage (Json (removed i (pending_of w)))) w).
Proof.
  intros [Hg Hs]. unfold remove, bind.
  rewrite (getQueue_reliable w Hg). unfold saveQueue.
  now rewrite (setItem_reliable _ w Hs).
Qed.

Lemma update_reliable it w :
  reliable w ->
  exists w', update it w = (Returned tt, w') /\
             moves w (updated it (pending_of w)) [] w'.
Proof.
  intros [Hg Hs]. unfold update, bind, updated.
  rewrite (getQueue_reliable w Hg).
  destruct (findIndex _ (pending_of w)) as [n|].
  - unfold saveQueue. rewrite (setItem_reliable _ w Hs).
    eexists; split; [reflexivity|].
    unfold moves, reliable, pending_of; simpl.
    now rewrite app_nil_r.
  - exists w; split; [reflexivity|].
    unfold moves, reliable. now rewrite app_nil_r.
Qed.

Lemma enqueue_reliable en it w :
  reliable w ->
  enqueue en it w =
  (Returned (fresh_id en),
   on_env (set_storage (Json (pending_of w ++ [queuedItem en it]))) w).
Proof.
  intros [Hg Hs]. unfold enqueue, bind.
  rewrite (getQueue_reliable w Hg). unfold saveQueue.
  now rewrite (setItem_reliable _ w Hs).
Qed.

Lemma getPendingCount_reliable w :
  getFaults (env w) = [] ->
  getPendingCount w = (Returned (List.length (pending_of w)), w).
Proof.
  intros Hg. unfold getPendingCount, bind.
  now rewrite (getQueue_reliable w Hg).
Qed.

Lemma moves_trans w1 w2 w3 q2 q3 e2 e3 :
  moves w1 q2 e2 w2 -> moves w2 q3 e3 w3 -> moves w1 q3 (e2 ++ e3) w3.
Proof.
  intros (Ho & Hr & Hq & Hl) (Ho' & Hr' & Hq' & Hl').
  repeat split; try apply Hr'; try congruence.
  rewrite Hl', Hl. now rewrite app_assoc.
Qed.

Lemma moves_event w ev :
  reliable w -> moves w (pending_of w) [ev] (on_env (add_event ev) w).
Proof. intros [Hg Hs]. repeat split; assumption. Qed.

Lemma moves_store w queue :
  reliable w ->
  moves w queue [] (on_env (set_storage (Json queue)) w).
Proof.
  intros [Hg Hs]. repeat split; try assumption.
  simpl. now rewrite app_nil_r.
Qed.

(* ===================================================================== *)
(** * One iteration and the whole loop, on reliable storage *)
(* ===================================================================== *)

Lemma iteration_reliable cb it c w :
  reliable w ->
  syncCallback (oq w) = Some cb ->
  let v := verdict (effectiveMaxRetries (oq w)) cb it in
  exists w',
    iteration (mkLocals it c, w) =
      (Returned tt, (mkLocals (item_after v it) (counted v c), w')) /\
    moves w (store_after v it (pending_of w)) (events_of v it) w'.
Proof.
  intros Hr Hcb v. subst v. unfold verdict.
  unfold iteration, bind, the_item, gets, lift; simpl.
  destruct (effectiveMaxRetries (oq w) <=? retryCount it)%Z.
  - (* eviction *)
    unfold emit, modify; simpl.
    rewrite remove_reliable by (apply moves_event; exact Hr).
    simpl. eexists; split; [reflexivity|].
    destruct Hr as [Hg Hs].
    repeat split; simpl; assumption.
  - unfold try_catch, bind, lift, callSyncCallback; simpl. rewrite Hcb.
    assert (Hr1 : reliable (on_env (add_event (DeliveryCalled it)) w))
      by (apply moves_event; exact Hr).
    destruct (cb it) as [[|]|e]; simpl.
    + (* delivered *)
      rewrite remove_reliable by exact Hr1. simpl.
      eexists; split; [reflexivity|].
      destruct Hr as [Hg Hs].
      repeat split; simpl; try assumption.
      now rewrite <- !app_assoc.
    + (* the delivery function returned false *)
      destruct (update_reliable (bump it) _ Hr1) as (w' & Hu & Hm).
      unfold the_item, gets, incr_retryCount, on_locals, modify; simpl.
      rewrite Hu; simpl.
      eexists; split; [reflexivity|].
      destruct Hm as (Ho & [Hg Hs] & Hq & Hl).
      repeat split; simpl; try assumption.
      rewrite Hl. simpl. now rewrite app_nil_r, <- !app_assoc.
    + (* the delivery function threw *)
      destruct (update_reliable (bump it) _ Hr1) as (w' & Hu & Hm).
      unfold the_item, gets, incr_retryCount, on_locals, modify; simpl.
      rewrite Hu; simpl.
      eexists; split; [reflexivity|].
      destruct Hm as (Ho & [Hg Hs] & Hq & Hl).
      repeat split; simpl; try assumption.
      rewrite Hl. simpl. now rewrite app_nil_r, <- !app_assoc.
Qed.

Lemma for_each_reliable cb pending :
  forall c w,
    reliable w ->
    syncCallback (oq w) = Some cb ->
    let max := effectiveMaxRetries (oq w) in
    exists w',
      for_each pending (c, w) =
        (Returned tt, (pass_counts cb max pending c, w')) /\
      moves w (pass_store cb max pending (pending_of w))
            (pass_events cb max pending) w'.
Proof.
  induction pending as [|it rest IH]; intros c w Hr Hcb; cbv zeta.
  - exists w; split; [reflexivity|].
    destruct Hr as [Hg Hs].
    repeat split; simpl; try assumption. now rewrite app_nil_r.
  - destruct (iteration_reliable cb it c w Hr Hcb) as (w1 & Hit & Hm).
    cbv zeta in Hit, Hm.
    simpl for_each. simpl fst; simpl snd. rewrite Hit.
    assert (Ho : oq w1 = oq w) by apply Hm.
    assert (Hr1 : reliable w1) by apply Hm.
    assert (Hcb1 : syncCallback (oq w1) = Some cb) by (rewrite Ho; exact Hcb).
    destruct (IH (counted (verdict (effectiveMaxRetries (oq w)) cb it) c)
                 w1 Hr1 Hcb1) as (w2 & Hrest & Hm2).
    cbv zeta in Hrest, Hm2. rewrite Ho in Hrest, Hm2.
    simpl tally. rewrite Hrest.
    exists w2; split; [reflexivity|].
    assert (Hq1 : pending_of w1 =
                  store_after (verdict (effectiveMaxRetries (oq w)) cb it)
                              it (pending_of w))
      by apply Hm.
    rewrite Hq1 in Hm2.
    eapply moves_trans; [exact Hm|exact Hm2].
Qed.

Lemma runs_inv q :
  runs q ->
  isConnected q = true /\ syncInProgress q = false /\
  exists cb, syncCallback q = Some cb.
Proof.
  unfold runs, skips. destruct (isConnected q), (syncInProgress q),
    (syncCallback q) as [cb|]; simpl; try discriminate.
  intros _. repeat split. now exists cb.
Qed.

Lemma unflag q :
  syncInProgress q = false ->
  set_syncInProgress false (set_syncInProgress true q) = q.
Proof. destruct q; simpl; now intros ->. Qed.

(** A pass on reliable storage, read functionally: the counts, the store
    and the events are those of [pass_counts], [pass_store] and
    [pass_events] on the snapshot. *)
Lemma sync_reliable cb w :
  reliable w ->
  runs (oq w) ->
  syncCallback (oq w) = Some cb ->
  let max := effectiveMaxRetries (oq w) in
  let pending := pending_of w in
  let c := pass_counts cb max pending (mkCounts 0 0) in
  exists w',
    sync w = (Returned c, w') /\
    moves w (pass_store cb max pending pending)
          (SyncStart :: pass_events cb max pending ++
           [SyncComplete (succeeded c) (failed c)]) w'.
Proof.
  intros Hr Hruns Hcb max pending c.
  destruct (runs_inv _ Hruns) as (Hcon & Hflag & _).
  unfold sync. rewrite Hruns.
  unfold try_finally, drain. simpl fst; simpl snd.
  set (w1 := on_env (add_event SyncStart) (on_oq (set_syncInProgress true) w)).
  assert (Hr1 : reliable w1) by (destruct Hr; split; assumption).
  unfold getPending. rewrite (getQueue_reliable w1) by apply Hr1.
  destruct (for_each_reliable cb (pending_of w1) (mkCounts 0 0) w1 Hr1)
    as (w2 & Hfe & Hm); [exact Hcb|].
  change (pending_of w1) with pending in *.
  change (effectiveMaxRetries (oq w1)) with max in *.
  rewrite Hfe. simpl.
  eexists; split; [reflexivity|].
  destruct Hm as (Ho & [Hg Hs] & Hq & Hl).
  repeat split; simpl; try assumption.
  - rewrite Ho. simpl. now apply unflag.
  - rewrite Hl. simpl. fold c. now rewrite <- !app_assoc.
Qed.

(* ===================================================================== *)
(** * Lists of records with unique identifiers *)
(* ===================================================================== *)

Lemma removed_absent i queue :
  ~ In i (ids queue) -> removed i queue = queue.
Proof.
  induction queue as [|q rest IH]; simpl; intros Hn; [reflexivity|].
  destruct (String.eqb_spec (id q) i) as [E|E]; simpl.
  - exfalso; apply Hn; now left.
  - f_equal. apply IH. intros H; apply Hn; now right.
Qed.

Lemma removed_app i a b : removed i (a ++ b) = removed i a ++ removed i b.
Proof. apply filter_app. Qed.

Lemma removed_here it rest :
  removed (id it) (it :: rest) = removed (id it) rest.
Proof. simpl. now rewrite String.eqb_refl. Qed.

Lemma findIndex_skip it done rest :
  ~ In (id it) (ids done) ->
  findIndex (fun q => String.eqb (id q) (id it)) (done ++ rest) =
  option_map (fun n => (List.length done + n)%nat)
             (findIndex (fun q => String.eqb (id q) (id it)) rest).
Proof.
  induction done as [|d done IH]; simpl; intros Hn.
  - now destruct (findIndex _ rest).
  - destruct (String.eqb_spec (id d) (id it)) as [E|E].
    + exfalso; apply Hn; now left.
    + rewrite IH by (intros H; apply Hn; now right).
      now destruct (findIndex _ rest).
Qed.

Lemma assign_skip {A} (x : A) done n rest :
  assign (List.length done + n) x (done ++ rest) = done ++ assign n x rest.
Proof.
  induction done as [|d done IH]; simpl; [reflexivity|].
  now rewrite IH.
Qed.

Lemma updated_middle it it' done rest :
  id it' = id it ->
  ~ In (id it) (ids done) ->
  updated it' (done ++ it :: rest) = done ++ it' :: rest.
Proof.
  intros E Hn. unfold updated. rewrite E.
  rewrite findIndex_skip by exact Hn. simpl.
  rewrite String.eqb_refl. simpl. now rewrite assign_skip.
Qed.

Lemma settle_ids cb max it :
  forall q, In q (settle cb max it) -> id q = id it.
Proof.
  unfold settle. destruct (verdict max cb it); simpl; intros q H;
    try contradiction.
  destruct H as [<-|[]]. reflexivity.
Qed.

Lemma ids_settle cb max it i :
  In i (ids (settle cb max it)) -> i = id it.
Proof.
  unfold ids. rewrite in_map_iff. intros (q & <- & Hq).
  eapply settle_ids; eassumption.
Qed.

Lemma store_after_middle cb max it done rest :
  NoDup (ids (done ++ it :: rest)) ->
  store_after (verdict max cb it) it (done ++ it :: rest) =
  done ++ settle cb max it ++ rest.
Proof.
  intros Hnd. unfold ids in Hnd. rewrite map_app in Hnd. simpl in Hnd.
  pose proof (NoDup_remove_2 _ _ _ Hnd) as Hnot.
  assert (Hd : ~ In (id it) (ids done))
    by (intros H; apply Hnot; apply in_or_app; now left).
  assert (Hrst : ~ In (id it) (ids rest))
    by (intros H; apply Hnot; apply in_or_app; now right).
  unfold settle, store_after.
  destruct (verdict max cb it); simpl.
  - rewrite removed_app, removed_here, !removed_absent by assumption.
    reflexivity.
  - rewrite removed_app, removed_here, !removed_absent by assumption.
    reflexivity.
  - now apply updated_middle.
Qed.

(** With unique identifiers a pass treats the records independently. *)
Lemma pass_store_unique cb max rest :
  forall done,
    NoDup (ids (done ++ rest)) ->
    pass_store cb max rest (done ++ rest) =
    done ++ flat_map (settle cb max) rest.
Proof.
  induction rest as [|it rest IH]; intros done Hnd; simpl.
  - reflexivity.
  - rewrite store_after_middle by exact Hnd.
    rewrite app_assoc. rewrite IH; [now rewrite <- app_assoc|].
    unfold ids in *. rewrite !map_app in *. simpl in Hnd.
    rewrite <- app_assoc.
    assert (Hs : map id (settle cb max it) = [] \/
                 map id (settle cb max it) = [id it])
      by (unfold settle; destruct (verdict max cb it); simpl; auto).
    destruct Hs as [-> | ->]; simpl.
    + eapply NoDup_remove_1; exact Hnd.
    + exact Hnd.
Qed.

Lemma pass_store_settles cb max queue :
  NoDup (ids queue) ->
  pass_store cb max queue queue = flat_map (settle cb max) queue.
Proof. intros H. exact (pass_store_unique cb max queue [] H). Qed.

(** Records that are all delivered or evicted leave nothing behind,
    whatever their identifiers. *)
Lemma pass_store_none_failed cb max pending :
  (forall it, In it pending ->
              forall t, verdict max cb it <> Failed t) ->
  forall queue, incl queue pending -> pass_store cb max pending queue = [].
Proof.
  induction pending as [|it rest IH]; intros Hv queue Hincl; simpl.
  - destruct queue as [|q queue]; [reflexivity|].
    destruct (Hincl q); now left.
  - apply IH; [intros x Hx; apply Hv; now right|].
    assert (E : store_after (verdict max cb it) it queue =
                removed (id it) queue).
    { destruct (verdict max cb it) eqn:V; try reflexivity.
      exfalso. eapply (Hv it); [now left|exact V]. }
    rewrite E. intros q Hq. unfold removed in Hq.
    apply filter_In in Hq. destruct Hq as [Hq Hne].
    destruct (Hincl q Hq) as [<-|Hin]; [|exact Hin].
    rewrite String.eqb_refl in Hne. discriminate.
Qed.

Lemma pass_counts_delivered cb max pending :
  (forall it, In it pending -> verdict max cb it = Delivered) ->
  forall c, pass_counts cb max pending c =
            mkCounts (succeeded c + List.length pending) (failed c).
Proof.
  induction pending as [|it rest IH]; intros Hv c; simpl.
  - destruct c; simpl. now rewrite Nat.add_0_r.
  - rewrite (Hv it) by now left. simpl.
    rewrite IH by (intros x Hx; apply Hv; now right). simpl.
    f_equal. lia.
Qed.

Lemma pass_events_delivered cb max pending :
  (forall it, In it pending -> verdict max cb it = Delivered) ->
  pass_events cb max pending =
  flat_map (fun it => [DeliveryCalled it; SubmissionSynced (id it); Pause 100])
           pending.
Proof.
  induction pending as [|it rest IH]; intros Hv; simpl; [reflexivity|].
  rewrite (Hv it) by now left. simpl. do 3 f_equal.
  apply IH. intros x Hx; apply Hv; now right.
Qed.

(** Records on which the delivery function returns [false] add no
    "submission failed" to the events of a pass; a record on which it
    throws adds one, with the detail of the error. *)
Lemma refused_records_raise_no_signal cb max pending :
  (forall r, In r pending -> verdict max cb r = Failed None) ->
  forall i detail,
    ~ In (SubmissionFailed i detail) (pass_events cb max pending).
Proof.
  induction pending as [|r rest IH]; simpl; intros Hv i detail H;
    [exact H|].
  rewrite (Hv r) in H by now left. simpl in H.
  destruct H as [H|[H|H]]; try discriminate.
  apply (IH (fun x Hx => Hv x (or_intror Hx)) i detail H).
Qed.

Lemma thrown_record_raises_signal cb max pending r e :
  In r pending ->
  verdict max cb r = Failed (Some e) ->
  In (SubmissionFailed (id r) (error_detail e)) (pass_events cb max pending).
Proof.
  intros Hin Hv. unfold pass_events. apply in_flat_map.
  exists r. split; [exact Hin|]. rewrite Hv. simpl. auto.
Qed.

Lemma deliveries_app a b : deliveries (a ++ b) = deliveries a ++ deliveries b.
Proof.
  induction a as [|ev a IH]; simpl; [reflexivity|].
  destruct ev; simpl; now rewrite ?IH.
Qed.

Lemma deliveries_all_delivered pending :
  deliveries
    (flat_map (fun it => [DeliveryCalled it; SubmissionSynced (id it); Pause 100])
              pending) = pending.
Proof.
  induction pending as [|it rest IH]; simpl; [reflexivity|].
  now rewrite IH.
Qed.

(* ===================================================================== *)
(** * Scenarios: enqueue, then drain *)
(* ===================================================================== *)

Lemma enqueue_all_reliable items :
  forall w, reliable w ->
    exists w1, enqueue_all items w = (Returned tt, w1) /\
               moves w (pending_of w ++ queued items) [] w1.
Proof.
  induction items as [|p rest IH]; intros w Hr; simpl.
  - exists w; split; [reflexivity|].
    destruct Hr. repeat split; try assumption; now rewrite app_nil_r.
  - unfold bind. rewrite enqueue_reliable by exact Hr.
    set (w0 := on_env _ w).
    assert (Hm0 : moves w (pending_of w ++ [queuedItem (fst p) (snd p)]) [] w0)
      by (apply moves_store; exact Hr).
    destruct (IH w0) as (w1 & He & Hm1); [apply Hm0|].
    exists w1; split; [exact He|].
    replace (pending_of w0) with
      (pending_of w ++ [queuedItem (fst p) (snd p)]) in Hm1 by reflexivity.
    rewrite <- app_assoc in Hm1. simpl in Hm1.
    exact (moves_trans _ _ _ _ _ _ _ Hm0 Hm1).
Qed.

Lemma queued_retryCount items it :
  In it (queued items) -> retryCount it = 0%Z.
Proof.
  unfold queued. rewrite in_map_iff. intros (p & <- & _). reflexivity.
Qed.

(** C6. Round trip: [N] records enqueued on an empty queue, each below the
    retry limit, then one pass with a delivery function that succeeds on
    every record: the pass returns [{succeeded: N, failed: 0}], the
    persisted queue reads empty, and the delivery function was called on
    the records in the order they were enqueued. *)
Theorem drain_after_enqueue_roundtrip
  (items : list (Entropy * QueueItem)) (cb : SyncCallback) (w : World) :
  reliable w ->
  runs (oq w) ->
  syncCallback (oq w) = Some cb ->
  pending_of w = [] ->
  (0 < effectiveMaxRetries (oq w))%Z ->
  (forall it, cb it = Resolved true) ->
  exists w1 w2,
    enqueue_all items w = (Returned tt, w1) /\
    pending_of w1 = queued items /\
    sync w1 = (Returned (mkCounts (List.length items) 0), w2) /\
    pending_of w2 = [] /\
    deliveries (log (env w2)) = deliveries (log (env w)) ++ queued items.
Proof.
  intros Hr Hruns Hcb Hempty Hmax Hok.
  destruct (enqueue_all_reliable items w Hr) as (w1 & He & Hm1).
  rewrite Hempty in Hm1. simpl in Hm1.
  destruct Hm1 as (Ho1 & Hr1 & Hq1 & Hl1).
  assert (Hruns1 : runs (oq w1)) by (rewrite Ho1; exact Hruns).
  assert (Hcb1 : syncCallback (oq w1) = Some cb) by (rewrite Ho1; exact Hcb).
  destruct (sync_reliable cb w1 Hr1 Hruns1 Hcb1) as (w2 & Hs & Hm2).
  cbv zeta in Hs, Hm2. rewrite Ho1, Hq1 in Hs, Hm2.
  assert (Hv : forall it, In it (queued items) ->
                 verdict (effectiveMaxRetries (oq w)) cb it = Delivered).
  { intros it Hin. unfold verdict.
    rewrite (queued_retryCount items it Hin), Hok.
    destruct (Z.leb_spec (effectiveMaxRetries (oq w)) 0); [lia|reflexivity]. }
  rewrite (pass_counts_delivered _ _ _ Hv) in Hs, Hm2. simpl in Hs, Hm2.
  unfold queued in Hs at 1. rewrite length_map in Hs.
  rewrite (pass_events_delivered _ _ _ Hv) in Hm2.
  rewrite pass_store_none_failed in Hm2;
    [|intros it Hin t; rewrite (Hv it Hin); discriminate|apply incl_refl].
  destruct Hm2 as (Ho2 & Hr2 & Hq2 & Hl2).
  exists w1, w2. repeat split; try assumption.
  rewrite Hl2, Hl1, app_nil_r. simpl.
  rewrite !deliveries_app. simpl.
  rewrite deliveries_app, deliveries_all_delivered. simpl.
  now rewrite app_nil_r.
Qed.

Lemma sync_single cb r w :
  reliable w ->
  runs (oq w) ->
  syncCallback (oq w) = Some cb ->
  pending_of w = [r] ->
  let v := verdict (effectiveMaxRetries (oq w)) cb r in
  let c := counted v (mkCounts 0 0) in
  exists w',
    sync w = (Returned c, w') /\
    moves w (settle cb (effectiveMaxRetries (oq w)) r)
          (SyncStart :: events_of v r ++
           [SyncComplete (succeeded c) (failed c)]) w'.
Proof.
  intros Hr Hruns Hcb Hq v c.
  destruct (sync_reliable cb w Hr Hruns Hcb) as (w' & Hs & Hm).
  cbv zeta in Hs, Hm. rewrite Hq in Hs, Hm.
  rewrite pass_store_settles in Hm
    by (simpl; constructor; [intros []|constructor]).
  simpl in Hs, Hm. rewrite !app_nil_r in Hm.
  exists w'; split; assumption.
Qed.

Lemma sync_empty w :
  reliable w ->
  runs (oq w) ->
  pending_of w = [] ->
  exists w',
    sync w = (Returned (mkCounts 0 0), w') /\
    moves w [] [SyncStart; SyncComplete 0 0] w'.
Proof.
  intros Hr Hruns Hq.
  destruct (runs_inv _ Hruns) as (_ & _ & cb & Hcb).
  destruct (sync_reliable cb w Hr Hruns Hcb) as (w' & Hs & Hm).
  cbv zeta in Hs, Hm. rewrite Hq in Hs, Hm.
  exists w'; split; assumption.
Qed.

Lemma verdict_fails cb max r :
  always_fails cb ->
  (retryCount r < max)%Z ->
  exists t, verdict max cb r = Failed t.
Proof.
  intros Hf Hlt. unfold verdict.
  destruct (Z.leb_spec max (retryCount r)); [lia|].
  specialize (Hf r). destruct (cb r) as [[|]|e]; eauto. now destruct Hf.
Qed.

Lemma verdict_evicts cb max r :
  (max <= retryCount r)%Z -> verdict max cb r = Evict.
Proof.
  intros Hle. unfold verdict.
  destruct (Z.leb_spec max (retryCount r)); [reflexivity|lia].
Qed.

(** One pass over a single record below the limit whose delivery fails. *)
Lemma sync_single_fails cb r w :
  reliable w ->
  runs (oq w) ->
  syncCallback (oq w) = Some cb ->
  always_fails cb ->
  pending_of w = [r] ->
  (retryCount r < effectiveMaxRetries (oq w))%Z ->
  fst (sync w) = Returned (mkCounts 0 1) /\
  oq (snd (sync w)) = oq w /\
  reliable (snd (sync w)) /\
  pending_of (snd (sync w)) = [bump r] /\
  deliveries (log (env (snd (sync w)))) = deliveries (log (env w)) ++ [r].
Proof.
  intros Hr Hruns Hcb Hf Hq Hlt.
  destruct (sync_single cb r w Hr Hruns Hcb Hq) as (w' & Hs & Hm).
  cbv zeta in Hs, Hm.
  destruct (verdict_fails cb _ r Hf Hlt) as (t & Hv).
  unfold settle in Hm. rewrite Hv in Hs, Hm. simpl in Hs, Hm.
  rewrite Hs. simpl. destruct Hm as (Ho & Hr' & Hq' & Hl).
  repeat split; try assumption; try apply Hr'.
  rewrite Hl, deliveries_app. now destruct t.
Qed.

(** One pass over a single record that has reached the limit. *)
Lemma sync_single_evicts cb r w :
  reliable w ->
  runs (oq w) ->
  syncCallback (oq w) = Some cb ->
  pending_of w = [r] ->
  (effectiveMaxRetries (oq w) <= retryCount r)%Z ->
  fst (sync w) = Returned (mkCounts 0 1) /\
  oq (snd (sync w)) = oq w /\
  reliable (snd (sync w)) /\
  pending_of (snd (sync w)) = [] /\
  deliveries (log (env (snd (sync w)))) = deliveries (log (env w)).
Proof.
  intros Hr Hruns Hcb Hq Hle.
  destruct (sync_single cb r w Hr Hruns Hcb Hq) as (w' & Hs & Hm).
  cbv zeta in Hs, Hm.
  unfold settle in Hm. rewrite (verdict_evicts cb _ r Hle) in Hs, Hm.
  simpl in Hs, Hm.
  rewrite Hs. simpl. destruct Hm as (Ho & Hr' & Hq' & Hl).
  repeat split; try assumption; try apply Hr'.
  rewrite Hl. rewrite deliveries_app. simpl. now rewrite app_nil_r.
Qed.

Lemma effectiveMaxRetries_3 q :
  maxRetries q = Some 3%Z -> effectiveMaxRetries q = 3%Z.
Proof. unfold effectiveMaxRetries. now intros ->. Qed.

(** C1, as the code has it.  With [maxRetries = 3], one record enqueued on
    an empty queue and a delivery function that always fails: each of the
    first three passes attempts the delivery and returns
    [{succeeded: 0, failed: 1}]; after the third pass the record is still
    queued, with [retryCount = 3]; the fourth pass evicts it without a
    delivery attempt and returns [{succeeded: 0, failed: 1}], leaving the
    queue empty; the fifth pass returns [{succeeded: 0, failed: 0}]. *)
Theorem retry_budget_evicts_on_fourth_pass
  (en : Entropy) (it : QueueItem) (cb : SyncCallback) (w : World) :
  reliable w ->
  runs (oq w) ->
  syncCallback (oq w) = Some cb ->
  maxRetries (oq w) = Some 3%Z ->
  pending_of w = [] ->
  always_fails cb ->
  let r := queuedItem en it in
  let w1 := snd (enqueue en it w) in
  fst (sync w1) = Returned (mkCounts 0 1) /\
  fst (sync (after_syncs 1 w1)) = Returned (mkCounts 0 1) /\
  fst (sync (after_syncs 2 w1)) = Returned (mkCounts 0 1) /\
  pending_of (after_syncs 3 w1) = [bump (bump (bump r))] /\
  deliveries (log (env (after_syncs 3 w1))) =
    deliveries (log (env w)) ++ [r; bump r; bump (bump r)] /\
  fst (sync (after_syncs 3 w1)) = Returned (mkCounts 0 1) /\
  pending_of (after_syncs 4 w1) = [] /\
  deliveries (log (env (after_syncs 4 w1))) =
    deliveries (log (env (after_syncs 3 w1))) /\
  fst (sync (after_syncs 4 w1)) = Returned (mkCounts 0 0) /\
  pending_of (after_syncs 5 w1) = [].
Proof.
  intros Hr Hruns Hcb Hmax Hempty Hf r w1.
  pose proof (effectiveMaxRetries_3 _ Hmax) as Heff.
  assert (H1 : oq w1 = oq w /\ reliable w1 /\ pending_of w1 = [r] /\
               log (env w1) = log (env w)).
  { subst w1. rewrite enqueue_reliable by exact Hr. simpl.
    destruct Hr. repeat split; try assumption.
    unfold pending_of at 1. simpl. now rewrite Hempty. }
  destruct H1 as (Ho1 & Hr1 & Hq1 & Hl1).
  destruct (sync_single_fails cb r w1) as (Ha1 & Ho2 & Hr2 & Hq2 & Hd2);
    try assumption; try (rewrite Ho1; assumption);
    [rewrite Ho1, Heff; simpl; lia|].
  change (snd (sync w1)) with (after_syncs 1 w1) in *.
  rewrite Ho1 in Ho2. rewrite Hl1 in Hd2.
  destruct (sync_single_fails cb (bump r) (after_syncs 1 w1))
    as (Ha2 & Ho3 & Hr3 & Hq3 & Hd3);
    try assumption; try (rewrite Ho2; assumption);
    [rewrite Ho2, Heff; simpl; lia|].
  change (snd (sync (after_syncs 1 w1))) with (after_syncs 2 w1) in *.
  rewrite Ho2 in Ho3. rewrite Hd2 in Hd3.
  destruct (sync_single_fails cb (bump (bump r)) (after_syncs 2 w1))
    as (Ha3 & Ho4 & Hr4 & Hq4 & Hd4);
    try assumption; try (rewrite Ho3; assumption);
    [rewrite Ho3, Heff; simpl; lia|].
  change (snd (sync (after_syncs 2 w1))) with (after_syncs 3 w1) in *.
  rewrite Ho3 in Ho4. rewrite Hd3 in Hd4.
  destruct (sync_single_evicts cb (bump (bump (bump r))) (after_syncs 3 w1))
    as (Ha4 & Ho5 & Hr5 & Hq5 & Hd5);
    try assumption; try (rewrite Ho4; assumption);
    [rewrite Ho4, Heff; simpl; lia|].
  change (snd (sync (after_syncs 3 w1))) with (after_syncs 4 w1) in *.
  rewrite Ho4 in Ho5.
  destruct (sync_empty (after_syncs 4 w1)) as (w6 & Hs6 & Hm6);
    try assumption; try (rewrite Ho5; assumption).
  repeat split; try assumption.
  - rewrite Hd4, <- !app_assoc. reflexivity.
  - now rewrite Hs6.
  - change (after_syncs 5 w1) with (snd (sync (after_syncs 4 w1))).
    rewrite Hs6. apply Hm6.
Qed.

(* ===================================================================== *)
(** * Invariants of computations *)
(* ===================================================================== *)

Section Invariants.

Context {S : Type} (inv : S -> Prop).

Lemma keeps_ret {A} (a : A) : keeps inv (ret a).
Proof. intros s H; exact H. Qed.

Lemma keeps_throw {A} e : keeps inv (@throw S A e).
Proof. intros s H; exact H. Qed.

Lemma keeps_gets {A} (f : S -> A) : keeps inv (gets f).
Proof. intros s H; exact H. Qed.

Lemma keeps_modify (f : S -> S) :
  (forall s, inv s -> inv (f s)) -> keeps inv (modify f).
Proof. intros Hf s H; simpl; auto. Qed.

Lemma keeps_bind {A B} (m : M S A) (k : A -> M S B) :
  keeps inv m -> (forall a, keeps inv (k a)) -> keeps inv (bind m k).
Proof.
  intros Hm Hk s H. unfold bind. specialize (Hm s H).
  destruct (m s) as [[a|e] s']; simpl in *; [now apply Hk|exact Hm].
Qed.

Lemma keeps_try_catch {A} (m : M S A) (h : JsThrown -> M S A) :
  keeps inv m -> (forall e, keeps inv (h e)) -> keeps inv (try_catch m h).
Proof.
  intros Hm Hh s H. unfold try_catch. specialize (Hm s H).
  destruct (m s) as [[a|e] s']; simpl in *; [exact Hm|now apply Hh].
Qed.

Lemma keeps_if {A} (b : bool) (m1 m2 : M S A) :
  keeps inv m1 -> keeps inv m2 -> keeps inv (if b then m1 else m2).
Proof. now destruct b. Qed.

Lemma returns_ret {A} (a : A) : returns inv (ret a).
Proof. intros s _; now exists a. Qed.

Lemma returns_gets {A} (f : S -> A) : returns inv (gets f).
Proof. intros s _; now exists (f s). Qed.

Lemma returns_modify (f : S -> S) : returns inv (modify f).
Proof. intros s _; now exists tt. Qed.

Lemma returns_bind {A B} (m : M S A) (k : A -> M S B) :
  returns inv m -> keeps inv m -> (forall a, returns inv (k a)) ->
  returns inv (bind m k).
Proof.
  intros Hr Hm Hk s H. unfold bind.
  destruct (Hr s H) as (a & Ha). specialize (Hm s H).
  destruct (m s) as [[a'|e] s']; simpl in *; [|discriminate].
  now apply Hk.
Qed.

Lemma returns_try_catch {A} (m : M S A) (h : JsThrown -> M S A) :
  keeps inv m -> (forall e, returns inv (h e)) ->
  returns inv (try_catch m h).
Proof.
  intros Hm Hh s H. unfold try_catch. specialize (Hm s H).
  destruct (m s) as [[a|e] s']; simpl in *; [now exists a|now apply Hh].
Qed.

Lemma returns_if {A} (b : bool) (m1 m2 : M S A) :
  returns inv m1 -> returns inv m2 -> returns inv (if b then m1 else m2).
Proof. now destruct b. Qed.

End Invariants.

Section Frame.

Variable P : World -> Prop.
Hypothesis P_stable : stable P.

Lemma getItem_keeps : keeps P getItem.
Proof.
  intros w H. unfold getItem.
  destruct (next_fault (getFaults (env w))) as [[|] rest]; simpl;
    now apply stable_reads.
Qed.

Lemma setItem_keeps queue : keeps P (setItem queue).
Proof.
  intros w H. unfold setItem.
  pose proof (stable_writes P P_stable w H) as Hw.
  destruct (next_fault (setFaults (env w))) as [[|] rest]; simpl in *;
    [exact Hw|].
  now apply (stable_stores P P_stable _ (Json queue)) in Hw.
Qed.

Lemma getQueue_keeps : keeps P getQueue.
Proof.
  apply keeps_try_catch.
  - apply keeps_bind; [apply getItem_keeps|].
    intros [| |q]; [apply keeps_ret|apply keeps_throw|apply keeps_ret].
  - intros e; apply keeps_ret.
Qed.

Lemma getQueue_returns : returns P getQueue.
Proof.
  apply returns_try_catch.
  - apply keeps_bind; [apply getItem_keeps|].
    intros [| |q]; [apply keeps_ret|apply keeps_throw|apply keeps_ret].
  - intros e; apply returns_ret.
Qed.

Lemma remove_keeps i : keeps P (remove i).
Proof.
  apply keeps_bind; [apply getQueue_keeps|].
  intros q; apply setItem_keeps.
Qed.

Lemma update_keeps it : keeps P (update it).
Proof.
  apply keeps_bind; [apply getQueue_keeps|].
  intros q. destruct (findIndex _ q); [apply setItem_keeps|apply keeps_ret].
Qed.

Lemma emit_keeps ev : keeps P (emit ev).
Proof. apply keeps_modify. intros w; now apply stable_logs. Qed.

Lemma callSyncCallback_keeps it : keeps P (callSyncCallback it).
Proof.
  intros w H. unfold callSyncCallback.
  destruct (syncCallback (oq w)) as [cb|]; [|exact H].
  pose proof (stable_logs P P_stable w (DeliveryCalled it) H).
  now destruct (cb it).
Qed.

Lemma lift_keeps {A} (m : Async A) : keeps P m -> keeps (in_body P) (lift m).
Proof.
  intros Hm [l w] H. unfold lift, in_body in *; simpl in *.
  specialize (Hm w H). now destruct (m w).
Qed.

Lemma on_locals_keeps f : keeps (in_body P) (on_locals f).
Proof. apply keeps_modify. now intros [l w]. Qed.

Lemma iteration_keeps : keeps (in_body P) iteration.
Proof.
  unfold iteration, the_item, incr_failed, incr_succeeded, incr_retryCount.
  repeat first
    [ apply emit_keeps
    | apply remove_keeps
    | apply update_keeps
    | apply callSyncCallback_keeps
    | apply on_locals_keeps
    | apply lift_keeps
    | apply keeps_gets
    | apply keeps_ret
    | apply keeps_if
    | apply keeps_try_catch; [|intros ?]
    | apply keeps_bind; [|intros ?] ].
Qed.

Lemma for_each_keeps pending : keeps (in_loop P) (for_each pending).
Proof.
  induction pending as [|it rest IH]; intros [c w] H; simpl; [exact H|].
  pose proof (iteration_keeps (mkLocals it c, w) H) as Hi.
  destruct (iteration (mkLocals it c, w)) as [[[]|e] [l w']];
    simpl in *; [|exact Hi].
  now apply IH.
Qed.

End Frame.

Lemma stable_oq (q0 : OfflineQueue) : stable (fun w => oq w = q0).
Proof. split; intros; assumption. Qed.

Lemma stable_writes_succeed : stable (fun w => setFaults (env w) = []).
Proof.
  split; intros; simpl; try assumption.
  match goal with H : _ = [] |- _ => now rewrite H end.
Qed.

Ltac frame H :=
  repeat first
    [ apply (emit_keeps _ H)
    | apply (remove_keeps _ H)
    | apply (update_keeps _ H)
    | apply (setItem_keeps _ H)
    | apply (getQueue_keeps _ H)
    | apply (callSyncCallback_keeps _ H)
    | apply on_locals_keeps
    | apply lift_keeps
    | apply keeps_gets
    | apply keeps_ret
    | apply keeps_if
    | apply keeps_try_catch; [|intros ?]
    | apply keeps_bind; [|intros ?] ].

(* ===================================================================== *)
(** * Every completed iteration is counted once *)
(* ===================================================================== *)

Section Triples.

Context {S : Type}.

Lemma spec_bind {A B} pre (m : M S A) mid (k : A -> M S B) post exc :
  spec pre m mid exc -> (forall a, spec (mid a) (k a) post exc) ->
  spec pre (bind m k) post exc.
Proof.
  intros Hm Hk s H. unfold bind. specialize (Hm s H).
  destruct (m s) as [[a|e] s']; [now apply Hk|exact Hm].
Qed.

Lemma spec_try_catch {A} pre (m : M S A) mid (h : JsThrown -> M S A)
  post exc :
  spec pre m post mid -> (forall e, spec (mid e) (h e) post exc) ->
  spec pre (try_catch m h) post exc.
Proof.
  intros Hm Hh s H. unfold try_catch. specialize (Hm s H).
  destruct (m s) as [[a|e] s']; [exact Hm|now apply Hh].
Qed.

Lemma spec_if {A} (b : bool) pre (m1 m2 : M S A) post exc :
  spec pre m1 post exc -> spec pre m2 post exc ->
  spec pre (if b then m1 else m2) post exc.
Proof. now destruct b. Qed.

Lemma spec_gets {A} (f : S -> A) pre exc :
  spec pre (gets f) (fun _ => pre) exc.
Proof. intros s H; exact H. Qed.

End Triples.

(** A call on the store leaves the counters alone, whatever it does. *)
Lemma spec_lift {A} (m : Async A) L :
  spec (on_tally L) (lift m) (fun _ => on_tally L) (fun _ => on_tally L).
Proof.
  intros [l w] H. unfold lift; simpl. now destruct (m w) as [[a|e] w'].
Qed.

Lemma spec_lift_emit ev L exc :
  spec (on_tally L) (lift (emit ev)) (fun _ => on_tally L) exc.
Proof. intros [l w] H. exact H. Qed.

Lemma spec_lift_gets {A} (f : World -> A) L exc :
  spec (on_tally L) (lift (gets f)) (fun _ => on_tally L) exc.
Proof. intros [l w] H. exact H. Qed.

Lemma spec_on_locals f (L L' : Counts -> Prop) exc :
  (forall l, L (tally l) -> L' (tally (f l))) ->
  spec (on_tally L) (on_locals f) (fun _ => on_tally L') exc.
Proof. intros Hf [l w] H. simpl. now apply Hf. Qed.

(** An iteration that completes has raised exactly one of the two
    counters by one; an iteration that throws has raised none. *)
Lemma iteration_counts c :
  spec (on_tally (eq c)) iteration
       (fun _ => on_tally (fun c' => total c' = Datatypes.S (total c)))
       (fun _ => on_tally (eq c)).
Proof.
  unfold iteration, the_item, incr_failed, incr_succeeded, incr_retryCount.
  eapply spec_bind; [apply spec_gets|intros it].
  eapply spec_bind; [apply spec_lift_gets|intros max].
  apply spec_if.
  - eapply spec_bind; [apply spec_lift_emit|intros ?].
    eapply spec_bind; [apply spec_lift|intros ?].
    apply spec_on_locals. intros l <-. unfold total; simpl; lia.
  - eapply spec_bind; [|intros ?; apply spec_lift_emit].
    eapply spec_try_catch.
    + eapply spec_bind; [apply spec_lift|intros ok].
      apply spec_if.
      * eapply spec_bind; [apply spec_lift|intros ?].
        eapply spec_bind; [apply spec_lift_emit|intros ?].
        apply spec_on_locals. intros l <-. unfold total; simpl; lia.
      * eapply spec_bind; [apply spec_on_locals; intros l H; exact H|intros ?].
        eapply spec_bind; [apply spec_gets|intros it'].
        eapply spec_bind; [apply spec_lift|intros ?].
        apply spec_on_locals. intros l <-. unfold total; simpl; lia.
    + intros e.
      eapply spec_bind; [apply spec_on_locals; intros l H; exact H|intros ?].
      eapply spec_bind; [apply spec_gets|intros it'].
      eapply spec_bind; [apply spec_lift|intros ?].
      eapply spec_bind; [apply spec_lift_emit|intros ?].
      apply spec_on_locals. intros l <-. unfold total; simpl; lia.
Qed.

(** A loop that completes has counted every record of the snapshot; a loop
    that throws has counted the records before the one it threw on. *)
Lemma for_each_counts pending :
  forall c w r c' w',
    for_each pending (c, w) = (r, (c', w')) ->
    match r with
    | Returned _ => total c' = (total c + List.length pending)%nat
    | Threw _ => exists k, (k < List.length pending)%nat /\
                           total c' = (total c + k)%nat
    end.
Proof.
  induction pending as [|it rest IH]; intros c w r c' w' H; simpl in H.
  - injection H as <- <- <-. simpl. lia.
  - pose proof (iteration_counts c (mkLocals it c, w) eq_refl) as Hi.
    destruct (iteration (mkLocals it c, w)) as [[[]|e] [l w1]];
      unfold on_tally in Hi; simpl in Hi.
    + apply IH in H. destruct r as [a|e].
      * simpl. lia.
      * destruct H as (k & Hk & Hc). exists (Datatypes.S k). simpl. split; lia.
    + injection H as <- <- <-. exists 0%nat. simpl. rewrite <- Hi. split; lia.
Qed.

(* ===================================================================== *)
(** * When every storage write succeeds, a pass returns *)
(* ===================================================================== *)

Lemma setItem_returns queue : returns writes_succeed (setItem queue).
Proof.
  intros w H. unfold setItem, writes_succeed in *. rewrite H. simpl.
  now exists tt.
Qed.

Lemma remove_returns i : returns writes_succeed (remove i).
Proof.
  apply returns_bind.
  - apply getQueue_returns, stable_writes_succeed.
  - apply getQueue_keeps, stable_writes_succeed.
  - intros q. apply setItem_returns.
Qed.

Lemma update_returns it : returns writes_succeed (update it).
Proof.
  apply returns_bind.
  - apply getQueue_returns, stable_writes_succeed.
  - apply getQueue_keeps, stable_writes_succeed.
  - intros q. destruct (findIndex _ q);
      [apply setItem_returns|apply returns_ret].
Qed.

Lemma lift_returns {A} (P : World -> Prop) (m : Async A) :
  returns P m -> returns (in_body P) (lift m).
Proof.
  intros Hm [l w] H. unfold lift, in_body in *; simpl in *.
  destruct (Hm w H) as (a & Ha). destruct (m w) as [r w']; simpl in *.
  now exists a.
Qed.

Lemma iteration_returns : returns (in_body writes_succeed) iteration.
Proof.
  unfold iteration, the_item, incr_failed, incr_succeeded, incr_retryCount,
    on_locals, emit.
  repeat first
    [ apply returns_ret
    | apply returns_gets
    | apply returns_modify
    | apply returns_if
    | apply lift_returns
    | apply remove_returns
    | apply update_returns
    | apply returns_try_catch; [|intros ?]
    | apply returns_bind; [| |intros ?] ];
  fold (emit (Pause 100));
  try (fold (on_locals (fun l => mkLocals (bump (item l)) (tally l))));
  frame stable_writes_succeed;
  try (apply keeps_modify; now intros [l w]).
Qed.

Lemma for_each_returns pending :
  returns (in_loop writes_succeed) (for_each pending).
Proof.
  induction pending as [|it rest IH]; intros [c w] H; simpl.
  - now exists tt.
  - destruct (iteration_returns (mkLocals it c, w) H) as ([] & Hi).
    pose proof (iteration_keeps _ stable_writes_succeed
                  (mkLocals it c, w) H) as Hk.
    destruct (iteration (mkLocals it c, w)) as [[[]|e] [l w']];
      simpl in *; [|discriminate].
    now apply IH.
Qed.

(** While a pass runs, the fields of the queue object do not change. *)
Lemma for_each_oq pending c w r c' w' :
  for_each pending (c, w) = (r, (c', w')) -> oq w' = oq w.
Proof.
  intros H.
  pose proof (for_each_keeps _ (stable_oq (oq w)) pending (c, w) eq_refl) as K.
  rewrite H in K. exact K.
Qed.

Lemma getQueue_oq w : oq (snd (getQueue w)) = oq w.
Proof. exact (getQueue_keeps _ (stable_oq (oq w)) w eq_refl). Qed.

(** Whether it returns or throws, a pass that ran has released the
    in-progress flag and has signalled its completion last. *)
Lemma sync_always_finishes w r w' :
  runs (oq w) ->
  sync w = (r, w') ->
  oq w' = oq w /\
  exists s f, log (env w') = removelast (log (env w')) ++ [SyncComplete s f].
Proof.
  intros Hruns H. destruct (runs_inv _ Hruns) as (_ & Hflag & _).
  unfold sync in H. rewrite Hruns in H.
  unfold try_finally, drain, getPending in H. simpl fst in H; simpl snd in H.
  set (w1 := on_env (add_event SyncStart)
                    (on_oq (set_syncInProgress true) w)) in *.
  pose proof (getQueue_oq w1) as Hq.
  destruct (getQueue w1) as [[q|e] w2]; simpl in *.
  - destruct (for_each q (mkCounts 0 0, w2)) as [r0 [c w3]] eqn:Hf.
    apply for_each_oq in Hf. simpl in H.
    assert (Ho : set_syncInProgress false (oq w3) = oq w)
      by (rewrite Hf, Hq; now apply unflag).
    destruct r0; injection H as <- <-; simpl; (split; [exact Ho|]);
      exists (succeeded c), (failed c); now rewrite removelast_last.
  - simpl in H.
    assert (Ho : set_syncInProgress false (oq w2) = oq w)
      by (rewrite Hq; now apply unflag).
    injection H as <- <-; simpl. split; [exact Ho|].
    exists 0%nat, 0%nat. now rewrite removelast_last.
Qed.

(** Where [sync()] does return.  When every storage write succeeds,
    [sync()] returns its counters and throws nothing, whatever the delivery function
    does on each record (resolve, or throw) and whatever the storage reads
    do (reject, or yield unparseable text).  When the pass is not skipped,
    every record of its snapshot is counted once, as succeeded or as
    failed, and the queue object is as before the pass, its in-progress
    flag released. *)
Theorem sync_returns_when_writes_succeed (w : World) :
  setFaults (env w) = [] ->
  exists c w',
    sync w = (Returned c, w') /\
    (runs (oq w) ->
     oq w' = oq w /\
     exists pending,
       pass_snapshot w = Returned pending /\
       (succeeded c + failed c)%nat = List.length pending).
Proof.
  intros Hw. unfold sync, runs.
  destruct (skips (oq w)) eqn:Hskip;
    [exists (mkCounts 0 0), w; split; [reflexivity|discriminate]|].
  destruct (runs_inv _ Hskip) as (_ & Hflag & _).
  unfold pass_snapshot.
  set (w1 := on_env (add_event SyncStart) (on_oq (set_syncInProgress true) w)).
  assert (H1 : writes_succeed w1) by exact Hw.
  unfold try_finally, drain, getPending. simpl fst; simpl snd.
  destruct (getQueue_returns _ stable_writes_succeed w1 H1) as (q & Hq).
  pose proof (getQueue_keeps _ stable_writes_succeed w1 H1) as Hk.
  pose proof (getQueue_oq w1) as Ho.
  destruct (getQueue w1) as [[q'|e] w2]; simpl in *; [|discriminate].
  destruct (for_each_returns q' (mkCounts 0 0, w2) Hk) as ([] & Hf).
  destruct (for_each q' (mkCounts 0 0, w2)) as [[[]|e] [c w3]] eqn:Hloop;
    simpl in *; [|discriminate].
  exists c. eexists. split; [reflexivity|]. intros _. simpl. split.
  - apply for_each_oq in Hloop. rewrite Hloop, Ho. now apply unflag.
  - exists q'. split; [reflexivity|].
    apply for_each_counts in Hloop. exact Hloop.
Qed.

Lemma for_each_app done rest s :
  for_each (done ++ rest) s =
  match for_each done s with
  | (Returned _, s') => for_each rest s'
  | (Threw e, s') => (Threw e, s')
  end.
Proof.
  revert s. induction done as [|it done IH]; intros s; simpl.
  - reflexivity.
  - destruct (iteration (mkLocals it (fst s), snd s)) as [[[]|e] [l w']].
    + apply IH.
    + reflexivity.
Qed.

Lemma skips_true q :
  isConnected q = false \/ syncInProgress q = true \/ syncCallback q = None ->
  skips q = true.
Proof.
  unfold skips. intros [H|[H|H]]; rewrite H; simpl.
  - reflexivity.
  - now destruct (isConnected q).
  - now destruct (isConnected q), (syncInProgress q).
Qed.

(** C5. The guard of [sync()].  Offline, during another pass, or without a
    delivery function, [sync()] returns [{succeeded: 0, failed: 0}] and
    leaves the world as it was: no delivery call, no callback, no write.
    In particular, in every world that a running pass reaches between two
    records of its snapshot, a second [sync()] is such a no-op, so that it
    processes no record. *)
Theorem sync_guard_is_noop (w : World) :
  (isConnected (oq w) = false \/ syncInProgress (oq w) = true \/
   syncCallback (oq w) = None ->
   sync w = (Returned (mkCounts 0 0), w)) /\
  (runs (oq w) ->
   forall done rest r c wm,
     pass_snapshot w = Returned (done ++ rest) ->
     for_each done (mkCounts 0 0, pass_entry w) = (r, (c, wm)) ->
     sync wm = (Returned (mkCounts 0 0), wm)).
Proof.
  split.
  - intros H. unfold sync. now rewrite (skips_true _ H).
  - intros _ done rest r c wm _ Hloop.
    apply for_each_oq in Hloop.
    unfold pass_entry, getPending in Hloop. rewrite getQueue_oq in Hloop.
    unfold sync. rewrite skips_true; [reflexivity|].
    right; left. now rewrite Hloop.
Qed.

Lemma sync_is_loop w pending :
  runs (oq w) ->
  pass_snapshot w = Returned pending ->
  sync w =
  (let (r, s) := for_each pending (mkCounts 0 0, pass_entry w) in
   match r with
   | Returned _ => (Returned (fst (finish s)), snd (finish s))
   | Threw e => (Threw e, snd (finish s))
   end).
Proof.
  intros Hruns Hsnap. unfold sync. rewrite Hruns.
  unfold try_finally, drain, pass_snapshot, pass_entry in *.
  simpl fst; simpl snd.
  destruct (getPending _) as [r0 w0]. simpl in Hsnap. subst r0. simpl.
  now destruct (for_each pending (mkCounts 0 0, w0)) as [r s].
Qed.

Lemma in_settled cb max queue r' :
  In r' (flat_map (settle cb max) queue) <->
  exists r t, In r queue /\ verdict max cb r = Failed t /\ r' = bump r.
Proof.
  rewrite in_flat_map. split.
  - intros (r & Hin & Hs). unfold settle in Hs.
    destruct (verdict max cb r) eqn:V; simpl in Hs; try contradiction.
    destruct Hs as [<-|[]]. now exists r, thrown.
  - intros (r & t & Hin & V & ->). exists r; split; [exact Hin|].
    unfold settle. rewrite V. now left.
Qed.

Lemma settled_ids_unique cb max queue :
  NoDup (ids queue) -> NoDup (ids (flat_map (settle cb max) queue)).
Proof.
  unfold ids. induction queue as [|q rest IH]; simpl; intros Hnd.
  - constructor.
  - inversion Hnd as [|x l Hnot Hrest]; subst.
    rewrite map_app. unfold settle at 1.
    destruct (verdict max cb q); simpl; try (now apply IH).
    constructor; [|now apply IH].
    intros Hin. apply Hnot.
    rewrite in_map_iff in Hin. destruct Hin as (r' & E & Hr').
    apply in_settled in Hr'. destruct Hr' as (r & t & Hr & _ & ->).
    rewrite in_map_iff. exists r. split; [exact E|exact Hr].
Qed.

Lemma unique_by_id queue r1 r2 :
  NoDup (ids queue) -> In r1 queue -> In r2 queue -> id r1 = id r2 ->
  r1 = r2.
Proof.
  unfold ids. induction queue as [|q rest IH]; simpl; intros Hnd H1 H2 E.
  - contradiction.
  - inversion Hnd as [|x l Hnot Hrest]; subst.
    destruct H1 as [<-|H1], H2 as [<-|H2]; try reflexivity.
    + exfalso; apply Hnot. rewrite E. now apply in_map.
    + exfalso; apply Hnot. rewrite <- E. now apply in_map.
    + now apply IH.
Qed.

(* ===================================================================== *)
(** * The identifiers that [enqueue] generates *)
(* ===================================================================== *)

Lemma digits_uint d : digits (NilEmpty.string_of_uint d).
Proof.
  unfold digits. induction d; simpl; constructor; auto.
Qed.

Lemma digits_nilzero d :
  digits (NilZero.string_of_uint d) /\ NilZero.string_of_uint d <> "".
Proof.
  split.
  - destruct d; try apply digits_uint. repeat constructor.
  - destruct d; discriminate.
Qed.

(** A numeral ends where the first character that is no digit stands. *)
Lemma digits_split a : forall b s1 s2,
  digits a -> digits b ->
  (a ++ "-" ++ s1 = b ++ "-" ++ s2)%string -> a = b /\ s1 = s2.
Proof.
  unfold digits.
  induction a as [|c a IH]; intros [|c' b] s1 s2 Ha Hb E; simpl in *.
  - injection E as ->. now split.
  - injection E as <- _. inversion Hb as [|? ? Hc _]. discriminate Hc.
  - injection E as -> _. inversion Ha as [|? ? Hc _]. discriminate Hc.
  - injection E as -> E. inversion Ha; inversion Hb; subst.
    destruct (IH b s1 s2) as [-> ->]; auto.
Qed.

Lemma string_of_Z_split n1 n2 s1 s2 :
  (string_of_Z n1 ++ "-" ++ s1 = string_of_Z n2 ++ "-" ++ s2)%string ->
  string_of_Z n1 = string_of_Z n2 /\ s1 = s2.
Proof.
  unfold string_of_Z, NilZero.string_of_int.
  destruct (Z.to_int n1) as [d1|d1], (Z.to_int n2) as [d2|d2];
    destruct (digits_nilzero d1) as [H1 N1], (digits_nilzero d2) as [H2 N2];
    intros E.
  - now apply digits_split.
  - exfalso. destruct (NilZero.string_of_uint d1) as [|c r]; [easy|].
    simpl in E. injection E as -> _.
    inversion H1 as [|? ? Hc _]. discriminate Hc.
  - exfalso. destruct (NilZero.string_of_uint d2) as [|c r]; [easy|].
    simpl in E. injection E as <- _.
    inversion H2 as [|? ? Hc _]. discriminate Hc.
  - simpl in E. injection E as E.
    destruct (digits_split _ _ _ _ H1 H2 E) as [-> ->]. now split.
Qed.

Lemma to_int_not_nil z :
  Z.to_int z <> Decimal.Pos Decimal.Nil /\
  Z.to_int z <> Decimal.Neg Decimal.Nil.
Proof.
  destruct z as [|p|p]; simpl; split; try discriminate;
    intros [= H]; now apply DecimalPos.Unsigned.to_uint_nonnil in H.
Qed.

Lemma string_of_Z_injective n1 n2 :
  string_of_Z n1 = string_of_Z n2 -> n1 = n2.
Proof.
  unfold string_of_Z. intros E.
  apply DecimalZ.to_int_inj.
  destruct (to_int_not_nil n1) as [A1 B1], (to_int_not_nil n2) as [A2 B2].
  pose proof (NilZero.isi _ A1 B1) as I1.
  pose proof (NilZero.isi _ A2 B2) as I2.
  rewrite E in I1. congruence.
Qed.

(** Two [enqueue] calls generate the same identifier exactly when they
    read the same clock value and draw the same suffix. *)
Lemma fresh_id_injective en1 en2 :
  fresh_id en1 = fresh_id en2 <-> stamp en1 = stamp en2.
Proof.
  unfold fresh_id, stamp. split.
  - intros E. apply string_of_Z_split in E. destruct E as [E ->].
    now rewrite (string_of_Z_injective _ _ E).
  - now intros [= -> ->].
Qed.

Lemma minted_ids_distinct ens queue :
  minted ens queue -> NoDup (map stamp ens) -> NoDup (ids queue).
Proof.
  unfold minted. intros ->. induction ens as [|en ens IH]; simpl;
    intros H; inversion H as [|? ? Hin Hnd]; subst; constructor.
  - rewrite in_map_iff. intros (en' & E & Hin').
    apply fresh_id_injective in E. apply Hin. rewrite in_map_iff.
    now exists en'.
  - now apply IH.
Qed.

(** On reliable storage, [enqueue] keeps the identifiers of the queue
    pairwise distinct whenever the clock reading or the suffix it draws
    differs from those of every queued record. *)
Lemma enqueue_mints_a_new_identifier ens en it w :
  reliable w ->
  minted ens (pending_of w) ->
  NoDup (map stamp (ens ++ [en])) ->
  let w' := snd (enqueue en it w) in
  minted (ens ++ [en]) (pending_of w') /\
  NoDup (ids (pending_of w')) /\
  ~ In (fresh_id en) (ids (pending_of w)).
Proof.
  intros Hr Hm Hnd w'.
  assert (Hq : pending_of w' = pending_of w ++ [queuedItem en it])
    by (subst w'; now rewrite enqueue_reliable).
  assert (Hm' : minted (ens ++ [en]) (pending_of w')).
  { unfold minted, ids in *. now rewrite Hq, !map_app, Hm. }
  split; [exact Hm'|]. split; [now apply (minted_ids_distinct _ _ Hm')|].
  rewrite Hm, in_map_iff. intros (en' & E & Hin).
  apply fresh_id_injective in E.
  rewrite map_app in Hnd. simpl in Hnd.
  apply NoDup_remove_2 in Hnd. apply Hnd. rewrite app_nil_r.
  rewrite in_map_iff. now exists en'.
Qed.

(** Two [enqueue] calls that read the same clock value and draw the same
    suffix give two records one identifier.  A pass whose deliveries fail
    then writes both raised counters to the first of the two: the first
    record is overwritten by the second, and the counter of the second
    stays as it was. *)
Example reused_identifier_overwrites_the_other_record :
  let first := mkItem demo_submission None in
  let second := mkItem demo_submission (Some "file:///shot.png") in
  let w := snd (enqueue demo_entropy second
                  (snd (enqueue demo_entropy first
                          (demo_world refuses NoItem)))) in
  pending_of w =
    [queuedItem demo_entropy first; queuedItem demo_entropy second] /\
  id (queuedItem demo_entropy first) = id (queuedItem demo_entropy second) /\
  pending_of (snd (sync w)) =
    [bump (queuedItem demo_entropy second); queuedItem demo_entropy second].
Proof. repeat split; vm_compute; reflexivity. Qed.

(** Where the retry counter does step by one: on reliable storage, for
    a queue whose records [enqueue] created from pairwise distinct pairs of
    clock reading and suffix, the new record's pair being distinct from
    theirs.  [enqueue] appends a record with [retryCount = 0] under the
    generated identifier and leaves the queued records as they are.  A pass
    leaves in the queue exactly the records whose delivery failed, each
    with its [retryCount] raised by exactly 1 and nothing else changed, so
    that no counter decreases and no identifier changes; identifiers stay
    pairwise distinct through both operations. *)
Theorem retryCount_steps_by_one
  (ens : list Entropy) (en : Entropy) (it : QueueItem) (cb : SyncCallback)
  (w : World) :
  reliable w ->
  runs (oq w) ->
  syncCallback (oq w) = Some cb ->
  minted ens (pending_of w) ->
  NoDup (map stamp (ens ++ [en])) ->
  let max := effectiveMaxRetries (oq w) in
  let w1 := snd (enqueue en it w) in
  let w2 := snd (sync w) in
  (* enqueue *)
  fst (enqueue en it w) = Returned (fresh_id en) /\
  pending_of w1 = pending_of w ++ [queuedItem en it] /\
  retryCount (queuedItem en it) = 0%Z /\
  id (queuedItem en it) = fresh_id en /\
  NoDup (ids (pending_of w1)) /\
  (* one pass *)
  (forall r, In r (pending_of w) ->
             (retryCount r < max)%Z -> cb r <> Resolved true ->
             In (bump r) (pending_of w2) /\
             forall r', In r' (pending_of w2) -> id r' = id r ->
                        retryCount r' = (retryCount r + 1)%Z) /\
  (forall r', In r' (pending_of w2) ->
              exists r, In r (pending_of w) /\
                        id r' = id r /\
                        submission r' = submission r /\
                        screenshotUri r' = screenshotUri r /\
                        createdAt r' = createdAt r /\
                        retryCount r' = (retryCount r + 1)%Z) /\
  NoDup (ids (pending_of w2)).
Proof.
  intros Hr Hruns Hcb Hminted Hstamps max w1 w2.
  assert (Hnd : NoDup (ids (pending_of w))).
  { apply (minted_ids_distinct ens); [exact Hminted|].
    rewrite map_app in Hstamps. now apply NoDup_app_remove_r in Hstamps. }
  assert (Hfresh : ~ In (fresh_id en) (ids (pending_of w)))
    by apply (enqueue_mints_a_new_identifier ens en it w Hr Hminted Hstamps).
  destruct (sync_reliable cb w Hr Hruns Hcb) as (w' & Hs & Hm).
  cbv zeta in Hs, Hm. fold max in Hs, Hm.
  rewrite pass_store_settles in Hm by exact Hnd.
  assert (Hq2 : pending_of w2 = flat_map (settle cb max) (pending_of w))
    by (subst w2; rewrite Hs; apply Hm).
  assert (Hq1 : pending_of w1 = pending_of w ++ [queuedItem en it])
    by (subst w1; now rewrite enqueue_reliable).
  split; [now rewrite enqueue_reliable|].
  split; [exact Hq1|].
  split; [reflexivity|]. split; [reflexivity|].
  split.
  { rewrite Hq1. unfold ids in *. rewrite map_app. simpl.
    apply NoDup_app; [exact Hnd|constructor; [intros []|constructor]|].
    intros x Hx [<-|[]]. now apply Hfresh. }
  split; [|split].
  - intros r Hin Hlt Hfail.
    assert (V : exists t, verdict max cb r = Failed t).
    { unfold verdict. destruct (Z.leb_spec max (retryCount r)); [lia|].
      destruct (cb r) as [[|]|e]; eauto. now destruct Hfail. }
    destruct V as (t & V). rewrite Hq2. split.
    + apply in_settled. now exists r, t.
    + intros r' Hin' E. apply in_settled in Hin'.
      destruct Hin' as (r0 & t0 & Hin0 & _ & ->).
      now rewrite (unique_by_id _ r0 r Hnd Hin0 Hin E).
  - intros r' Hin'. rewrite Hq2 in Hin'. apply in_settled in Hin'.
    destruct Hin' as (r & t & Hin & _ & ->).
    exists r. now repeat split.
  - rewrite Hq2. now apply settled_ids_unique.
Qed.

(* ===================================================================== *)
(** * The passes at concrete inputs *)
(* ===================================================================== *)

(** C1, counterexample: with a delivery function that returns [false], the
    record is still queued after the third pass (with [retryCount = 3]),
    and the fourth call reports one failure. *)
Lemma third_pass_keeps_the_record :
  let w1 := snd (enqueue demo_entropy demo_item (demo_world refuses NoItem)) in
  pending_of (after_syncs 3 w1) = [bump (bump (bump demo_record))] /\
  fst (sync (after_syncs 3 w1)) = Returned (mkCounts 0 1) /\
  ~ evicted_by_third_pass w1.
Proof.
  split; [vm_compute; reflexivity|].
  split; [vm_compute; reflexivity|].
  intros [H _]. vm_compute in H. discriminate.
Qed.

Lemma retry_budget_evicts_on_fourth_pass_witness :
  let r := demo_record in
  let w1 := snd (enqueue demo_entropy demo_item (demo_world breaks NoItem)) in
  fst (sync w1) = Returned (mkCounts 0 1) /\
  fst (sync (after_syncs 1 w1)) = Returned (mkCounts 0 1) /\
  fst (sync (after_syncs 2 w1)) = Returned (mkCounts 0 1) /\
  pending_of (after_syncs 3 w1) = [bump (bump (bump r))] /\
  deliveries (log (env (after_syncs 3 w1))) =
    deliveries [] ++ [r; bump r; bump (bump r)] /\
  fst (sync (after_syncs 3 w1)) = Returned (mkCounts 0 1) /\
  pending_of (after_syncs 4 w1) = [] /\
  deliveries (log (env (after_syncs 4 w1))) =
    deliveries (log (env (after_syncs 3 w1))) /\
  fst (sync (after_syncs 4 w1)) = Returned (mkCounts 0 0) /\
  pending_of (after_syncs 5 w1) = [].
Proof.
  apply (retry_budget_evicts_on_fourth_pass demo_entropy demo_item breaks
           (demo_world breaks NoItem)).
  - split; reflexivity.
  - reflexivity.
  - reflexivity.
  - reflexivity.
  - reflexivity.
  - intros it; discriminate.
Defined.

Lemma drain_after_enqueue_roundtrip_witness :
  let items := [(demo_entropy, demo_item); (other_entropy, demo_item)] in
  exists w1 w2,
    enqueue_all items (demo_world accepts NoItem) = (Returned tt, w1) /\
    pending_of w1 = queued items /\
    sync w1 = (Returned (mkCounts 2 0), w2) /\
    pending_of w2 = [] /\
    deliveries (log (env w2)) = deliveries [] ++ queued items.
Proof.
  apply (drain_after_enqueue_roundtrip
           [(demo_entropy, demo_item); (other_entropy, demo_item)] accepts
           (demo_world accepts NoItem)).
  - split; reflexivity.
  - reflexivity.
  - reflexivity.
  - reflexivity.
  - reflexivity.
  - intros it; reflexivity.
Defined.

Lemma sync_returns_when_writes_succeed_witness :
  let w := mkWorld (demo_queue breaks)
             (mkEnv (Json [demo_record]) [false; true] [] false false 0 []) in
  exists c w',
    sync w = (Returned c, w') /\
    (runs (oq w) ->
     oq w' = oq w /\
     exists pending,
       pass_snapshot w = Returned pending /\
       (succeeded c + failed c)%nat = List.length pending).
Proof.
  intros w. apply (sync_returns_when_writes_succeed w). reflexivity.
Defined.

(** C8, at the failing inputs.  A rejected storage write escapes from
    [sync()].  A record that has used up its retries is evicted outside the
    inner [try]: when the write of that eviction is rejected, [sync()]
    throws the storage error, having signalled [onSyncComplete(0, 0)].
    When the delivery function throws, the handler that catches it writes
    the raised counter itself: when that write is rejected, [sync()] throws
    as well.  The same rejected write inside the inner [try], here in the
    removal that follows an accepted delivery, is captured: the pass
    returns its counters and signals "submission failed". *)
Theorem sync_throws_on_rejected_write :
  let evicting :=
    mkEnv (Json [bump (bump (bump demo_record))]) [] [true]
          false false 0 [] in
  let delivering := mkEnv (Json [demo_record]) [] [true] false false 0 [] in
  sync (mkWorld (demo_queue refuses) evicting) =
    (Threw storage_error,
     mkWorld (demo_queue refuses)
       (mkEnv (Json [bump (bump (bump demo_record))]) [] [] false false 0
          [SyncStart;
           SubmissionFailed (id demo_record) "Max retries exceeded";
           SyncComplete 0 0])) /\
  sync (mkWorld (demo_queue breaks) delivering) =
    (Threw storage_error,
     mkWorld (demo_queue breaks)
       (mkEnv (Json [demo_record]) [] [] false false 0
          [SyncStart; DeliveryCalled demo_record; SyncComplete 0 0])) /\
  sync (mkWorld (demo_queue accepts) delivering) =
    (Returned (mkCounts 0 1),
     mkWorld (demo_queue accepts)
       (mkEnv (Json [bump demo_record]) [] [] false false 0
          [SyncStart; DeliveryCalled demo_record;
           SubmissionFailed (id demo_record) "AsyncStorage failure";
           Pause 100; SyncComplete 0 1])).
Proof. repeat split; vm_compute; reflexivity. Qed.

(** C3, at the failing input: one queued record, a delivery function that
    returns [false], and a storage that rejects one write.  The [else]
    branch raises [retryCount] and its write is rejected; the handler meant
    for a throwing delivery function catches the rejection and raises
    [retryCount] again, so that one failed delivery attempt persists
    [retryCount + 2], where the same pass on a storage that accepts the
    write persists [retryCount + 1].  With [maxRetries = 3] the record is
    then evicted after two delivery attempts. *)
Theorem rejected_write_is_counted_again :
  let w := mkWorld (demo_queue refuses)
             (mkEnv (Json [demo_record]) [] [true] false false 0 []) in
  sync w =
    (Returned (mkCounts 0 1),
     mkWorld (demo_queue refuses)
       (mkEnv (Json [bump (bump demo_record)]) [] [] false false 0
          [SyncStart; DeliveryCalled demo_record;
           SubmissionFailed (id demo_record) "AsyncStorage failure";
           Pause 100; SyncComplete 0 1])) /\
  retryCount demo_record = 0%Z /\
  retryCount (bump (bump demo_record)) = 2%Z /\
  pending_of (snd (sync (demo_world refuses (Json [demo_record])))) =
    [bump demo_record] /\
  pending_of (after_syncs 3 w) = [] /\
  deliveries (log (env (after_syncs 3 w))) =
    [demo_record; bump (bump demo_record)].
Proof. repeat split; vm_compute; reflexivity. Qed.

(** C4, at the failing input: one queued record and a delivery function
    that returns [false].  The pass raises and persists [retryCount], keeps
    the record and counts one failure, but signals no "submission failed":
    the events of the pass are the start, the delivery call, the pause and
    the completion.  When the delivery function throws instead, the same
    pass does signal it. *)
Theorem returned_false_is_not_signalled :
  let w := demo_world refuses (Json [demo_record]) in
  let w' := demo_world breaks (Json [demo_record]) in
  sync w =
    (Returned (mkCounts 0 1),
     mkWorld (demo_queue refuses)
       (mkEnv (Json [bump demo_record]) [] [] false false 0
          [SyncStart; DeliveryCalled demo_record; Pause 100;
           SyncComplete 0 1])) /\
  sync w' =
    (Returned (mkCounts 0 1),
     mkWorld (demo_queue breaks)
       (mkEnv (Json [bump demo_record]) [] [] false false 0
          [SyncStart; DeliveryCalled demo_record;
           SubmissionFailed (id demo_record) "Network request failed";
           Pause 100; SyncComplete 0 1])).
Proof. split; vm_compute; reflexivity. Qed.

Lemma retryCount_steps_by_one_witness :
  let w := demo_world refuses (Json [demo_record]) in
  fst (enqueue other_entropy demo_item w) = Returned (fresh_id other_entropy) /\
  In (bump demo_record) (pending_of (snd (sync w))) /\
  NoDup (ids (pending_of (snd (sync w)))).
Proof.
  intros w.
  assert (Hstamps : NoDup (map stamp ([demo_entropy] ++ [other_entropy]))).
  { simpl. constructor; [|constructor; [intros []|constructor]].
    intros [H|[]]. discriminate H. }
  destruct (retryCount_steps_by_one [demo_entropy] other_entropy demo_item
              refuses w (conj eq_refl eq_refl) eq_refl eq_refl eq_refl
              Hstamps)
    as (He & _ & _ & _ & _ & Hstep & _ & Hnd2).
  split; [exact He|]. split; [|exact Hnd2].
  apply (Hstep demo_record); [now left|reflexivity|discriminate].
Defined.

Lemma sync_guard_is_noop_witness :
  let offline := mkWorld (set_isConnected false (demo_queue accepts))
                         (quiet_env (Json [demo_record])) in
  let w := demo_world accepts
             (Json [demo_record; queuedItem other_entropy demo_item]) in
  sync offline = (Returned (mkCounts 0 0), offline) /\
  (let wm := snd (snd (for_each [demo_record] (mkCounts 0 0, pass_entry w))) in
   sync wm = (Returned (mkCounts 0 0), wm)).
Proof.
  intros offline w. split.
  - apply (proj1 (sync_guard_is_noop offline)). left. reflexivity.
  - apply (proj2 (sync_guard_is_noop w) eq_refl [demo_record]
             [queuedItem other_entropy demo_item] (Returned tt)
             (mkCounts 1 0)).
    + reflexivity.
    + vm_compute. reflexivity.
Defined.

(* ===================================================================== *)
(** * Teardown of the connectivity monitor *)
(* ===================================================================== *)

(** Once [destroy()] has run on an initialised queue, the platform no
    longer reaches the two handlers. *)
Lemma listeners_silent_after_destroy w state next :
  unsubscribeNetInfo (oq w) = true ->
  appStateSubscription (oq w) = true ->
  let w' := snd (destroy w) in
  react (NetInfoChanged state) w' = (Returned tt, w') /\
  react (AppStateChanged next) w' = (Returned tt, w').
Proof.
  intros Hn Ha. simpl. rewrite Hn, Ha, !andb_false_r. split; reflexivity.
Qed.

(** C9, at the failing input.  A queue holding one record is initialised
    offline; the network comes back, which schedules the settle timer;
    [destroy()] runs; the timer elapses.  [destroy()] has removed both
    listeners and nothing has been signalled so far, yet the timer task
    runs a whole pass: it signals the start, calls the delivery function,
    removes the record and signals the completion. *)
Theorem pending_timer_fires_after_destroy :
  let w0 := demo_world accepts (Json [demo_record]) in
  let w1 := snd (init (Some false) w0) in
  let w2 := snd (react (NetInfoChanged (Some true)) w1) in
  let w3 := snd (destroy w2) in
  let w4 := snd (react TimerElapsed w3) in
  timers (env w2) = 1%nat /\
  netListener (env w3) = false /\ appListener (env w3) = false /\
  timers (env w3) = 1%nat /\
  log (env w3) = [] /\
  log (env w4) =
    [SyncStart; DeliveryCalled demo_record;
     SubmissionSynced (id demo_record); Pause 100; SyncComplete 1 0] /\
  pending_of w4 = [].
Proof. repeat split; vm_compute; reflexivity. Qed.

(* ===================================================================== *)
(** * The facade *)
(* ===================================================================== *)

(** C10. Without an instance, [submit] returns the "not initialized"
    failure, [getPendingCount] returns 0, [syncOffline] returns
    [{succeeded: 0, failed: 0}] and [isOnline] returns [true]; none of them
    throws, creates an instance or touches the platform. *)
Theorem facade_total_when_uninitialized
  (sur : Surroundings) (feedback : Feedback) (e : Env) :
  let app := mkApp None e in
  Static.submit sur feedback app =
    (Returned (mkResponse false None (Some "FeedbackWidget not initialized")),
     app) /\
  Static.getPendingCount app = (Returned 0%nat, app) /\
  Static.syncOffline app = (Returned (mkCounts 0 0), app) /\
  Static.isOnline app = (Returned true, app).
Proof. repeat split. Qed.

Lemma submitFeedback_offline sur feedback wd e :
  isSubmitting wd = false ->
  isConnected (offlineQueue wd) = false ->
  getFaults e = [] -> setFaults e = [] ->
  let sub :=
    mkSubmission (feedback_type feedback) (feedback_priority feedback)
      (feedback_title feedback) (feedback_description feedback)
      (if truthy (user_name (config wd)) then user_name (config wd) else None)
      (if truthy (user_email (config wd)) then user_email (config wd)
       else None)
      (Some SDK_VERSION) (Some (context_now sur)) in
  let record :=
    queuedItem (entropy sur) (mkItem sub (feedback_screenshotUri feedback)) in
  submitFeedback sur feedback (wd, e) =
  (Returned (mkResponse true
               (Some ("offline-" ++ fresh_id (entropy sur))%string) None),
   (wd,
    set_storage (Json (stored_queue (storage e) ++ [record]))
                (add_event SubmitStart e))).
Proof.
  destruct wd as [cfg t busy [mr cb flag con un ap]].
  destruct e as [st gf sf nl al tm lg]. simpl.
  intros -> -> -> ->.
  unfold submitFeedback, submitFeedback_attempt, try_finally, try_catch, bind,
    queueSubmission, on_queue, notify, modify, gets, getOnlineStatus; simpl.
  unfold try_catch, bind, on_queue; simpl.
  rewrite enqueue_reliable by (split; reflexivity).
  reflexivity.
Qed.

(** C7, as the code has it.  A submission made while the widget is
    offline, when no other submission is in flight on the instance and the
    storage is reliable, returns success with the identifier
    ["offline-" ++ id] of the record it enqueued; the pending count grows by
    exactly 1, and the transport is not called. *)
Theorem offline_submit_is_queued
  (sur : Surroundings) (feedback : Feedback) (wd : FeedbackWidget) (e : Env) :
  isSubmitting wd = false ->
  isConnected (offlineQueue wd) = false ->
  getFaults e = [] ->
  setFaults e = [] ->
  let app := mkApp (Some wd) e in
  let app' := snd (Static.submit sur feedback app) in
  fst (Static.submit sur feedback app) =
    Returned (mkResponse true
                (Some ("offline-" ++ fresh_id (entropy sur))%string) None) /\
  (exists n, fst (Static.getPendingCount app) = Returned n /\
             fst (Static.getPendingCount app') = Returned (S n)) /\
  log (platform app') = log e ++ [SubmitStart].
Proof.
  intros Hbusy Hoff Hg Hs app app'.
  pose proof (submitFeedback_offline sur feedback wd e Hbusy Hoff Hg Hs) as E.
  cbv zeta in E.
  assert (E' : Static.submit sur feedback app =
               (fst (submitFeedback sur feedback (wd, e)),
                mkApp (Some (fst (snd (submitFeedback sur feedback (wd, e)))))
                      (snd (snd (submitFeedback sur feedback (wd, e)))))).
  { unfold Static.submit, app. simpl.
    now destruct (submitFeedback sur feedback (wd, e)). }
  subst app'. rewrite E'. rewrite E. subst app.
  simpl. split; [reflexivity|]. split; [|reflexivity].
  exists (List.length (stored_queue (storage e))).
  unfold Static.getPendingCount, on_instance_queue, on_queue; simpl.
  rewrite !getPendingCount_reliable by (simpl; assumption).
  simpl. split; [reflexivity|].
  unfold pending_of; simpl. rewrite length_app. simpl.
  now rewrite Nat.add_1_r.
Qed.

Lemma offline_submit_is_queued_witness :
  let app := demo_app (replying (Fails (ErrorObj "Network request failed")))
                      false false in
  let app' := snd (Static.submit demo_surroundings demo_feedback app) in
  fst (Static.submit demo_surroundings demo_feedback app) =
    Returned (mkResponse true (Some "offline-1700000000000-k3j9x2a") None) /\
  (exists n, fst (Static.getPendingCount app) = Returned n /\
             fst (Static.getPendingCount app') = Returned (S n)) /\
  log (platform app') = [SubmitStart].
Proof.
  apply (offline_submit_is_queued demo_surroundings demo_feedback
           (mkWidget demo_config
              (replying (Fails (ErrorObj "Network request failed"))) false
              (set_subscriptions true true
                 (set_isConnected false
                    (set_syncCallback
                       (syncQueuedSubmission
                          (replying (Fails (ErrorObj "Network request failed"))))
                       (new_OfflineQueue (Some 3%Z))))))
           (mkEnv NoItem [] [] true true 0 []));
    reflexivity.
Defined.

(** A widget initialised offline on empty storage. *)
Lemma demo_app_is_initialised t :
  Static.init demo_config t (Some false)
              (mkApp None (mkEnv NoItem [] [] false false 0 [])) =
  (Returned tt, demo_app t false false).
Proof. reflexivity. Qed.

(** An idle instance that accepts a submission passes through
    [suspended_in_submit]. *)
Lemma submit_suspends sur feedback wd e :
  isSubmitting wd = false ->
  Static.submit sur feedback (mkApp (Some wd) e) =
  (let (r, s) :=
     submitFeedback_attempt sur feedback
       (set_isSubmitting true wd, add_event SubmitStart e) in
   (r, mkApp (Some (fst s)) (snd s))).
Proof.
  intros H. unfold Static.submit, submitFeedback. simpl. rewrite H.
  reflexivity.
Qed.

(** C7, counterexample: the widget is offline and a first submission is
    suspended in [submit]; a second [submit] made then returns the "already
    in progress" failure and enqueues nothing. *)
Lemma busy_offline_submit_is_rejected :
  let app :=
    suspended_in_submit
      (demo_app (replying (Fails (ErrorObj "Network request failed")))
                false false) in
  fst (Static.isOnline app) = Returned false /\
  Static.submit demo_surroundings demo_feedback app =
    (Returned (mkResponse false None (Some "Submission already in progress")),
     app) /\
  ~ offline_submit_succeeds demo_surroundings demo_feedback app.
Proof.
  split; [reflexivity|]. split; [reflexivity|].
  intros (i & app' & n & H & _). vm_compute in H. discriminate H.
Qed.

(* ===================================================================== *)
(** * Classification of transport failures *)
(* ===================================================================== *)

Lemma lower_char_not_E c : lower_char c <> "E"%char.
Proof.
  destruct c as [[] [] [] [] [] [] [] []]; vm_compute; discriminate.
Qed.

Lemma includes_head s c rest :
  includes s (String c rest) = true -> In c (list_ascii_of_string s).
Proof.
  induction s as [|a s IH]; simpl.
  - discriminate.
  - destruct (ascii_dec c a) as [->|Hne].
    + intros _. now left.
    + simpl. intros H. right. now apply IH.
Qed.

Lemma toLowerCase_chars s c :
  In c (list_ascii_of_string (toLowerCase s)) -> exists c0, c = lower_char c0.
Proof.
  induction s as [|a s IH]; simpl.
  - intros [].
  - intros [<-|H]; [now exists a|now apply IH].
Qed.

(** The fifth marker is written in upper case and searched in lower-cased
    text: it matches no text at all. *)
Lemma econnrefused_never_matches text :
  includes (toLowerCase text) "ECONNREFUSED" = false.
Proof.
  destruct (includes (toLowerCase text) "ECONNREFUSED") eqn:H;
    [|reflexivity].
  apply includes_head, toLowerCase_chars in H. destruct H as (c0 & H).
  symmetry in H. now apply lower_char_not_E in H.
Qed.

(** What [isNetworkError] decides: the text is not empty and its lower-cased
    form contains one of the first four markers. *)
Lemma isNetworkError_markers text :
  isNetworkError (Some text) = true <->
  text <> "" /\
  exists m, In m ["network"; "fetch"; "timeout"; "offline"] /\
            includes (toLowerCase text) m = true.
Proof.
  destruct text as [|a text].
  - simpl. split; [discriminate|]. intros [H _]. now destruct H.
  - unfold isNetworkError, networkErrors.
    set (lower := toLowerCase (String a text)).
    rewrite existsb_exists. split.
    + intros (m & Hin & Hm). split; [discriminate|].
      exists m. split; [|exact Hm].
      simpl in Hin. simpl.
      destruct Hin as [H|[H|[H|[H|[H|[]]]]]]; auto.
      subst m. unfold lower in Hm.
      now rewrite econnrefused_never_matches in Hm.
    + intros (_ & m & Hin & Hm). exists m. split; [|exact Hm].
      simpl in Hin. simpl. tauto.
Qed.

(** The scenario of the specification: "Network request failed", returned
    as an error response or thrown, ends up in the queue. *)
Lemma network_request_failed_is_queued :
  let returned :=
    demo_app (replying (Responds (mkResponse false None
                                    (Some "Network request failed"))))
             true false in
  let thrown :=
    demo_app (replying (Fails (ErrorObj "Network request failed")))
             true false in
  fst (Static.submit demo_surroundings demo_feedback returned) =
    Returned (mkResponse true (Some "offline-1700000000000-k3j9x2a") None) /\
  fst (Static.getPendingCount
         (snd (Static.submit demo_surroundings demo_feedback returned))) =
    Returned 1%nat /\
  fst (Static.submit demo_surroundings demo_feedback thrown) =
    Returned (mkResponse true (Some "offline-1700000000000-k3j9x2a") None) /\
  fst (Static.getPendingCount
         (snd (Static.submit demo_surroundings demo_feedback thrown))) =
    Returned 1%nat.
Proof. repeat split; vm_compute; reflexivity. Qed.

(** A failure without marker is surfaced and not queued. *)
Lemma invalid_title_is_surfaced :
  let app :=
    demo_app (replying (Responds (mkResponse false None
                                    (Some "Invalid title"))))
             true false in
  fst (Static.submit demo_surroundings demo_feedback app) =
    Returned (mkResponse false None (Some "Invalid title")) /\
  storage (platform (snd (Static.submit demo_surroundings demo_feedback app)))
    = NoItem.
Proof. split; vm_compute; reflexivity. Qed.

(** C2, at the failing input: a connection-refused failure, with the text
    "connect ECONNREFUSED 127.0.0.1:443".  [isNetworkError] answers
    [false]; whether the transport returns the failure or throws it,
    [submit] surfaces it to the caller, signals [onSubmitError] and
    enqueues nothing. *)
Theorem connection_refused_is_not_queued :
  let returned :=
    demo_app (replying (Responds (mkResponse false None (Some refused_text))))
             true false in
  let thrown :=
    demo_app (replying (Fails (ErrorObj refused_text))) true false in
  let after_returned :=
    snd (Static.submit demo_surroundings demo_feedback returned) in
  let after_thrown :=
    snd (Static.submit demo_surroundings demo_feedback thrown) in
  isNetworkError (Some refused_text) = false /\
  fst (Static.submit demo_surroundings demo_feedback returned) =
    Returned (mkResponse false None (Some refused_text)) /\
  storage (platform after_returned) = NoItem /\
  In (SubmitError (ErrorObj refused_text)) (log (platform after_returned)) /\
  fst (Static.submit demo_surroundings demo_feedback thrown) =
    Returned (mkResponse false None (Some refused_text)) /\
  storage (platform after_thrown) = NoItem /\
  In (SubmitError (ErrorObj refused_text)) (log (platform after_thrown)).
Proof.
  repeat split; try (vm_compute; reflexivity);
    vm_compute; right; right; left; reflexivity.
Qed.
(* ===================================================================== *)
(** * The store, operation by operation *)
(* ===================================================================== *)

(** X1. [getPendingCount] makes one read and no write.  When the stored
    text is an array of records it returns their number; when the read is
    rejected, when nothing is stored, or when the stored text is not valid
    JSON, it returns 0.  In each of these cases it throws nothing and
    changes nothing but the read it has consumed. *)
Theorem getPendingCount_reads_the_stored_queue (w : World) :
  let rejected := fst (next_fault (getFaults (env w))) in
  let w' :=
    on_env (set_getFaults (snd (next_fault (getFaults (env w))))) w in
  (rejected = true -> getPendingCount w = (Returned 0%nat, w')) /\
  (rejected = false -> storage (env w) = NoItem ->
   getPendingCount w = (Returned 0%nat, w')) /\
  (rejected = false -> storage (env w) = Unparseable ->
   getPendingCount w = (Returned 0%nat, w')) /\
  (forall queue,
     rejected = false -> storage (env w) = Json queue ->
     getPendingCount w = (Returned (List.length queue), w')).
Proof.
  destruct w as [q [st gf sf nl al tm lg]].
  unfold getPendingCount, bind, getQueue, try_catch, bind, getItem; simpl.
  destruct gf as [|[|] gf]; simpl;
    (split; [|split; [|split; [|intros queue]]]);
    first [discriminate | reflexivity | intros _ ->; reflexivity].
Qed.

Lemma getPendingCount_reads_the_stored_queue_witness :
  let w := mkWorld (demo_queue accepts)
             (mkEnv (Json [demo_record; bump demo_record]) [false; true] []
                    false false 0 []) in
  fst (getPendingCount w) = Returned 2%nat /\
  fst (getPendingCount (snd (getPendingCount w))) = Returned 0%nat.
Proof.
  intros w.
  destruct (getPendingCount_reads_the_stored_queue w) as (_ & _ & _ & H).
  rewrite (H _ eq_refl eq_refl). split; [reflexivity|].
  destruct (getPendingCount_reads_the_stored_queue
              (on_env (set_getFaults [true]) w)) as (H' & _).
  change (snd (Returned (List.length [demo_record; bump demo_record]),
               on_env (set_getFaults
                         (snd (next_fault (getFaults (env w))))) w))
    with (on_env (set_getFaults [true]) w).
  now rewrite (H' eq_refl).
Defined.

Lemma removed_ids i queue : ~ In i (ids (removed i queue)).
Proof.
  unfold ids, removed. rewrite in_map_iff. intros (r & E & Hr).
  apply filter_In in Hr. destruct Hr as [_ Hne].
  rewrite E, String.eqb_refl in Hne. discriminate.
Qed.

Lemma removed_others i queue r :
  id r <> i -> (In r (removed i queue) <-> In r queue).
Proof.
  intros Hne. unfold removed. rewrite filter_In.
  apply String.eqb_neq in Hne. rewrite Hne. simpl. tauto.
Qed.

Lemma removed_twice i queue : removed i (removed i queue) = removed i queue.
Proof. apply removed_absent, removed_ids. Qed.

(** X2. [remove(id)] on reliable storage keeps exactly the records with
    another identifier, in their order.  Afterwards no record has the
    identifier; removing an identifier that is not queued leaves the queue
    as it was, and so does removing a second time. *)
Theorem remove_drops_exactly_the_id (i : string) (w : World) :
  reliable w ->
  let w' := snd (remove i w) in
  fst (remove i w) = Returned tt /\
  pending_of w' =
    filter (fun r => negb (String.eqb (id r) i)) (pending_of w) /\
  ~ In i (ids (pending_of w')) /\
  (forall r, id r <> i -> (In r (pending_of w') <-> In r (pending_of w))) /\
  (~ In i (ids (pending_of w)) -> pending_of w' = pending_of w) /\
  pending_of (snd (remove i w')) = pending_of w'.
Proof.
  intros Hr w'. subst w'. rewrite remove_reliable by exact Hr. simpl.
  assert (Hr' : reliable (on_env (set_storage (Json (removed i (pending_of w)))) w))
    by (apply (moves_store w _ Hr)).
  rewrite remove_reliable by exact Hr'.
  unfold pending_of at 1 3 4 5 6 7. simpl.
  split; [reflexivity|]. split; [reflexivity|].
  split; [apply removed_ids|].
  split; [intros r; apply removed_others|].
  split; [apply removed_absent|].
  unfold pending_of. simpl. apply removed_twice.
Qed.

Lemma remove_drops_exactly_the_id_witness :
  let w := demo_world accepts
             (Json [demo_record; queuedItem other_entropy demo_item]) in
  pending_of (snd (remove (id demo_record) w)) =
    [queuedItem other_entropy demo_item].
Proof.
  intros w.
  destruct (remove_drops_exactly_the_id (id demo_record) w
              (conj eq_refl eq_refl)) as (_ & H & _).
  rewrite H. vm_compute. reflexivity.
Defined.

Lemma findIndex_none {A} (p : A -> bool) l :
  findIndex p l = None <-> forall x, In x l -> p x = false.
Proof.
  induction l as [|a l IH]; simpl.
  - split; [intros _ x []|reflexivity].
  - destruct (p a) eqn:E.
    + split; [discriminate|]. intros H. rewrite (H a) in E by now left.
      discriminate.
    + destruct (findIndex p l); simpl.
      * split; [discriminate|]. intros H.
        assert (Hn : Some n = None)
          by (apply IH; intros x Hx; apply H; now right).
        discriminate.
      * split; [|reflexivity]. intros _ x [<-|Hx]; [exact E|].
        now apply (proj1 IH).
Qed.

Lemma findIndex_absent it queue :
  ~ In (id it) (ids queue) ->
  findIndex (fun q => String.eqb (id q) (id it)) queue = None.
Proof.
  intros Hn. apply findIndex_none. intros x Hx. apply String.eqb_neq.
  intros E. apply Hn. unfold ids. rewrite <- E. now apply in_map.
Qed.

Lemma in_ids_split i queue :
  In i (ids queue) ->
  exists done r rest, queue = done ++ r :: rest /\ id r = i /\
                      ~ In i (ids done).
Proof.
  unfold ids. induction queue as [|q queue IH]; simpl; [intros []|].
  intros H. destruct (string_dec (id q) i) as [E|E].
  - exists [], q, queue. repeat split; auto.
  - destruct H as [H|H]; [contradiction|].
    destruct (IH H) as (done & r & rest & -> & Hr & Hd).
    exists (q :: done), r, rest. repeat split; auto.
    simpl. intros [H'|H']; [contradiction|now apply Hd].
Qed.

(** X3. [update(item)] on reliable storage.  When no queued record has the
    identifier of [item], nothing happens at all: no write is made.  When
    one has, the first such record is replaced by [item]: the identifiers
    of the queue and their order are as before, [item] is queued, and every
    record with another identifier is untouched. *)
Theorem update_replaces_in_place (it : QueuedSubmission) (w : World) :
  reliable w ->
  (~ In (id it) (ids (pending_of w)) -> update it w = (Returned tt, w)) /\
  (In (id it) (ids (pending_of w)) ->
   let w' := snd (update it w) in
   fst (update it w) = Returned tt /\
   ids (pending_of w') = ids (pending_of w) /\
   In it (pending_of w') /\
   (forall r, id r <> id it ->
              (In r (pending_of w') <-> In r (pending_of w)))).
Proof.
  intros Hr. split.
  - intros Hn. unfold update, bind.
    rewrite getQueue_reliable by apply Hr.
    now rewrite (findIndex_absent it _ Hn).
  - intros Hin w'.
    destruct (update_reliable it w Hr) as (w1 & Hu & Hm).
    subst w'. rewrite Hu. simpl.
    destruct Hm as (_ & _ & Hq & _). rewrite Hq.
    destruct (in_ids_split _ _ Hin) as (done & r & rest & E & Hid & Hd).
    rewrite E. rewrite (updated_middle r it done rest) by congruence.
    split; [reflexivity|]. split.
    + unfold ids. rewrite !map_app. simpl. now rewrite Hid.
    + split; [apply in_or_app; right; now left|].
      intros x Hx. rewrite !in_app_iff. simpl.
      split; intros [H|[H|H]]; auto; subst x; congruence.
Qed.

Lemma update_replaces_in_place_witness :
  let w := demo_world accepts
             (Json [demo_record; queuedItem other_entropy demo_item]) in
  update (queuedItem demo_entropy demo_item) (demo_world accepts NoItem) =
    (Returned tt, demo_world accepts NoItem) /\
  In (bump demo_record) (pending_of (snd (update (bump demo_record) w))).
Proof.
  intros w. split.
  - apply (proj1 (update_replaces_in_place (queuedItem demo_entropy demo_item)
                    (demo_world accepts NoItem) (conj eq_refl eq_refl))).
    intros [].
  - destruct (proj2 (update_replaces_in_place (bump demo_record) w
                       (conj eq_refl eq_refl))) as (_ & _ & H & _).
    + simpl. left. reflexivity.
    + exact H.
Defined.

(** X4. Round trip on reliable storage: [enqueue] followed by [remove] of
    the identifier it returned gives back the queue as it was, provided the
    identifier was not queued before. *)
Theorem enqueue_then_remove_restores (en : Entropy) (it : QueueItem)
  (w : World) :
  reliable w ->
  ~ In (fresh_id en) (ids (pending_of w)) ->
  exists i w1 w2,
    enqueue en it w = (Returned i, w1) /\
    remove i w1 = (Returned tt, w2) /\
    pending_of w2 = pending_of w.
Proof.
  intros Hr Hfresh.
  rewrite enqueue_reliable by exact Hr.
  eexists _, _, _. split; [reflexivity|].
  rewrite remove_reliable by (apply (moves_store w _ Hr)).
  split; [reflexivity|].
  unfold pending_of at 1 2. simpl.
  rewrite removed_app, removed_absent by exact Hfresh.
  change (fresh_id en) with (id (queuedItem en it)).
  rewrite removed_here. simpl. apply app_nil_r.
Qed.

Lemma enqueue_then_remove_restores_witness :
  exists i w1 w2,
    enqueue other_entropy demo_item
            (demo_world accepts (Json [demo_record])) = (Returned i, w1) /\
    remove i w1 = (Returned tt, w2) /\
    pending_of w2 = [demo_record].
Proof.
  apply (enqueue_then_remove_restores other_entropy demo_item
           (demo_world accepts (Json [demo_record])) (conj eq_refl eq_refl)).
  intros [H|[]]. vm_compute in H. discriminate H.
Defined.

(** X5. A rejected read is taken for an empty queue, also by the operations
    that write the queue back: with the read rejected and the write
    accepted, [enqueue] stores a queue that holds the new record only, and
    [remove] stores an empty queue, whatever was stored before. *)
Theorem rejected_read_drops_the_stored_queue (en : Entropy) (it : QueueItem)
  (i : string) (w : World) (rest : list bool) :
  getFaults (env w) = true :: rest ->
  setFaults (env w) = [] ->
  fst (enqueue en it w) = Returned (fresh_id en) /\
  storage (env (snd (enqueue en it w))) = Json [queuedItem en it] /\
  fst (remove i w) = Returned tt /\
  storage (env (snd (remove i w))) = Json [].
Proof.
  destruct w as [q [st gf sf nl al tm lg]]. simpl. intros -> ->.
  repeat split.
Qed.

Lemma rejected_read_drops_the_stored_queue_witness :
  let w := mkWorld (demo_queue accepts)
             (mkEnv (Json [demo_record]) [true] [] false false 0 []) in
  fst (enqueue other_entropy demo_item w) = Returned (fresh_id other_entropy) /\
  storage (env (snd (enqueue other_entropy demo_item w))) =
    Json [queuedItem other_entropy demo_item] /\
  fst (remove "x" w) = Returned tt /\
  storage (env (snd (remove "x" w))) = Json [].
Proof.
  intros w.
  apply (rejected_read_drops_the_stored_queue other_entropy demo_item "x" w []);
    reflexivity.
Defined.

(** X6. After [clear()] the pending count is 0 whatever was stored, and a
    pass that runs then finds nothing: it calls the delivery function on no
    record and returns [{succeeded: 0, failed: 0}]. *)
Theorem clear_empties_the_queue (w : World) :
  let w' := snd (clear w) in
  fst (clear w) = Returned tt /\
  fst (getPendingCount w') = Returned 0%nat /\
  fst (sync w') = Returned (mkCounts 0 0) /\
  deliveries (log (env (snd (sync w')))) = deliveries (log (env w)).
Proof.
  destruct w as [q [st gf sf nl al tm lg]].
  unfold clear, modify. simpl.
  split; [reflexivity|]. split.
  - unfold getPendingCount, bind, getQueue, try_catch, bind, getItem; simpl.
    destruct gf as [|[|] gf]; reflexivity.
  - unfold sync. simpl. destruct (skips q); [split; reflexivity|].
    unfold try_finally, drain, getPending, getQueue, try_catch, bind, getItem;
      simpl.
    destruct gf as [|[|] gf]; simpl; rewrite !deliveries_app; simpl;
      rewrite ?app_nil_r; split; reflexivity.
Qed.
(* ===================================================================== *)
(** * A pass on reliable storage: what is called, kept and counted *)
(* ===================================================================== *)

Lemma verdict_cases max cb r :
  verdict max cb r =
  if below_limit max r
  then (if accepted cb r then Delivered
        else Failed (match cb r with Rejected e => Some e | _ => None end))
  else Evict.
Proof.
  unfold verdict, below_limit, accepted. rewrite Z.ltb_antisym.
  destruct (max <=? retryCount r)%Z; simpl; [reflexivity|].
  now destruct (cb r) as [[|]|e].
Qed.

Lemma settled_is_filter cb max queue :
  flat_map (settle cb max) queue =
  map bump (filter (fun r => below_limit max r && negb (accepted cb r)) queue).
Proof.
  induction queue as [|r queue IH]; simpl; [reflexivity|].
  unfold settle at 1. rewrite verdict_cases.
  destruct (below_limit max r), (accepted cb r); simpl; now rewrite IH.
Qed.

Lemma deliveries_of_pass cb max pending :
  deliveries (pass_events cb max pending) = filter (below_limit max) pending.
Proof.
  induction pending as [|r pending IH]; simpl; [reflexivity|].
  rewrite deliveries_app, IH, verdict_cases.
  destruct (below_limit max r); [|reflexivity].
  destruct (accepted cb r); [reflexivity|].
  now destruct (cb r) as [[|]|e].
Qed.

Lemma counts_of_pass cb max pending :
  forall c,
    succeeded (pass_counts cb max pending c) =
      (succeeded c +
       List.length (filter (fun r => below_limit max r && accepted cb r)
                           pending))%nat /\
    total (pass_counts cb max pending c) =
      (total c + List.length pending)%nat.
Proof.
  induction pending as [|r pending IH]; intros c.
  - unfold total. simpl. split; lia.
  - change (pass_counts cb max (r :: pending) c)
      with (pass_counts cb max pending (counted (verdict max cb r) c)).
    destruct (IH (counted (verdict max cb r) c)) as [Hs Ht].
    rewrite Hs, Ht, verdict_cases. unfold total. simpl.
    destruct (below_limit max r), (accepted cb r); simpl; split; lia.
Qed.

(** What a pass that runs on reliable storage leaves behind. *)
Lemma sync_outcome cb w :
  reliable w ->
  runs (oq w) ->
  syncCallback (oq w) = Some cb ->
  let max := effectiveMaxRetries (oq w) in
  let c := pass_counts cb max (pending_of w) (mkCounts 0 0) in
  fst (sync w) = Returned c /\
  oq (snd (sync w)) = oq w /\
  reliable (snd (sync w)) /\
  log (env (snd (sync w))) =
    log (env w) ++ SyncStart :: pass_events cb max (pending_of w) ++
    [SyncComplete (succeeded c) (failed c)] /\
  (NoDup (ids (pending_of w)) ->
   pending_of (snd (sync w)) =
     map bump (filter (fun r => below_limit max r && negb (accepted cb r))
                      (pending_of w))).
Proof.
  intros Hr Hruns Hcb max c.
  destruct (sync_reliable cb w Hr Hruns Hcb) as (w' & Hs & Ho & Hr' & Hq & Hl).
  rewrite Hs. simpl. repeat split; try assumption; try apply Hr'.
  intros Hnd. rewrite Hq, pass_store_settles by exact Hnd.
  apply settled_is_filter.
Qed.

(** X7. The records a pass keeps.  On reliable storage and with unique
    identifiers, the queue after a pass holds the records that were below
    the retry limit and whose delivery did not succeed, each with its
    [retryCount] raised by one, in the order they had in the queue. *)
Theorem pass_keeps_failed_records_in_order (cb : SyncCallback) (w : World) :
  reliable w ->
  runs (oq w) ->
  syncCallback (oq w) = Some cb ->
  NoDup (ids (pending_of w)) ->
  pending_of (snd (sync w)) =
  map bump
      (filter (fun r =>
                 (retryCount r <? effectiveMaxRetries (oq w))%Z &&
                 negb (match cb r with Resolved true => true | _ => false end))
              (pending_of w)).
Proof.
  intros Hr Hruns Hcb Hnd.
  destruct (sync_outcome cb w Hr Hruns Hcb) as (_ & _ & _ & _ & H).
  exact (H Hnd).
Qed.

Lemma pass_keeps_failed_records_in_order_witness :
  pending_of
    (snd (sync (demo_world refuses
                  (Json [bump (bump (bump demo_record));
                         queuedItem other_entropy demo_item])))) =
  [bump (queuedItem other_entropy demo_item)].
Proof.
  rewrite (pass_keeps_failed_records_in_order refuses).
  - vm_compute. reflexivity.
  - split; reflexivity.
  - reflexivity.
  - reflexivity.
  - simpl. constructor.
    + intros [H|[]]. vm_compute in H. discriminate H.
    + constructor; [intros []|constructor].
Defined.

(** X8. The delivery calls of a pass.  On reliable storage, a pass calls
    the delivery function once on each record of its snapshot that is below
    the retry limit, in queue order, and on no other record: a failure on
    one record does not stop the deliveries of the following ones. *)
Theorem pass_calls_delivery_in_queue_order (cb : SyncCallback) (w : World) :
  reliable w ->
  runs (oq w) ->
  syncCallback (oq w) = Some cb ->
  deliveries (log (env (snd (sync w)))) =
  deliveries (log (env w)) ++
  filter (fun r => (retryCount r <? effectiveMaxRetries (oq w))%Z)
         (pending_of w).
Proof.
  intros Hr Hruns Hcb.
  destruct (sync_outcome cb w Hr Hruns Hcb) as (_ & _ & _ & Hl & _).
  rewrite Hl, deliveries_app. f_equal. simpl.
  rewrite deliveries_app, deliveries_of_pass. simpl. apply app_nil_r.
Qed.

Lemma pass_calls_delivery_in_queue_order_witness :
  deliveries
    (log (env (snd (sync (demo_world breaks
                            (Json [demo_record;
                                   bump (bump (bump demo_record));
                                   queuedItem other_entropy demo_item])))))) =
  [demo_record; queuedItem other_entropy demo_item].
Proof.
  rewrite (pass_calls_delivery_in_queue_order breaks).
  - vm_compute. reflexivity.
  - split; reflexivity.
  - reflexivity.
  - reflexivity.
Defined.

(** X9. The counters of a pass.  On reliable storage, [succeeded] is the
    number of records below the retry limit on which the delivery function
    returned [true], [failed] is the number of all other records of the
    snapshot, and [onSyncComplete] is signalled last, with the very
    counters that [sync()] returns. *)
Theorem pass_counts_every_record_once (cb : SyncCallback) (w : World) :
  reliable w ->
  runs (oq w) ->
  syncCallback (oq w) = Some cb ->
  exists c,
    fst (sync w) = Returned c /\
    succeeded c =
      List.length
        (filter (fun r =>
                   (retryCount r <? effectiveMaxRetries (oq w))%Z &&
                   match cb r with Resolved true => true | _ => false end)
                (pending_of w)) /\
    (succeeded c + failed c)%nat = List.length (pending_of w) /\
    last (log (env (snd (sync w)))) SyncStart =
      SyncComplete (succeeded c) (failed c).
Proof.
  intros Hr Hruns Hcb.
  destruct (sync_outcome cb w Hr Hruns Hcb) as (Hs & _ & _ & Hl & _).
  eexists. split; [exact Hs|].
  destruct (counts_of_pass cb (effectiveMaxRetries (oq w)) (pending_of w)
              (mkCounts 0 0)) as [H1 H2].
  split; [|split].
  - exact H1.
  - exact H2.
  - rewrite Hl.
    change (SyncStart :: ?a ++ ?b) with ((SyncStart :: a) ++ b).
    rewrite app_assoc. apply last_last.
Qed.

Lemma pass_counts_every_record_once_witness :
  exists c,
    fst (sync (demo_world accepts
                 (Json [demo_record; bump (bump (bump demo_record))]))) =
      Returned c /\
    succeeded c = 1%nat /\ (succeeded c + failed c)%nat = 2%nat.
Proof.
  destruct (pass_counts_every_record_once accepts
              (demo_world accepts
                 (Json [demo_record; bump (bump (bump demo_record))]))
              (conj eq_refl eq_refl) eq_refl eq_refl)
    as (c & Hc & Hs & Ht & _).
  exists c. split; [exact Hc|]. split; [exact Hs|exact Ht].
Defined.

Lemma in_deliveries evs r :
  In (DeliveryCalled r) evs -> In r (deliveries evs).
Proof.
  induction evs as [|ev evs IH]; simpl; [intros []|].
  intros [->|H]; [now left|].
  destruct ev; auto. right. now apply IH.
Qed.

(** X10. Eviction.  On reliable storage and with unique identifiers, a
    record whose [retryCount] has reached the limit is removed by the next
    pass without a delivery call: the pass signals "submission failed" with
    the detail "Max retries exceeded" for it, calls the delivery function
    on no record with its identifier, and leaves no record with its
    identifier in the queue. *)
Theorem exhausted_record_is_evicted_without_delivery
  (cb : SyncCallback) (r : QueuedSubmission) (w : World) :
  reliable w ->
  runs (oq w) ->
  syncCallback (oq w) = Some cb ->
  NoDup (ids (pending_of w)) ->
  In r (pending_of w) ->
  (effectiveMaxRetries (oq w) <= retryCount r)%Z ->
  exists evs,
    log (env (snd (sync w))) = log (env w) ++ evs /\
    In (SubmissionFailed (id r) "Max retries exceeded") evs /\
    (forall r', In (DeliveryCalled r') evs -> id r' <> id r) /\
    ~ In (id r) (ids (pending_of (snd (sync w)))).
Proof.
  intros Hr Hruns Hcb Hnd Hin Hle.
  destruct (sync_outcome cb w Hr Hruns Hcb) as (_ & _ & _ & Hl & Hq).
  specialize (Hq Hnd).
  set (max := effectiveMaxRetries (oq w)) in *.
  assert (Hb : below_limit max r = false)
    by (unfold below_limit; apply Z.ltb_ge; exact Hle).
  eexists. split; [exact Hl|]. split; [|split].
  - right. apply in_or_app. left. unfold pass_events. apply in_flat_map.
    exists r. split; [exact Hin|].
    rewrite verdict_cases, Hb. now left.
  - intros r' Hd E.
    assert (Hd' : In r' (deliveries (pass_events cb max (pending_of w)))).
    { destruct Hd as [Hd|Hd]; [discriminate|].
      apply in_app_or in Hd. destruct Hd as [Hd|[Hd|[]]];
        [now apply in_deliveries|discriminate]. }
    rewrite deliveries_of_pass in Hd'. apply filter_In in Hd'.
    destruct Hd' as [Hin' Hb'].
    rewrite (unique_by_id _ r' r Hnd Hin' Hin E) in Hb'. congruence.
  - rewrite Hq. unfold ids. rewrite map_map. rewrite in_map_iff.
    intros (r' & E & Hf). apply filter_In in Hf. destruct Hf as [Hin' Hk].
    simpl in E.
    rewrite (unique_by_id _ r' r Hnd Hin' Hin E), Hb in Hk. discriminate.
Qed.

Lemma exhausted_record_is_evicted_without_delivery_witness :
  let r := bump (bump (bump demo_record)) in
  let w := demo_world accepts (Json [r]) in
  exists evs,
    log (env (snd (sync w))) = log (env w) ++ evs /\
    In (SubmissionFailed (id r) "Max retries exceeded") evs /\
    (forall r', In (DeliveryCalled r') evs -> id r' <> id r) /\
    ~ In (id r) (ids (pending_of (snd (sync w)))).
Proof.
  intros r w.
  apply (exhausted_record_is_evicted_without_delivery accepts r w).
  - split; reflexivity.
  - reflexivity.
  - reflexivity.
  - simpl. constructor; [intros []|constructor].
  - now left.
  - vm_compute. discriminate.
Defined.

(* ===================================================================== *)
(** * Successive passes: the retry budget *)
(* ===================================================================== *)

Lemma after_syncs_next k w :
  after_syncs (S k) w = after_syncs k (snd (sync w)).
Proof. unfold after_syncs. apply Nat.iter_succ_r. Qed.

Lemma ids_map_bump queue : ids (map bump queue) = ids queue.
Proof. unfold ids. rewrite map_map. reflexivity. Qed.

(** The conditions under which the passes are described carry over from
    one pass to the next. *)
Lemma pass_conditions_persist cb w :
  reliable w -> runs (oq w) -> syncCallback (oq w) = Some cb ->
  NoDup (ids (pending_of w)) ->
  reliable (snd (sync w)) /\ runs (oq (snd (sync w))) /\
  syncCallback (oq (snd (sync w))) = Some cb /\
  NoDup (ids (pending_of (snd (sync w)))) /\
  effectiveMaxRetries (oq (snd (sync w))) = effectiveMaxRetries (oq w).
Proof.
  intros Hr Hruns Hcb Hnd.
  destruct (sync_outcome cb w Hr Hruns Hcb) as (_ & Ho & Hr' & _ & Hq).
  rewrite Ho. repeat split; try assumption; try apply Hr'.
  rewrite (Hq Hnd), <- settled_is_filter. now apply settled_ids_unique.
Qed.

Lemma filter_id_absent i queue :
  ~ In i (ids queue) ->
  filter (fun x => String.eqb (id x) i) queue = [].
Proof.
  unfold ids. induction queue as [|q queue IH]; simpl; intros Hn;
    [reflexivity|].
  destruct (String.eqb_spec (id q) i) as [E|E].
  - exfalso. apply Hn. now left.
  - apply IH. intros H. apply Hn. now right.
Qed.

Lemma filter_by_id queue r :
  NoDup (ids queue) -> In r queue ->
  filter (fun x => String.eqb (id x) (id r)) queue = [r].
Proof.
  unfold ids. induction queue as [|q queue IH]; simpl; intros Hnd Hin;
    [contradiction|].
  inversion Hnd as [|x l Hnot Hrest]; subst.
  destruct Hin as [->|Hin].
  - rewrite String.eqb_refl. f_equal. now apply filter_id_absent.
  - destruct (String.eqb_spec (id q) (id r)) as [E|E].
    + exfalso. apply Hnot. rewrite E. now apply in_map.
    + now apply IH.
Qed.

Lemma filter_swap {A} (p q : A -> bool) l :
  filter p (filter q l) = filter q (filter p l).
Proof.
  induction l as [|a l IH]; simpl; [reflexivity|].
  destruct (p a) eqn:P, (q a) eqn:Q; simpl; rewrite ?P, ?Q, IH; reflexivity.
Qed.

Lemma attempts_after_pass cb w i :
  reliable w -> runs (oq w) -> syncCallback (oq w) = Some cb ->
  attempts i (log (env (snd (sync w)))) =
  (attempts i (log (env w)) +
   List.length
     (filter (below_limit (effectiveMaxRetries (oq w)))
             (filter (fun x => String.eqb (id x) i) (pending_of w))))%nat.
Proof.
  intros Hr Hruns Hcb. unfold attempts.
  destruct (sync_outcome cb w Hr Hruns Hcb) as (_ & _ & _ & Hl & _).
  rewrite Hl, deliveries_app, filter_app, length_app. f_equal. simpl.
  rewrite deliveries_app, deliveries_of_pass. simpl. rewrite app_nil_r.
  now rewrite filter_swap.
Qed.

(** No delivery call is made on an identifier that is not queued. *)
Lemma attempts_of_absent cb i k :
  forall w,
    reliable w -> runs (oq w) -> syncCallback (oq w) = Some cb ->
    NoDup (ids (pending_of w)) -> ~ In i (ids (pending_of w)) ->
    attempts i (log (env (after_syncs k w))) = attempts i (log (env w)).
Proof.
  induction k as [|k IH]; intros w Hr Hruns Hcb Hnd Hn; [reflexivity|].
  rewrite after_syncs_next.
  destruct (pass_conditions_persist cb w Hr Hruns Hcb Hnd)
    as (Hr' & Hruns' & Hcb' & Hnd' & _).
  destruct (sync_outcome cb w Hr Hruns Hcb) as (_ & _ & _ & _ & Hq).
  rewrite IH; try assumption.
  - rewrite (attempts_after_pass cb w i Hr Hruns Hcb).
    rewrite (filter_id_absent i _ Hn). simpl. lia.
  - rewrite (Hq Hnd), ids_map_bump. unfold ids. rewrite in_map_iff.
    intros (x & E & Hx). apply filter_In in Hx. apply Hn.
    unfold ids. rewrite <- E. apply in_map. apply Hx.
Qed.

(** X11. The retry budget over successive passes.  On reliable storage,
    with unique identifiers and nothing enqueued in between, a queued
    record with [retryCount = n] receives at most [maxRetries - n] delivery
    calls, however many passes run and whatever the delivery function
    answers. *)
Theorem delivery_attempts_within_budget (cb : SyncCallback)
  (k : nat) (r : QueuedSubmission) (w : World) :
  reliable w ->
  runs (oq w) ->
  syncCallback (oq w) = Some cb ->
  NoDup (ids (pending_of w)) ->
  In r (pending_of w) ->
  (attempts (id r) (log (env (after_syncs k w))) <=
   attempts (id r) (log (env w)) +
   Z.to_nat (effectiveMaxRetries (oq w) - retryCount r))%nat.
Proof.
  revert r w. induction k as [|k IH]; intros r w Hr Hruns Hcb Hnd Hin.
  - simpl. lia.
  - rewrite after_syncs_next.
    destruct (pass_conditions_persist cb w Hr Hruns Hcb Hnd)
      as (Hr' & Hruns' & Hcb' & Hnd' & Hmax).
    destruct (sync_outcome cb w Hr Hruns Hcb) as (_ & _ & _ & _ & Hq).
    specialize (Hq Hnd).
    pose proof (attempts_after_pass cb w (id r) Hr Hruns Hcb) as Hone.
    rewrite (filter_by_id _ r Hnd Hin) in Hone. simpl in Hone.
    set (max := effectiveMaxRetries (oq w)) in *.
    assert (Hb : below_limit max r = true -> (retryCount r < max)%Z)
      by (unfold below_limit; apply Z.ltb_lt).
    destruct (below_limit max r && negb (accepted cb r)) eqn:Keep.
    + (* kept, with one retry more *)
      assert (Hin' : In (bump r) (pending_of (snd (sync w)))).
      { rewrite Hq. apply in_map. apply filter_In. now split. }
      apply andb_prop in Keep. destruct Keep as [Hbt _].
      specialize (IH (bump r) (snd (sync w)) Hr' Hruns' Hcb' Hnd' Hin').
      rewrite Hmax in IH. simpl in IH. rewrite Hbt in Hone. simpl in Hone.
      specialize (Hb Hbt). fold max in IH. lia.
    + (* gone after this pass *)
      assert (Hgone : ~ In (id r) (ids (pending_of (snd (sync w))))).
      { rewrite Hq, ids_map_bump. unfold ids. rewrite in_map_iff.
        intros (x & E & Hx). apply filter_In in Hx. destruct Hx as [Hx Hk].
        rewrite (unique_by_id _ x r Hnd Hx Hin E) in Hk. congruence. }
      rewrite (attempts_of_absent cb (id r) k _ Hr' Hruns' Hcb' Hnd' Hgone).
      rewrite Hone. destruct (below_limit max r) eqn:Hbt; simpl.
      * specialize (Hb eq_refl). lia.
      * lia.
Qed.

Lemma delivery_attempts_within_budget_witness :
  (attempts (id demo_record)
     (log (env (after_syncs 7
                  (demo_world refuses (Json [demo_record]))))) <=
   0 + 3)%nat.
Proof.
  apply (delivery_attempts_within_budget refuses 7 demo_record
           (demo_world refuses (Json [demo_record]))).
  - split; reflexivity.
  - reflexivity.
  - reflexivity.
  - simpl. constructor; [intros []|constructor].
  - now left.
Defined.

Lemma survivors_after k cb :
  forall w,
    reliable w -> runs (oq w) -> syncCallback (oq w) = Some cb ->
    NoDup (ids (pending_of w)) ->
    forall r', In r' (pending_of (after_syncs k w)) ->
      exists r, In r (pending_of w) /\ id r' = id r /\
                retryCount r' = (retryCount r + Z.of_nat k)%Z /\
                ((1 <= k)%nat ->
                 (retryCount r' <= effectiveMaxRetries (oq w))%Z).
Proof.
  induction k as [|k IH]; intros w Hr Hruns Hcb Hnd r' Hin'.
  - exists r'. simpl in *. repeat split; try assumption; lia.
  - rewrite after_syncs_next in Hin'.
    destruct (pass_conditions_persist cb w Hr Hruns Hcb Hnd)
      as (Hr1 & Hruns1 & Hcb1 & Hnd1 & Hmax).
    destruct (IH _ Hr1 Hruns1 Hcb1 Hnd1 r' Hin')
      as (r1 & Hin1 & Hid & Hrc & Hle).
    destruct (sync_outcome cb w Hr Hruns Hcb) as (_ & _ & _ & _ & Hq).
    rewrite (Hq Hnd) in Hin1. apply in_map_iff in Hin1.
    destruct Hin1 as (r & <- & Hf). apply filter_In in Hf.
    destruct Hf as [Hin Hk]. apply andb_prop in Hk. destruct Hk as [Hb _].
    unfold below_limit in Hb. apply Z.ltb_lt in Hb.
    exists r. simpl in Hid, Hrc. rewrite Hmax in Hle.
    repeat split; try assumption; lia.
Qed.

(** X12. The queue drains.  On reliable storage, with unique identifiers,
    retry counters that are not negative and nothing enqueued in between,
    the queue is empty after more than [maxRetries] passes (and at least
    one), whatever the delivery function answers. *)
Theorem queue_is_empty_after_the_budget (cb : SyncCallback) (k : nat)
  (w : World) :
  reliable w ->
  runs (oq w) ->
  syncCallback (oq w) = Some cb ->
  NoDup (ids (pending_of w)) ->
  (forall r, In r (pending_of w) -> 0 <= retryCount r)%Z ->
  (1 <= k)%nat ->
  (effectiveMaxRetries (oq w) < Z.of_nat k)%Z ->
  pending_of (after_syncs k w) = [].
Proof.
  intros Hr Hruns Hcb Hnd Hpos Hk Hmax.
  destruct (pending_of (after_syncs k w)) as [|r' rest] eqn:E;
    [reflexivity|].
  destruct (survivors_after k cb w Hr Hruns Hcb Hnd r') as (r & Hin & _ & Hrc & Hle);
    [rewrite E; now left|].
  specialize (Hpos r Hin). lia.
Qed.

Lemma queue_is_empty_after_the_budget_witness :
  pending_of
    (after_syncs 4
       (demo_world breaks
          (Json [demo_record; queuedItem other_entropy demo_item]))) = [].
Proof.
  apply (queue_is_empty_after_the_budget breaks).
  - split; reflexivity.
  - reflexivity.
  - reflexivity.
  - simpl. constructor.
    + intros [H|[]]. vm_compute in H. discriminate H.
    + constructor; [intros []|constructor].
  - intros r [<-|[<-|[]]]; simpl; lia.
  - lia.
  - vm_compute. reflexivity.
Defined.

(* ===================================================================== *)
(** * A pass never locks the queue *)
(* ===================================================================== *)

Lemma stable_log_extends (l0 : list Event) :
  stable (fun w => exists evs, log (env w) = l0 ++ evs).
Proof.
  split; intros; try assumption.
  match goal with H : exists _, _ |- _ => destruct H as (evs & H) end.
  exists (evs ++ [ev]). simpl. rewrite H. now rewrite app_assoc.
Qed.


(* ===================================================================== *)
(** * The connectivity monitor *)
(* ===================================================================== *)

Lemma handleNetworkChange_effect state w :
  let w' := snd (handleNetworkChange state w) in
  isConnected (oq w') = negb (reports_offline state) /\
  timers (env w') =
    (timers (env w) +
     (if negb (isConnected (oq w)) && negb (reports_offline state)
      then 1 else 0))%nat /\
  storage (env w') = storage (env w) /\
  log (env w') = log (env w) /\
  syncInProgress (oq w') = syncInProgress (oq w).
Proof.
  destruct w as [[mr cb flag con un ap] [st gf sf nl al tm lg]].
  destruct state as [[|]|], con; simpl; repeat split; lia.
Qed.

(** X14. Reachability notifications never start a pass themselves: the
    stored queue and the log stay as they are.  They schedule a settle
    timer on each flip from offline to online only, so that a sequence of
    notifications schedules at most one timer more than it holds offline
    (or unknown) reports, and none more than that when the queue was
    online before; the last notification decides the online status. *)
Theorem notifications_schedule_one_timer_per_reconnection
  (states : list (option bool)) (w : World) :
  let w' := notified states w in
  storage (env w') = storage (env w) /\
  log (env w') = log (env w) /\
  (timers (env w) <= timers (env w'))%nat /\
  (timers (env w') <=
   timers (env w) + List.length (filter reports_offline states) +
   (if isConnected (oq w) then 0 else 1))%nat /\
  isConnected (oq w') =
    match rev states with
    | [] => isConnected (oq w)
    | state :: _ => negb (reports_offline state)
    end.
Proof.
  revert w. induction states as [|state states IH]; intros w; simpl.
  - repeat split; lia.
  - destruct (handleNetworkChange_effect state w) as (Hc & Ht & Hs & Hl & _).
    destruct (IH (snd (handleNetworkChange state w)))
      as (Hs' & Hl' & Ht1 & Ht2 & Hc').
    unfold notified in *. simpl in *.
    rewrite Hs', Hl', Hs, Hl. repeat split; try lia.
    + rewrite Hc, Ht in Ht2.
      destruct (isConnected (oq w)), (reports_offline state); simpl in *; lia.
    + rewrite Hc'. destruct (rev states) as [|s l] eqn:E; simpl; [|reflexivity].
      exact Hc.
Qed.

(** X15. A settle timer that elapses while the queue is offline again, or
    while a pass is in progress, is consumed without starting a pass:
    nothing is delivered, stored or signalled. *)
Theorem stale_timer_starts_no_pass (w : World) (n : nat) :
  timers (env w) = S n ->
  isConnected (oq w) = false \/ syncInProgress (oq w) = true ->
  react TimerElapsed w = (Returned tt, on_env (set_timers n) w).
Proof.
  intros Ht Hg. unfold react. rewrite Ht. unfold detached, sync.
  assert (Hs : skips (oq (on_env (set_timers n) w)) = true).
  { apply skips_true. simpl. tauto. }
  now rewrite Hs.
Qed.

Lemma stale_timer_starts_no_pass_witness :
  let w0 := demo_world accepts (Json [demo_record]) in
  let w1 := snd (init (Some false) w0) in
  let w2 := snd (react (NetInfoChanged (Some true)) w1) in
  let w3 := snd (react (NetInfoChanged (Some false)) w2) in
  react TimerElapsed w3 = (Returned tt, on_env (set_timers 0) w3).
Proof.
  intros w0 w1 w2 w3.
  apply (stale_timer_starts_no_pass w3 0).
  - reflexivity.
  - left. reflexivity.
Defined.

(** The environment fields that a pass has no access to. *)
Lemma sync_keeps_platform (P : World -> Prop) w :
  stable P ->
  (forall w f, P w -> P (on_oq f w)) ->
  P w -> P (snd (sync w)).
Proof.
  intros Hst Hoq H. unfold sync. destruct (skips (oq w)); [exact H|].
  unfold try_finally, drain, getPending. simpl fst; simpl snd.
  set (w1 := on_env (add_event SyncStart)
                    (on_oq (set_syncInProgress true) w)).
  assert (H1 : P w1) by (apply (stable_logs P Hst), Hoq, H).
  pose proof (getQueue_keeps P Hst w1 H1) as H2.
  destruct (getQueue w1) as [[q|e] w2]; simpl in *.
  - pose proof (for_each_keeps P Hst q (mkCounts 0 0, w2) H2) as H3.
    destruct (for_each q (mkCounts 0 0, w2)) as [r [c w3]].
    unfold in_loop in H3. simpl in H3.
    destruct r; simpl; apply (stable_logs P Hst), Hoq, H3.
  - apply (stable_logs P Hst), Hoq, H2.
Qed.

Lemma stable_listeners (a b : bool) :
  stable (fun w => netListener (env w) = a /\ appListener (env w) = b).
Proof. split; intros; assumption. Qed.

Lemma sync_oq w : oq (snd (sync w)) = oq w.
Proof.
  destruct (skips (oq w)) eqn:Hs.
  - unfold sync. now rewrite Hs.
  - destruct (sync w) as [r w'] eqn:E.
    now destruct (sync_always_finishes w r w' Hs E).
Qed.

Lemma init_unfold fetched w :
  let connected := match fetched with Some b => b | None => true end in
  let w1 := mkWorld (set_subscriptions true true
                       (set_isConnected connected (oq w)))
                    (set_listeners true true (env w)) in
  init fetched w =
  (Returned tt, if connected then snd (sync w1) else w1).
Proof. destruct fetched as [[|]|]; reflexivity. Qed.

Lemma init_subscribes fetched w :
  let w' := snd (init fetched w) in
  unsubscribeNetInfo (oq w') = true /\ appStateSubscription (oq w') = true /\
  netListener (env w') = true /\ appListener (env w') = true.
Proof.
  cbv zeta. rewrite init_unfold. cbv zeta. simpl snd.
  set (w1 := mkWorld _ _).
  destruct (match fetched with Some b => b | None => true end).
  - rewrite sync_oq.
    destruct (sync_keeps_platform
                (fun w => netListener (env w) = true /\
                          appListener (env w) = true) w1
                (stable_listeners true true)) as [Hn Ha].
    + intros; assumption.
    + split; reflexivity.
    + repeat split; assumption.
  - repeat split.
Qed.

(** X16. Teardown and the two listeners.  Once [init()] has subscribed,
    [destroy()] removes both listeners, and reachability or application
    state changes then reach no handler.  A [destroy()] that runs on a
    queue that has not subscribed yet removes nothing, and an [init()]
    that completes after it registers both listeners all the same. *)
Theorem destroy_silences_the_listeners (fetched : option bool) (w : World)
  (state : option bool) (next : AppStateStatus)
  (configured : option Z) (e : Env) :
  (let w' := snd (destroy (snd (init fetched w))) in
   netListener (env w') = false /\ appListener (env w') = false /\
   react (NetInfoChanged state) w' = (Returned tt, w') /\
   react (AppStateChanged next) w' = (Returned tt, w')) /\
  (let fresh := mkWorld (new_OfflineQueue configured) e in
   destroy fresh = (Returned tt, fresh) /\
   netListener (env (snd (init fetched (snd (destroy fresh))))) = true /\
   appListener (env (snd (init fetched (snd (destroy fresh))))) = true).
Proof.
  split.
  - destruct (init_subscribes fetched w) as (Hu & Ha & Hn & Hl).
    cbv zeta in *.
    destruct (listeners_silent_after_destroy (snd (init fetched w)) state next
                Hu Ha) as [H1 H2].
    cbv zeta in *. rewrite H1, H2.
    unfold destroy, modify. simpl. rewrite Hu, Ha, !andb_false_r.
    repeat split.
  - cbv zeta. split.
    + destruct e. unfold destroy, modify. simpl. now rewrite !andb_true_r.
    + destruct (init_subscribes fetched
                  (snd (destroy (mkWorld (new_OfflineQueue configured) e))))
        as (_ & _ & Hn & Hl).
      split; assumption.
Qed.

(* ===================================================================== *)
(** * The facade: initialisation and teardown *)
(* ===================================================================== *)

(** X17. [FeedbackWidget.init] with an empty [projectId] or [apiKey]
    throws a configuration error and creates nothing: no instance, no
    subscription, no change of the platform.  The [projectId] is checked
    first. *)
Theorem init_requires_project_and_key (cfg : WidgetConfig)
  (t : FeedbackTransport) (fetched : option bool) (e : Env) :
  projectId cfg = "" \/ apiKey cfg = "" ->
  Static.init cfg t fetched (mkApp None e) =
  (Threw (ErrorObj (if String.eqb (projectId cfg) ""
                    then "FeedbackWidget: projectId is required"
                    else "FeedbackWidget: apiKey is required")),
   mkApp None e).
Proof.
  unfold Static.init. simpl.
  destruct (projectId cfg) as [|a p]; simpl; [reflexivity|].
  intros [H|H]; [discriminate|]. now rewrite H.
Qed.

Lemma init_requires_project_and_key_witness :
  Static.init (mkConfig "my-app" "" None None)
              (replying (Fails (ErrorObj "Network request failed")))
              (Some true) (mkApp None (quiet_env NoItem)) =
  (Threw (ErrorObj "FeedbackWidget: apiKey is required"),
   mkApp None (quiet_env NoItem)).
Proof.
  apply (init_requires_project_and_key (mkConfig "my-app" "" None None)).
  right. reflexivity.
Defined.

(** The instance a valid [init] creates. *)
Lemma static_init_valid cfg t fetched e :
  projectId cfg <> "" ->
  apiKey cfg <> "" ->
  let w' := snd (init fetched
                   (mkWorld (set_syncCallback (syncQueuedSubmission t)
                               (new_OfflineQueue (Some 3%Z))) e)) in
  Static.init cfg t fetched (mkApp None e) =
  (Returned tt, mkApp (Some (mkWidget cfg t false (oq w'))) (env w')).
Proof.
  intros Hp Hk. unfold Static.init. simpl instance.
  destruct (projectId cfg) as [|a p] eqn:Ep; [now destruct Hp|].
  destruct (apiKey cfg) as [|b k] eqn:Ek; [now destruct Hk|].
  simpl truthy. simpl negb. cbv iota zeta.
  unfold on_queue. simpl fst. simpl snd. simpl offlineQueue.
  destruct (init fetched _) as [r w']. reflexivity.
Qed.

Lemma init_oq fetched w :
  oq (snd (init fetched w)) =
  set_subscriptions true true
    (set_isConnected (match fetched with Some b => b | None => true end)
                     (oq w)).
Proof.
  rewrite init_unfold. cbv zeta. simpl snd.
  destruct (match fetched with Some b => b | None => true end);
    rewrite ?sync_oq; reflexivity.
Qed.

(** X18. A valid [init] creates the instance with the given configuration
    and a queue limited to 3 retries; while this instance exists, a second
    [init] changes nothing, whatever configuration it is given. *)
Theorem init_twice_keeps_the_first_instance
  (cfg cfg' : WidgetConfig) (t t' : FeedbackTransport)
  (fetched fetched' : option bool) (e : Env) :
  projectId cfg <> "" ->
  apiKey cfg <> "" ->
  let app := snd (Static.init cfg t fetched (mkApp None e)) in
  fst (Static.init cfg t fetched (mkApp None e)) = Returned tt /\
  (exists wd, instance app = Some wd /\ config wd = cfg /\
              transport wd = t /\ isSubmitting wd = false /\
              effectiveMaxRetries (offlineQueue wd) = 3%Z /\
              syncCallback (offlineQueue wd) =
                Some (syncQueuedSubmission t)) /\
  Static.init cfg' t' fetched' app = (Returned tt, app).
Proof.
  intros Hp Hk app. subst app.
  rewrite (static_init_valid cfg t fetched e Hp Hk). cbv zeta. simpl.
  split; [reflexivity|]. split; [|reflexivity].
  eexists. split; [reflexivity|]. simpl.
  rewrite init_oq. repeat split.
Qed.

Lemma init_twice_keeps_the_first_instance_witness :
  let t := replying (Fails (ErrorObj "Network request failed")) in
  let app := snd (Static.init demo_config t (Some true)
                    (mkApp None (quiet_env NoItem))) in
  Static.init (mkConfig "other" "fpk_yyy" None None) t None app =
  (Returned tt, app).
Proof.
  intros t app.
  destruct (init_twice_keeps_the_first_instance demo_config
              (mkConfig "other" "fpk_yyy" None None) t t (Some true) None
              (quiet_env NoItem)) as (_ & _ & H).
  - discriminate.
  - discriminate.
  - exact H.
Defined.

(** X19. [FeedbackWidget.destroy] drops the instance and removes its
    listeners but does not touch the storage: the queued records stay
    stored.  Without an instance [getPendingCount] reports 0; after the
    next [init] (here offline, so that no pass starts) it reports the
    stored records again. *)
Theorem destroy_keeps_the_stored_queue (app : App)
  (cfg : WidgetConfig) (t : FeedbackTransport) :
  projectId cfg <> "" ->
  apiKey cfg <> "" ->
  getFaults (platform app) = [] ->
  let app' := snd (Static.destroy app) in
  instance app' = None /\
  storage (platform app') = storage (platform app) /\
  log (platform app') = log (platform app) /\
  fst (Static.getPendingCount app') = Returned 0%nat /\
  fst (Static.getPendingCount (snd (Static.init cfg t (Some false) app'))) =
    Returned (List.length (stored_queue (storage (platform app)))).
Proof.
  intros Hp Hk Hg app'.
  assert (H : instance app' = None /\
              storage (platform app') = storage (platform app) /\
              getFaults (platform app') = [] /\
              log (platform app') = log (platform app)).
  { subst app'. unfold Static.destroy.
    destruct app as [[wd|] e]; simpl in *; [|repeat split; assumption].
    unfold on_queue, destroy, modify. simpl. repeat split; assumption. }
  destruct H as (Hi & Hs & Hg' & Hl).
  split; [exact Hi|]. split; [exact Hs|]. split; [exact Hl|].
  destruct app' as [i e']. simpl in *. subst i.
  split; [reflexivity|].
  unfold Static.init. simpl instance.
  destruct (projectId cfg) as [|a p] eqn:Ep; [now destruct Hp|].
  destruct (apiKey cfg) as [|b k] eqn:Ek; [now destruct Hk|].
  simpl truthy. simpl negb. cbv iota.
  destruct e' as [st gf sf nl al tm lg]. simpl in *. subst gf st.
  unfold Static.getPendingCount. simpl.
  unfold on_instance_queue, on_queue. simpl.
  rewrite getPendingCount_reliable by reflexivity. reflexivity.
Qed.

Lemma destroy_keeps_the_stored_queue_witness :
  let app := mkApp (instance (demo_app (replying (Fails (NonError "x")))
                                       true false))
                   (mkEnv (Json [demo_record]) [] [] true true 0 []) in
  let app' := snd (Static.destroy app) in
  instance app' = None /\
  storage (platform app') = Json [demo_record] /\
  fst (Static.getPendingCount app') = Returned 0%nat /\
  fst (Static.getPendingCount
         (snd (Static.init demo_config (replying (Fails (NonError "x")))
                           (Some false) app'))) = Returned 1%nat.
Proof.
  intros app app'.
  destruct (destroy_keeps_the_stored_queue app demo_config
              (replying (Fails (NonError "x"))))
    as (H1 & H2 & _ & H3 & H4); try discriminate; try reflexivity.
  repeat split; assumption.
Defined.

(* ===================================================================== *)
(** * The facade: what [submit] always does *)
(* ===================================================================== *)

Lemma keeps_try_finally {S A} (inv : S -> Prop) (m : M S A) (f : S -> S) :
  keeps inv m -> (forall s, inv s -> inv (f s)) ->
  keeps inv (try_finally m f).
Proof.
  intros Hm Hf s H. unfold try_finally. specialize (Hm s H).
  destruct (m s) as [r s']. simpl in *. now apply Hf.
Qed.


Lemma enqueue_keeps P en it : stable P -> keeps P (enqueue en it).
Proof. intros H. unfold enqueue, saveQueue. frame H. Qed.

Section Widget.

Variable wd0 : FeedbackWidget.

Lemma on_queue_keeps {A} (m : Async A) :
  (forall q, keeps (fun w => oq w = q) m) ->
  keeps (same_widget wd0) (on_queue m).
Proof.
  intros Hm [wd e] (Hc & Ht & Hq). unfold on_queue, same_widget in *.
  simpl in *.
  pose proof (Hm (offlineQueue wd) (mkWorld (offlineQueue wd) e) eq_refl) as K.
  destruct (m (mkWorld (offlineQueue wd) e)) as [r w']. simpl in *.
  repeat split; congruence.
Qed.

Lemma notify_keeps ev : keeps (same_widget wd0) (notify ev).
Proof. apply keeps_modify. now intros [wd e]. Qed.

Lemma transport_submitFeedback_keeps sub :
  keeps (same_widget wd0) (transport_submitFeedback sub).
Proof.
  intros [wd e] H. unfold transport_submitFeedback. simpl.
  now destruct (submitFeedback_reply (transport wd) sub).
Qed.

Lemma transport_uploadScreenshot_keeps i uri :
  keeps (same_widget wd0) (transport_uploadScreenshot i uri).
Proof.
  unfold transport_uploadScreenshot.
  apply keeps_bind; [apply notify_keeps|intros ?].
  apply keeps_bind; [apply keeps_gets|intros t].
  apply keeps_if; [apply keeps_ret|apply notify_keeps].
Qed.

Lemma queueSubmission_keeps en sub shot :
  keeps (same_widget wd0) (queueSubmission en sub shot).
Proof.
  unfold queueSubmission. apply keeps_try_catch.
  - apply keeps_bind; [|intros ?; apply keeps_ret].
    apply on_queue_keeps. intros q. apply enqueue_keeps, stable_oq.
  - intros e. apply keeps_ret.
Qed.

Lemma queueSubmission_returns en sub shot :
  returns (same_widget wd0) (queueSubmission en sub shot).
Proof.
  unfold queueSubmission. apply returns_try_catch.
  - apply keeps_bind; [|intros ?; apply keeps_ret].
    apply on_queue_keeps. intros q. apply enqueue_keeps, stable_oq.
  - intros e. apply returns_ret.
Qed.

Ltac widget_frame :=
  repeat first
    [ apply queueSubmission_keeps
    | apply notify_keeps
    | apply transport_submitFeedback_keeps
    | apply transport_uploadScreenshot_keeps
    | apply keeps_gets
    | apply keeps_ret
    | apply on_queue_keeps; intros ?; apply keeps_gets
    | apply keeps_if
    | match goal with
      | |- keeps _ (match ?x with _ => _ end) => destruct x
      end
    | apply keeps_try_catch; [|intros ?; cbv zeta]
    | apply keeps_bind; [|intros ?] ].

Lemma submitFeedback_attempt_keeps sur feedback :
  keeps (same_widget wd0) (submitFeedback_attempt sur feedback).
Proof.
  unfold submitFeedback_attempt.
  apply keeps_try_finally; [|now intros [wd e]].
  widget_frame.
Qed.


End Widget.

Lemma submitFeedback_attempt_releases sur feedback s :
  isSubmitting (fst (snd (submitFeedback_attempt sur feedback s))) = false.
Proof.
  unfold submitFeedback_attempt, try_finally.
  match goal with |- context [let (r, s') := ?m s in _] => destruct (m s) end.
  reflexivity.
Qed.

Lemma submit_unfold sur feedback wd e :
  Static.submit sur feedback (mkApp (Some wd) e) =
  if isSubmitting wd
  then (Returned (mkResponse false None
                    (Some "Submission already in progress")),
        mkApp (Some wd) e)
  else
    (fst (submitFeedback_attempt sur feedback
            (set_isSubmitting true wd, add_event SubmitStart e)),
     mkApp
       (Some (fst (snd (submitFeedback_attempt sur feedback
                          (set_isSubmitting true wd,
                           add_event SubmitStart e)))))
       (snd (snd (submitFeedback_attempt sur feedback
                    (set_isSubmitting true wd, add_event SubmitStart e))))).
Proof.
  unfold Static.submit, submitFeedback. simpl.
  destruct (isSubmitting wd); [reflexivity|].
  unfold bind, modify, notify. simpl.
  now destruct (submitFeedback_attempt sur feedback _) as [r [wd' e']].
Qed.


Ltac enter_submit Hb Hc Hreply :=
  rewrite submit_unfold; simpl isSubmitting; rewrite Hb;
  unfold submitFeedback_attempt, try_finally, try_catch, bind, gets,
    on_queue, getOnlineStatus, transport_submitFeedback; simpl;
  rewrite Hc; simpl; rewrite Hreply; simpl.

(** X21. An accepted submission.  When the widget is idle and online and
    the transport answers with success, [submit] returns the answer of the
    transport as it is, signals [onSubmitSuccess] with its identifier and
    no error, and does not touch the storage: nothing is queued.  The
    screenshot upload cannot change this outcome. *)
Theorem accepted_submission_is_not_queued
  (sur : Surroundings) (feedback : Feedback) (wd : FeedbackWidget) (e : Env)
  (r : SubmissionResponse) :
  isSubmitting wd = false ->
  isConnected (offlineQueue wd) = true ->
  (forall sub, submitFeedback_reply (transport wd) sub = Responds r) ->
  success r = true ->
  let app' := snd (Static.submit sur feedback (mkApp (Some wd) e)) in
  fst (Static.submit sur feedback (mkApp (Some wd) e)) = Returned r /\
  storage (platform app') = storage e /\
  getFaults (platform app') = getFaults e /\
  setFaults (platform app') = setFaults e /\
  exists evs,
    log (platform app') = log e ++ evs /\
    In (SubmitSuccess (feedback_id r)) evs /\
    forall err, ~ In (SubmitError err) evs.
Proof.
  intros Hb Hc Hreply Hok.
  destruct wd as [cfg t busy q]. destruct e as [st gf sf nl al tm lg].
  simpl in Hb, Hc, Hreply. cbv zeta.
  enter_submit Hb Hc Hreply. rewrite Hok. simpl.
  unfold transport_uploadScreenshot, bind, notify, modify, gets.
  destruct (feedback_screenshotUri feedback) as [[|c uri]|];
    destruct (feedback_id r) as [[|d fid]|]; simpl;
    try destruct (fst (uploadScreenshot_reply t _ _)); simpl;
    rewrite <- ?app_assoc; simpl;
    (repeat split; eexists; split; [reflexivity|]; split;
     [simpl; tauto|]; intros err H; simpl in H;
     repeat destruct H as [H|H]; try discriminate H; try contradiction).
Qed.

Ltac enter_failed_submit Hb Hc Hreply :=
  rewrite submit_unfold; simpl isSubmitting; rewrite Hb;
  unfold submitFeedback_attempt, try_finally, try_catch, bind, gets,
    on_queue, getOnlineStatus, transport_submitFeedback;
  cbn -[isNetworkError queueSubmission];
  rewrite Hc; cbn -[isNetworkError queueSubmission];
  rewrite Hreply; cbn -[isNetworkError queueSubmission].

(** X22. A failure that is not taken for a network failure.  When the
    widget is idle and online and the transport fails, by an error answer
    or by a throw, with a text in which [isNetworkError] finds no marker,
    [submit] surfaces the failure: it returns the error answer itself (for
    a throw, a failure carrying the thrown text), signals [onSubmitError]
    with that text (or "Submission failed" when the answer has none), and
    does not touch the storage. *)
Theorem unclassified_failure_is_surfaced
  (sur : Surroundings) (feedback : Feedback) (wd : FeedbackWidget) (e : Env)
  (reply : TransportReply) :
  isSubmitting wd = false ->
  isConnected (offlineQueue wd) = true ->
  (forall sub, submitFeedback_reply (transport wd) sub = reply) ->
  classified false reply ->
  Static.submit sur feedback (mkApp (Some wd) e) =
  (Returned (match reply with
             | Responds r => r
             | Fails thrown =>
                 mkResponse false None (Some (thrown_text thrown))
             end),
   mkApp (Some wd)
     (add_event
        (SubmitError
           (ErrorObj (match reply with
                      | Responds r => or_default (error r) "Submission failed"
                      | Fails thrown => thrown_text thrown
                      end)))
        (add_event (TransportCalled (built_submission (config wd) sur feedback))
           (add_event SubmitStart e)))).
Proof.
  intros Hb Hc Hreply Hclass.
  destruct wd as [cfg t busy q]. simpl in Hb, Hc, Hreply. subst busy.
  destruct reply as [r|thrown]; unfold classified in Hclass.
  - destruct Hclass as [Hs Hn].
    enter_failed_submit (@eq_refl bool false) Hc Hreply.
    rewrite Hs. cbn -[isNetworkError queueSubmission]. rewrite Hn.
    reflexivity.
  - enter_failed_submit (@eq_refl bool false) Hc Hreply.
    fold (thrown_text thrown). rewrite Hclass. reflexivity.
Qed.

Lemma unclassified_failure_is_surfaced_witness :
  let reply := Responds (mkResponse false None (Some "Invalid title")) in
  fst (Static.submit demo_surroundings demo_feedback
         (demo_app (replying reply) true false)) =
  Returned (mkResponse false None (Some "Invalid title")).
Proof.
  intros reply.
  change (demo_app (replying reply) true false)
    with (mkApp (Some (demo_widget (replying reply) true false))
                demo_platform).
  rewrite (unclassified_failure_is_surfaced demo_surroundings demo_feedback
             (demo_widget (replying reply) true false) demo_platform reply
             eq_refl eq_refl (fun _ => eq_refl) (conj eq_refl eq_refl)).
  reflexivity.
Defined.

Lemma queueSubmission_reliable en sub shot wd e :
  getFaults e = [] -> setFaults e = [] ->
  queueSubmission en sub shot (wd, e) =
  (Returned (mkResponse true (Some ("offline-" ++ fresh_id en)%string) None),
   (wd, set_storage (Json (stored_queue (storage e) ++
                           [queuedItem en (mkItem sub shot)])) e)).
Proof.
  intros Hg Hs. destruct wd as [cfg t busy q].
  unfold queueSubmission, try_catch, bind, on_queue. simpl.
  rewrite enqueue_reliable by (split; assumption). reflexivity.
Qed.

(** X23. A failure taken for a network failure, on reliable storage.  The
    submission is queued and [submit] returns success with the identifier
    ["offline-" ++ id]; [onSubmitError] is not signalled.  The record
    queued after an error answer carries the submission that was sent,
    with the submitter's name and e-mail of the configuration; the record
    queued after a throw carries a submission built again, with a new
    context snapshot and without name and e-mail. *)
Theorem network_failure_is_queued
  (sur : Surroundings) (feedback : Feedback) (wd : FeedbackWidget) (e : Env)
  (reply : TransportReply) :
  isSubmitting wd = false ->
  isConnected (offlineQueue wd) = true ->
  getFaults e = [] ->
  setFaults e = [] ->
  (forall sub, submitFeedback_reply (transport wd) sub = reply) ->
  classified true reply ->
  let sent := built_submission (config wd) sur feedback in
  let queued_submission :=
    match reply with
    | Responds _ => sent
    | Fails _ => rebuilt_submission sur feedback
    end in
  let record :=
    queuedItem (entropy sur)
      (mkItem queued_submission (feedback_screenshotUri feedback)) in
  Static.submit sur feedback (mkApp (Some wd) e) =
  (Returned (mkResponse true
               (Some ("offline-" ++ fresh_id (entropy sur))%string) None),
   mkApp (Some wd)
     (set_storage (Json (stored_queue (storage e) ++ [record]))
        (add_event (TransportCalled sent) (add_event SubmitStart e)))) /\
  (match reply with
   | Responds _ => True
   | Fails _ => submitter_name (submission record) = None /\
                submitter_email (submission record) = None /\
                context (submission record) = Some (context_again sur)
   end).
Proof.
  intros Hb Hc Hg Hs Hreply Hclass.
  destruct wd as [cfg t busy q]. simpl in Hb, Hc, Hreply. subst busy.
  destruct e as [st gf sf nl al tm lg]. simpl in Hg, Hs. subst gf sf.
  destruct reply as [r|thrown]; unfold classified in Hclass; cbv zeta.
  - destruct Hclass as [Hok Hn]. split; [|exact I].
    enter_failed_submit (@eq_refl bool false) Hc Hreply.
    rewrite Hok. cbn -[isNetworkError queueSubmission]. rewrite Hn.
    rewrite queueSubmission_reliable by reflexivity. reflexivity.
  - split; [|repeat split].
    enter_failed_submit (@eq_refl bool false) Hc Hreply.
    fold (thrown_text thrown). rewrite Hclass.
    rewrite queueSubmission_reliable by reflexivity. reflexivity.
Qed.

Lemma network_failure_is_queued_witness :
  let cfg := mkConfig "my-app" "fpk_xxx" (Some "Ada") (Some "ada@example.org") in
  let t := replying (Fails (ErrorObj "Network request failed")) in
  let wd := mkWidget cfg t false
              (set_syncCallback (syncQueuedSubmission t)
                 (new_OfflineQueue (Some 3%Z))) in
  let app' := snd (Static.submit demo_surroundings demo_feedback
                     (mkApp (Some wd) (quiet_env NoItem))) in
  map (fun r => submitter_name (submission r))
      (stored_queue (storage (platform app'))) = [None].
Proof.
  intros cfg t wd app'. subst app'.
  destruct (network_failure_is_queued demo_surroundings demo_feedback wd
              (quiet_env NoItem) (Fails (ErrorObj "Network request failed"))
              eq_refl eq_refl eq_refl eq_refl (fun _ => eq_refl) eq_refl)
    as [H _].
  rewrite H. reflexivity.
Defined.

(** X24. A submission that cannot be queued.  When the widget is idle and
    offline and the write of the queue is rejected, [submit] does not
    throw: it returns a failure carrying the text of the storage error.
    Nothing is stored, [onSubmitError] is not signalled, and the flag is
    released. *)
Theorem rejected_write_fails_the_offline_submit
  (sur : Surroundings) (feedback : Feedback) (wd : FeedbackWidget) (e : Env)
  (rest : list bool) :
  isSubmitting wd = false ->
  isConnected (offlineQueue wd) = false ->
  getFaults e = [] ->
  setFaults e = true :: rest ->
  Static.submit sur feedback (mkApp (Some wd) e) =
  (Returned (mkResponse false None (Some "AsyncStorage failure")),
   mkApp (Some wd) (set_setFaults rest (add_event SubmitStart e))).
Proof.
  intros Hb Hc Hg Hs.
  destruct wd as [cfg t busy [mr cb flag con un ap]].
  simpl in Hb, Hc. subst busy con.
  destruct e as [st gf sf nl al tm lg]. simpl in Hg, Hs. subst gf sf.
  rewrite submit_unfold. simpl isSubmitting. cbv iota.
  destruct st; reflexivity.
Qed.

Lemma rejected_write_fails_the_offline_submit_witness :
  fst (Static.submit demo_surroundings demo_feedback
         (mkApp (instance (demo_app (replying (Fails (NonError "x")))
                                    false false))
                (mkEnv NoItem [] [true] true true 0 []))) =
  Returned (mkResponse false None (Some "AsyncStorage failure")).
Proof.
  change (instance (demo_app (replying (Fails (NonError "x"))) false false))
    with (Some (demo_widget (replying (Fails (NonError "x"))) false false)).
  rewrite (rejected_write_fails_the_offline_submit demo_surroundings
             demo_feedback
             (demo_widget (replying (Fails (NonError "x"))) false false)
             (mkEnv NoItem [] [true] true true 0 []) []
             eq_refl eq_refl eq_refl eq_refl).
  reflexivity.
Defined.

Lemma accepted_submission_is_not_queued_witness :
  let r := mkResponse true (Some "fb_123") None in
  let app := demo_app (replying (Responds r)) true false in
  fst (Static.submit demo_surroundings demo_feedback app) = Returned r /\
  storage (platform (snd (Static.submit demo_surroundings demo_feedback app)))
    = NoItem.
Proof.
  intros r app.
  destruct (accepted_submission_is_not_queued demo_surroundings demo_feedback
              (demo_widget (replying (Responds r)) true false) demo_platform r
              eq_refl eq_refl (fun _ => eq_refl) eq_refl)
    as (H1 & H2 & _).
  split; [exact H1|exact H2].
Defined.

(* ===================================================================== *)
(** * From an offline submission to its delivery *)
(* ===================================================================== *)

Lemma static_submit_pair sur feedback wd e :
  Static.submit sur feedback (mkApp (Some wd) e) =
  (fst (submitFeedback sur feedback (wd, e)),
   mkApp (Some (fst (snd (submitFeedback sur feedback (wd, e)))))
         (snd (snd (submitFeedback sur feedback (wd, e))))).
Proof.
  unfold Static.submit. simpl.
  now destruct (submitFeedback sur feedback (wd, e)) as [r [wd' e']].
Qed.

Lemma platform_event_unfold s wd e :
  platform_event s (mkApp (Some wd) e) =
  (fst (react s (mkWorld (offlineQueue wd) e)),
   mkApp (Some (set_offlineQueue
                  (oq (snd (react s (mkWorld (offlineQueue wd) e)))) wd))
         (env (snd (react s (mkWorld (offlineQueue wd) e))))).
Proof.
  unfold platform_event, on_instance_queue, on_queue. simpl.
  now destruct (react s (mkWorld (offlineQueue wd) e)) as [r w'].
Qed.

(** X25. End to end.  A submission made while the widget is offline, on an
    empty queue and reliable storage, is stored as one record that carries
    the submission as it was built; the reachability notification that
    follows schedules the settle timer and delivers nothing yet; when the
    timer elapses, the pass calls the delivery function on exactly this
    record, and, the transport accepting it, leaves the queue empty. *)
Theorem offline_submission_is_delivered_on_reconnection
  (sur : Surroundings) (feedback : Feedback) (wd : FeedbackWidget) (e : Env)
  (r : SubmissionResponse) :
  isSubmitting wd = false ->
  isConnected (offlineQueue wd) = false ->
  syncInProgress (offlineQueue wd) = false ->
  syncCallback (offlineQueue wd) =
    Some (syncQueuedSubmission (transport wd)) ->
  (0 < effectiveMaxRetries (offlineQueue wd))%Z ->
  getFaults e = [] ->
  setFaults e = [] ->
  stored_queue (storage e) = [] ->
  netListener e = true ->
  timers e = 0%nat ->
  (forall sub, submitFeedback_reply (transport wd) sub = Responds r) ->
  success r = true ->
  truthy (feedback_id r) = true ->
  let record :=
    queuedItem (entropy sur)
      (mkItem (built_submission (config wd) sur feedback)
              (feedback_screenshotUri feedback)) in
  let app1 := snd (Static.submit sur feedback (mkApp (Some wd) e)) in
  let app2 := snd (platform_event (NetInfoChanged (Some true)) app1) in
  let app3 := snd (platform_event TimerElapsed app2) in
  stored_queue (storage (platform app1)) = [record] /\
  timers (platform app2) = 1%nat /\
  deliveries (log (platform app2)) = deliveries (log e) /\
  deliveries (log (platform app3)) = deliveries (log e) ++ [record] /\
  stored_queue (storage (platform app3)) = [] /\
  fst (Static.getPendingCount app3) = Returned 0%nat /\
  fst (Static.isOnline app3) = Returned true.
Proof.
  intros Hb Hoff Hflag Hcb Hmax Hg Hs Hempty Hnl Htm Hreply Hok Hid
         record app1 app2 app3.
  (* the submission *)
  assert (E1 : app1 =
               mkApp (Some wd)
                 (set_storage (Json [record]) (add_event SubmitStart e))).
  { subst app1. rewrite static_submit_pair.
    rewrite (submitFeedback_offline sur feedback wd e Hb Hoff Hg Hs).
    simpl. now rewrite Hempty. }
  (* the notification *)
  set (q1 := set_isConnected true (offlineQueue wd)).
  set (e2 := set_timers 1 (set_storage (Json [record])
                             (add_event SubmitStart e))).
  assert (E2 : app2 = mkApp (Some (set_offlineQueue q1 wd)) e2).
  { subst app2. rewrite E1, platform_event_unfold.
    destruct wd as [cfg t busy [mr cb flag con un ap]].
    destruct e as [st gf sf nl al tm lg].
    simpl in Hoff, Hnl, Htm. subst con nl tm. reflexivity. }
  (* the timer *)
  set (w2 := mkWorld q1 (set_timers 0 e2)).
  assert (E3 : app3 =
               mkApp (Some (set_offlineQueue (oq (snd (sync w2)))
                                             (set_offlineQueue q1 wd)))
                     (env (snd (sync w2)))).
  { subst app3. rewrite E2, platform_event_unfold. reflexivity. }
  set (cb := syncQueuedSubmission (transport wd)).
  assert (Hr2 : reliable w2) by (split; simpl; assumption).
  assert (Hruns : runs (oq w2)).
  { unfold runs, skips. simpl. now rewrite Hflag, Hcb. }
  assert (Hcb2 : syncCallback (oq w2) = Some cb) by exact Hcb.
  destruct (sync_outcome cb w2 Hr2 Hruns Hcb2) as (_ & Ho & Hr3 & Hl & Hq).
  assert (Hkeep : below_limit (effectiveMaxRetries (oq w2)) record &&
                  negb (accepted cb record) = false).
  { unfold accepted, cb, syncQueuedSubmission. simpl submission.
    rewrite Hreply, Hok, Hid. simpl. apply andb_false_r. }
  assert (Hbelow : below_limit (effectiveMaxRetries (oq w2)) record = true).
  { unfold below_limit. simpl. apply Z.ltb_lt. exact Hmax. }
  assert (Hq3 : pending_of (snd (sync w2)) = []).
  { rewrite Hq by (simpl; constructor; [intros []|constructor]).
    change (pending_of w2) with [record]. cbn [filter].
    now rewrite Hkeep. }
  rewrite E1, E2, E3. simpl platform.
  split; [reflexivity|]. split; [reflexivity|].
  split; [simpl; rewrite deliveries_app; simpl; apply app_nil_r|].
  split; [|split; [exact Hq3|split]].
  - rewrite Hl, deliveries_app. cbn [deliveries].
    rewrite deliveries_app, deliveries_of_pass.
    change (pending_of w2) with [record]. cbn [filter].
    rewrite Hbelow.
    change (log (env w2)) with (log e ++ [SubmitStart]).
    rewrite deliveries_app. simpl. now rewrite !app_nil_r.
  - unfold Static.getPendingCount, on_instance_queue, on_queue. simpl.
    rewrite getPendingCount_reliable by apply Hr3.
    simpl fst. f_equal.
    change (List.length (pending_of (snd (sync w2))) = 0%nat).
    now rewrite Hq3.
  - unfold Static.isOnline, on_instance_queue, on_queue, getOnlineStatus, gets.
    simpl. now rewrite Ho.
Qed.

Lemma offline_submission_is_delivered_on_reconnection_witness :
  let r := mkResponse true (Some "fb_123") None in
  let app := demo_app (replying (Responds r)) false false in
  let app1 := snd (Static.submit demo_surroundings demo_feedback app) in
  let app2 := snd (platform_event (NetInfoChanged (Some true)) app1) in
  let app3 := snd (platform_event TimerElapsed app2) in
  stored_queue (storage (platform app3)) = [] /\
  fst (Static.getPendingCount app3) = Returned 0%nat.
Proof.
  intros r app.
  destruct (offline_submission_is_delivered_on_reconnection
              demo_surroundings demo_feedback
              (demo_widget (replying (Responds r)) false false)
              demo_platform r
              eq_refl eq_refl eq_refl eq_refl eq_refl eq_refl eq_refl eq_refl
              eq_refl eq_refl (fun _ => eq_refl) eq_refl eq_refl)
    as (_ & _ & _ & _ & H5 & H6 & _).
  intros app1 app2 app3. split; [exact H5|exact H6].
Defined.

(* ===================================================================== *)
(** * The transport's answers *)
(* ===================================================================== *)

Lemma numeral_uint d c :
  In c (list_ascii_of_string (NilEmpty.string_of_uint d)) -> numeral c = true.
Proof.
  induction d; simpl; [intros []|intros [<-|H]; auto ..].
Qed.

Lemma numeral_string_of_Z z c :
  In c (list_ascii_of_string (string_of_Z z)) -> numeral c = true.
Proof.
  unfold string_of_Z, NilZero.string_of_int.
  destruct (Z.to_int z) as [d|d].
  - unfold NilZero.string_of_uint. destruct d; try apply numeral_uint.
    simpl. intros [<-|[]]. reflexivity.
  - simpl. intros [<-|H]; [reflexivity|]. revert H.
    unfold NilZero.string_of_uint. destruct d; try apply numeral_uint.
    simpl. intros [<-|[]]. reflexivity.
Qed.

Lemma lower_char_numeral c : numeral c = true -> lower_char c = c.
Proof.
  destruct c as [[] [] [] [] [] [] [] []]; vm_compute;
    solve [reflexivity | discriminate].
Qed.

Lemma lowered_numerals s c :
  (forall a, In a (list_ascii_of_string s) -> numeral a = true) ->
  In c (list_ascii_of_string (toLowerCase s)) -> numeral c = true.
Proof.
  induction s as [|a s IH]; simpl; intros Hs.
  - intros [].
  - intros [<-|H].
    + rewrite lower_char_numeral; apply Hs; now left.
    + apply IH; [|exact H]. intros b Hb. apply Hs. now right.
Qed.

Lemma includes_letter_in_numerals s c rest :
  (forall a, In a (list_ascii_of_string s) -> numeral a = true) ->
  numeral c = false ->
  includes (toLowerCase s) (String c rest) = false.
Proof.
  intros Hs Hc.
  destruct (includes (toLowerCase s) (String c rest)) eqn:H; [|reflexivity].
  apply includes_head, (lowered_numerals s c Hs) in H. congruence.
Qed.

Lemma status_prefix_has_no_marker x m :
  In m networkErrors ->
  includes ("request failed with status " ++ x) m = includes x m.
Proof.
  unfold networkErrors.
  intros [<-|[<-|[<-|[<-|[<-|[]]]]]]; reflexivity.
Qed.

(** The text the transport gives to an error answer that carries none is
    never taken for a network failure, whatever the status. *)
Lemma status_text_is_unclassified status :
  isNetworkError
    (Some ("Request failed with status " ++ string_of_Z status)%string) =
  false.
Proof.
  pose proof (numeral_string_of_Z status) as Hn.
  change (existsb
            (fun e => includes ("request failed with status " ++
                                toLowerCase (string_of_Z status)) e)
            networkErrors = false).
  apply not_true_is_false. rewrite existsb_exists.
  intros (m & Hin & Hm).
  rewrite status_prefix_has_no_marker in Hm by exact Hin.
  unfold networkErrors in Hin.
  destruct Hin as [<-|[<-|[<-|[<-|[<-|[]]]]]];
    rewrite includes_letter_in_numerals in Hm;
    solve [discriminate Hm | exact Hn | reflexivity].
Qed.

(* ===================================================================== *)
(** * The widget over the HTTP transport *)
(* ===================================================================== *)

(** X26. An HTTP error answer without an error text.  The transport
    reports it as "Request failed with status N"; for every status N this
    text holds none of the markers of [isNetworkError], so that a widget
    that is idle and online surfaces the failure: [submit] returns it,
    signals [onSubmitError] with it, and queues nothing, whether the status
    is 400 or 503. *)
Theorem http_error_without_text_is_surfaced
  (sur : Surroundings) (feedback : Feedback) (wd : FeedbackWidget) (e : Env)
  (net : FeedbackSubmission -> Exchange)
  (upload : string -> string -> bool * option string) (a : HttpAnswer) :
  isSubmitting wd = false ->
  isConnected (offlineQueue wd) = true ->
  transport wd = http_transport net upload ->
  net (built_submission (config wd) sur feedback) = Answered a ->
  http_ok a = false ->
  truthy (data_error a) = false ->
  let text :=
    ("Request failed with status " ++ string_of_Z (http_status a))%string in
  Static.submit sur feedback (mkApp (Some wd) e) =
  (Returned (mkResponse false None (Some text)),
   mkApp (Some wd)
     (add_event (SubmitError (ErrorObj text))
        (add_event
           (TransportCalled (built_submission (config wd) sur feedback))
           (add_event SubmitStart e)))).
Proof.
  intros Hb Hc Ht Hnet Hok Herr text.
  destruct wd as [cfg t busy q]. simpl in Hb, Hc, Ht, Hnet. subst busy t.
  unfold built_submission in Hnet.
  rewrite submit_unfold. simpl isSubmitting. cbv iota.
  unfold submitFeedback_attempt, try_finally, try_catch, bind, gets,
    on_queue, getOnlineStatus, transport_submitFeedback, http_transport.
  cbn -[isNetworkError queueSubmission string_of_Z String.append].
  rewrite Hc. cbn -[isNetworkError queueSubmission string_of_Z String.append].
  rewrite Hnet. cbn -[isNetworkError queueSubmission string_of_Z String.append].
  rewrite Hok.
  cbn -[isNetworkError queueSubmission string_of_Z String.append or_default].
  assert (E : forall d, or_default (data_error a) d = d)
    by (intros d; unfold or_default; now rewrite Herr).
  rewrite !E, status_text_is_unclassified.
  reflexivity.
Qed.

Lemma http_error_without_text_is_surfaced_witness :
  let net := fun _ : FeedbackSubmission =>
               Answered (mkAnswer false 503 None None) in
  let t := http_transport net (fun _ _ => (true, None)) in
  fst (Static.submit demo_surroundings demo_feedback
         (mkApp (Some (demo_widget t true false)) demo_platform)) =
  Returned (mkResponse false None (Some "Request failed with status 503")).
Proof.
  intros net t.
  rewrite (http_error_without_text_is_surfaced demo_surroundings
             demo_feedback (demo_widget t true false) demo_platform net
             (fun _ _ => (true, None)) (mkAnswer false 503 None None)
             eq_refl eq_refl eq_refl eq_refl eq_refl eq_refl).
  reflexivity.
Defined.

Lemma accepted_iff_confirmed net upload r :
  accepted (syncQueuedSubmission (http_transport net upload)) r =
  confirmed (net (submission r)).
Proof.
  unfold accepted, syncQueuedSubmission, http_transport, confirmed. simpl.
  destruct (net (submission r)) as [thrown|[ok status err fid]]; simpl;
    [reflexivity|].
  destruct ok; simpl; [|reflexivity].
  now destruct (truthy fid).
Qed.

(** X27. Which answers empty the queue.  With the HTTP transport behind
    the delivery function, on reliable storage and with unique identifiers,
    a pass keeps, with [retryCount] raised by one, exactly the records
    below the retry limit whose request was not confirmed: the request
    broke, the answer was not [ok], or the answer was [ok] but carried no
    [feedback_id]. *)
Theorem queue_drains_only_on_confirmed_answers
  (net : FeedbackSubmission -> Exchange)
  (upload : string -> string -> bool * option string) (w : World) :
  reliable w ->
  runs (oq w) ->
  syncCallback (oq w) =
    Some (syncQueuedSubmission (http_transport net upload)) ->
  NoDup (ids (pending_of w)) ->
  pending_of (snd (sync w)) =
  map bump
      (filter (fun r =>
                 (retryCount r <? effectiveMaxRetries (oq w))%Z &&
                 negb (confirmed (net (submission r))))
              (pending_of w)).
Proof.
  intros Hr Hruns Hcb Hnd.
  destruct (sync_outcome _ w Hr Hruns Hcb) as (_ & _ & _ & _ & H).
  rewrite (H Hnd). f_equal. apply filter_ext. intros r.
  unfold below_limit. now rewrite accepted_iff_confirmed.
Qed.

Lemma queue_drains_only_on_confirmed_answers_witness :
  let net := fun _ : FeedbackSubmission =>
               Answered (mkAnswer true 200 None None) in
  let cb := syncQueuedSubmission
              (http_transport net (fun _ _ => (true, None))) in
  pending_of (snd (sync (demo_world cb (Json [demo_record])))) =
  [bump demo_record].
Proof.
  intros net cb.
  rewrite (queue_drains_only_on_confirmed_answers net
             (fun _ _ => (true, None))).
  - reflexivity.
  - split; reflexivity.
  - reflexivity.
  - reflexivity.
  - simpl. constructor; [intros []|constructor].
Defined.

(* ===================================================================== *)
(** * The feedback form *)
(* ===================================================================== *)

Lemma trimStart_fixed n : forall s,
  (String.length s <= n)%nat -> trimStart (trimStart s) = trimStart s.
Proof.
  induction n as [|n IH]; intros s Hn.
  - destruct s; [reflexivity|simpl in Hn; lia].
  - destruct s as [|a r1]; [reflexivity|]. simpl in Hn.
    cbn [trimStart]. destruct (is_space a) eqn:Ha; [apply IH; lia|].
    destruct r1 as [|b r2].
    { cbn [trimStart]. now rewrite Ha. }
    simpl in Hn. destruct (is_space2 a b) eqn:Hab; [apply IH; lia|].
    destruct r2 as [|c r3].
    { cbn [trimStart]. now rewrite Ha, Hab. }
    simpl in Hn. destruct (is_space3 a b c) eqn:Habc; [apply IH; lia|].
    cbn [trimStart]. now rewrite Ha, Hab, Habc.
Qed.

Lemma trimEnd_empty s : trimEnd s = "" <-> blank s = true.
Proof.
  destruct s as [|c rest]; [now split|].
  cbn [trimEnd]. destruct (blank (String c rest)); split;
    solve [reflexivity | discriminate].
Qed.

(** [!text.trim()] holds of the blank texts. *)
Lemma truthy_trim s : truthy (Some (trim s)) = negb (blank s).
Proof.
  assert (E : blank (trimStart s) = blank s)
    by (unfold blank; now rewrite (trimStart_fixed _ s (le_n _))).
  rewrite <- E. unfold trim.
  pose proof (trimEnd_empty (trimStart s)) as H.
  destruct (trimEnd (trimStart s)) eqn:Ht.
  - now rewrite (proj1 H eq_refl).
  - destruct (blank (trimStart s)); [|reflexivity].
    now discriminate (proj2 H eq_refl).
Qed.

(** White space outside ASCII is removed at both ends and kept inside;
    U+0085, U+180E and U+200B are no white space. *)
Example trim_removes_unicode_white_space :
  trim (utf8 [194; 160; 32] ++ "a" ++ utf8 [226; 128; 137] ++ "b" ++
        utf8 [226; 128; 168; 9; 239; 187; 191]) =
    ("a" ++ utf8 [226; 128; 137] ++ "b")%string /\
  forallb (fun bytes => blank (utf8 bytes))
    [[9]; [10]; [11]; [12]; [13]; [32]; [194; 160]; [225; 154; 128];
     [226; 128; 128]; [226; 128; 129]; [226; 128; 130]; [226; 128; 131];
     [226; 128; 132]; [226; 128; 133]; [226; 128; 134]; [226; 128; 135];
     [226; 128; 136]; [226; 128; 137]; [226; 128; 138]; [226; 128; 168];
     [226; 128; 169]; [226; 128; 175]; [226; 129; 159]; [227; 128; 128];
     [239; 187; 191]] = true /\
  existsb (fun bytes => blank (utf8 bytes))
    [[194; 133]; [225; 160; 142]; [226; 128; 139]; [195; 160]; [97]] = false.
Proof. repeat split; vm_compute; reflexivity. Qed.



Lemma handleSubmit_valid sur shot form app :
  blank (form_feedbackTitle form) = false ->
  blank (form_description form) = false ->
  let feedback :=
    mkFeedback (form_type form) (form_priority form)
      (trim (form_feedbackTitle form)) (trim (form_description form)) shot in
  handleSubmit sur shot (form, app) =
  match Static.submit sur feedback app with
  | (Returned response, app') =>
      (Returned tt,
       (setIsSubmitting false
          (if success response
           then setTimeout_close
                  (setSuccess true
                     (setError None (setIsSubmitting true form)))
           else setError (Some (or_default (error response)
                                  "Failed to submit feedback"))
                  (setError None (setIsSubmitting true form))),
        app'))
  | (Threw err, app') =>
      (Returned tt,
       (setIsSubmitting false
          (setError (Some (match err with
                           | ErrorObj message => message
                           | NonError _ => "An error occurred"
                           end))
             (setError None (setIsSubmitting true form))),
        app'))
  end.
Proof.
  intros Ht Hd feedback.
  unfold handleSubmit, bind, gets. cbn [fst snd].
  rewrite !truthy_trim, Ht, Hd. cbn [negb].
  unfold on_form, modify, try_finally, try_catch, bind, FeedbackWidget_submit.
  cbn [fst snd]. fold feedback.
  destruct (Static.submit sur feedback app) as [[response|err] app'].
  - now destruct (success response).
  - reflexivity.
Qed.

(** X28. Blank fields.  When the title or the description of the form is
    empty or holds white space only (the white space and line terminators
    of ECMAScript, U+00A0 and U+FEFF among them), [handleSubmit] sets the error text,
    "Please enter a title" if the title is blank and "Please enter a
    description" otherwise, and returns: [FeedbackWidget.submit] is not
    called, the process is untouched, and the submitting and success flags
    of the form stay as they were. *)
Theorem blank_field_is_rejected_before_submit
  (sur : Surroundings) (shot : option string) (form : FormState)
  (app : App) :
  blank (form_feedbackTitle form) = true \/
  blank (form_description form) = true ->
  handleSubmit sur shot (form, app) =
  (Returned tt,
   (setError (Some (if blank (form_feedbackTitle form)
                    then "Please enter a title"
                    else "Please enter a description")) form,
    app)).
Proof.
  intros H. unfold handleSubmit, bind, gets. cbn [fst snd].
  rewrite !truthy_trim.
  destruct (blank (form_feedbackTitle form)); [reflexivity|].
  destruct H as [H|H]; [discriminate H|]. now rewrite H.
Qed.

Lemma blank_field_is_rejected_before_submit_witness :
  let form := demo_form (utf8 [194; 160]) "" in
  let app := demo_app (replying (Responds (mkResponse true (Some "fb1") None)))
                      true false in
  handleSubmit demo_surroundings None (form, app) =
  (Returned tt, (setError (Some "Please enter a title") form, app)).
Proof.
  intros form app.
  apply (blank_field_is_rejected_before_submit demo_surroundings None form
           app).
  left. reflexivity.
Defined.



(** X30. The form while offline.  With fields that are not blank, a widget
    that is idle and offline and storage that is reliable, [handleSubmit]
    shows success and appends one record to the stored queue, whose title
    and description are the trimmed texts of the form and whose screenshot
    is the one of the form; the transport is not called. *)
Theorem offline_form_submit_queues_trimmed_text
  (sur : Surroundings) (shot : option string) (form : FormState)
  (wd : FeedbackWidget) (e : Env) :
  blank (form_feedbackTitle form) = false ->
  blank (form_description form) = false ->
  isSubmitting wd = false ->
  isConnected (offlineQueue wd) = false ->
  getFaults e = [] -> setFaults e = [] ->
  let feedback :=
    mkFeedback (form_type form) (form_priority form)
      (trim (form_feedbackTitle form)) (trim (form_description form)) shot in
  let record :=
    queuedItem (entropy sur)
      (mkItem (built_submission (config wd) sur feedback) shot) in
  handleSubmit sur shot (form, mkApp (Some wd) e) =
  (Returned tt,
   (setIsSubmitting false
      (setTimeout_close
         (setSuccess true (setError None (setIsSubmitting true form)))),
    mkApp (Some wd)
      (set_storage (Json (stored_queue (storage e) ++ [record]))
         (add_event SubmitStart e)))).
Proof.
  intros Ht Hd Hb Hoff Hg Hs feedback record.
  rewrite (handleSubmit_valid sur shot form _ Ht Hd). cbv zeta.
  fold feedback. rewrite static_submit_pair.
  rewrite (submitFeedback_offline sur feedback wd e Hb Hoff Hg Hs).
  reflexivity.
Qed.

Lemma offline_form_submit_queues_trimmed_text_witness :
  let form := demo_form (utf8 [194; 160] ++ " App crashes ")
                        ("It crashes on launch " ++ utf8 [226; 128; 168]) in
  let t := replying (Fails (ErrorObj "unreachable")) in
  let out := handleSubmit demo_surroundings None
               (form, mkApp (Some (demo_widget t false false))
                            demo_platform) in
  map (fun r => title (submission r))
      (stored_queue (storage (platform (snd (snd out))))) =
  ["App crashes"].
Proof.
  intros form t out. subst out.
  rewrite (offline_form_submit_queues_trimmed_text demo_surroundings None
             form (demo_widget t false false) demo_platform
             eq_refl eq_refl eq_refl eq_refl eq_refl eq_refl).
  reflexivity.
Defined.

(* ===================================================================== *)
(** * The pass with observers that throw *)
(* ===================================================================== *)

(** With observers that return, the pass is the one of the sync engine
    above. *)
Lemma silent_for_each pending s :
  Observed.for_each silent pending s = for_each pending s.
Proof.
  revert s. induction pending as [|it rest IH]; intros s; [reflexivity|].
  simpl.
  change (Observed.iteration silent (mkLocals it (fst s), snd s))
    with (iteration (mkLocals it (fst s), snd s)).
  destruct (iteration (mkLocals it (fst s), snd s)) as [[[]|e] [l w']];
    [apply IH|reflexivity].
Qed.

Lemma silent_sync w : Observed.sync silent w = sync w.
Proof.
  unfold Observed.sync, sync. destruct (skips (oq w)); [reflexivity|].
  unfold Observed.observe, silent. cbv zeta.
  unfold try_finally_with, try_finally, Observed.drain, drain.
  cbn [fst snd].
  destruct (getPending _) as [[pending|e] w1]; cbn [fst snd].
  - rewrite silent_for_each.
    destruct (for_each pending _) as [[[]|e] [c w2]]; reflexivity.
  - reflexivity.
Qed.

Section ObservedFrame.

Variable observers : Observers.
Variable P : World -> Prop.
Hypothesis P_stable : stable P.

Lemma observe_keeps ev : keeps P (Observed.observe observers ev).
Proof.
  intros w H. unfold Observed.observe. cbv zeta.
  pose proof (stable_logs P P_stable w ev H).
  now destruct (observers (log (env w)) ev).
Qed.

Lemma observed_iteration_keeps :
  keeps (in_body P) (Observed.iteration observers).
Proof.
  unfold Observed.iteration, the_item, incr_failed, incr_succeeded,
    incr_retryCount.
  repeat first
    [ apply observe_keeps
    | apply (emit_keeps _ P_stable)
    | apply (remove_keeps _ P_stable)
    | apply (update_keeps _ P_stable)
    | apply (callSyncCallback_keeps _ P_stable)
    | apply on_locals_keeps
    | apply lift_keeps
    | apply keeps_gets
    | apply keeps_ret
    | apply keeps_if
    | apply keeps_try_catch; [|intros ?]
    | apply keeps_bind; [|intros ?] ].
Qed.

Lemma observed_for_each_keeps pending :
  keeps (in_loop P) (Observed.for_each observers pending).
Proof.
  induction pending as [|it rest IH]; intros [c w] H; simpl; [exact H|].
  pose proof (observed_iteration_keeps (mkLocals it c, w) H) as Hi.
  destruct (Observed.iteration observers (mkLocals it c, w))
    as [[[]|e] [l w']]; simpl in *; [|exact Hi].
  now apply IH.
Qed.

Lemma observed_drain_keeps : keeps (in_loop P) (Observed.drain observers).
Proof.
  intros [c w] H. unfold Observed.drain, getPending. cbn [fst snd].
  pose proof (getQueue_keeps _ P_stable w H) as Hq.
  destruct (getQueue w) as [[pending|e] w1]; cbn [fst snd] in *;
    [|exact Hq].
  exact (observed_for_each_keeps pending (c, w1) Hq).
Qed.

End ObservedFrame.

(** The world a pass that ran ends in: the loop has left the fields of the
    queue object and the beginning of the log as they were; the [finally]
    block has released the flag and called [onSyncComplete] last. *)
Lemma observed_pass_finishes observers w1 :
  let out := try_finally_with (Observed.drain observers)
               (Observed.finish observers) (mkCounts 0 0, w1) in
  oq (snd (snd out)) = set_syncInProgress false (oq w1) /\
  exists mid s f,
    log (env (snd (snd out))) = log (env w1) ++ mid ++ [SyncComplete s f].
Proof.
  cbv zeta. unfold try_finally_with.
  pose proof (observed_drain_keeps observers _ (stable_oq (oq w1))
                (mkCounts 0 0, w1) eq_refl) as Ho.
  assert (H0 : exists evs, log (env w1) = log (env w1) ++ evs)
    by (exists []; now rewrite app_nil_r).
  pose proof (observed_drain_keeps observers _
                (stable_log_extends (log (env w1)))
                (mkCounts 0 0, w1) H0) as Hl.
  destruct (Observed.drain observers (mkCounts 0 0, w1)) as [r [c w2]].
  unfold in_loop in Ho, Hl. cbn [fst snd] in Ho, Hl.
  destruct Hl as (mid & Hl).
  unfold Observed.finish, Observed.observe. cbn [fst snd]. cbv zeta.
  destruct (observers _ (SyncComplete (succeeded c) (failed c)));
    cbn [fst snd oq env on_env on_oq log add_event];
    (split; [now rewrite Ho|]);
    exists mid, (succeeded c), (failed c);
    now rewrite Hl, <- app_assoc.
Qed.

(** X13. The in-progress flag and the observers of a pass, which may
    throw.  [sync()] sets the flag and calls [onSyncStart] before its
    [try] statement.  When [onSyncStart] returns, the flag is released on
    every path, whatever the storage, the delivery function and the other
    observers do, also when [sync()] throws: the fields of the queue object
    are after the call what they were before it, and [onSyncComplete] is
    the last call of the pass.  When [onSyncStart] throws, [sync()] throws
    what it threw with the flag still set, and from then on every call of
    [sync()] is skipped: it returns [{succeeded: 0, failed: 0}] and does
    nothing, whatever its observers. *)
Theorem sync_releases_the_flag_unless_onSyncStart_throws
  (observers : Observers) (w : World) :
  (observers (log (env w)) SyncStart = None ->
   oq (snd (Observed.sync observers w)) = oq w /\
   (runs (oq w) ->
    exists mid s f,
      log (env (snd (Observed.sync observers w))) =
      log (env w) ++ SyncStart :: mid ++ [SyncComplete s f])) /\
  (forall thrown,
     runs (oq w) -> observers (log (env w)) SyncStart = Some thrown ->
     let locked := on_env (add_event SyncStart)
                          (on_oq (set_syncInProgress true) w) in
     Observed.sync observers w = (Threw thrown, locked) /\
     forall others e,
       Observed.sync others (mkWorld (oq locked) e) =
       (Returned (mkCounts 0 0), mkWorld (oq locked) e)).
Proof.
  split.
  - intros Hstart. unfold runs.
    destruct (skips (oq w)) eqn:Hskip.
    { unfold Observed.sync. rewrite Hskip.
      split; [reflexivity|discriminate]. }
    destruct (runs_inv _ Hskip) as (_ & Hflag & _).
    set (w1 := on_env (add_event SyncStart)
                      (on_oq (set_syncInProgress true) w)).
    assert (E : Observed.sync observers w =
                let (r, s) :=
                  try_finally_with (Observed.drain observers)
                    (Observed.finish observers) (mkCounts 0 0, w1) in
                match r with
                | Returned _ => (Returned (fst s), snd s)
                | Threw e => (Threw e, snd s)
                end).
    { unfold Observed.sync. rewrite Hskip.
      unfold Observed.observe at 1. cbv zeta. cbn [on_oq env].
      now rewrite Hstart. }
    rewrite E.
    destruct (observed_pass_finishes observers w1) as (Ho & mid & s & f & Hl).
    cbv zeta in Ho, Hl.
    destruct (try_finally_with _ _ (mkCounts 0 0, w1)) as [r [c w2]].
    cbn [fst snd] in Ho, Hl.
    assert (Hq : oq w2 = oq w) by (rewrite Ho; now apply unflag).
    split.
    + now destruct r.
    + intros _. exists mid, s, f.
      destruct r; cbn [fst snd]; rewrite Hl; subst w1; simpl;
        now rewrite <- app_assoc.
  - intros thrown Hruns Hstart locked. split.
    + unfold Observed.sync. rewrite Hruns.
      unfold Observed.observe. cbv zeta. cbn [on_oq env].
      now rewrite Hstart.
    + intros others e. unfold Observed.sync.
      rewrite skips_true; [reflexivity|]. right. left. reflexivity.
Qed.

Lemma sync_releases_the_flag_unless_onSyncStart_throws_witness :
  let observers := throwing is_SyncStart (ErrorObj "observer failed") in
  let w := demo_world accepts (Json [demo_record]) in
  fst (Observed.sync observers w) = Threw (ErrorObj "observer failed") /\
  syncInProgress (oq (snd (Observed.sync observers w))) = true /\
  Observed.sync silent (snd (Observed.sync observers w)) =
    (Returned (mkCounts 0 0), snd (Observed.sync observers w)).
Proof.
  intros observers w.
  destruct (sync_releases_the_flag_unless_onSyncStart_throws observers w)
    as [_ H].
  destruct (H (ErrorObj "observer failed") eq_refl eq_refl) as [H1 H2].
  rewrite H1. split; [reflexivity|]. split; [reflexivity|].
  apply (H2 silent).
Defined.

(** An [onSubmissionFailed] that throws at an eviction makes [sync()]
    throw, the flag released and the record still queued; an
    [onSubmissionSynced] that throws is caught by the handler of the loop
    body, and the record, delivered and removed, is counted as failed. *)
Example observers_that_throw_inside_a_pass :
  let on_failed :=
    throwing (fun ev => match ev with
                        | SubmissionFailed _ _ => true
                        | _ => false
                        end) (ErrorObj "observer failed") in
  let on_synced :=
    throwing (fun ev => match ev with
                        | SubmissionSynced _ => true
                        | _ => false
                        end) (ErrorObj "observer failed") in
  let exhausted := bump (bump (bump demo_record)) in
  Observed.sync on_failed (demo_world refuses (Json [exhausted])) =
    (Threw (ErrorObj "observer failed"),
     mkWorld (demo_queue refuses)
       (mkEnv (Json [exhausted]) [] [] false false 0
          [SyncStart;
           SubmissionFailed (id demo_record) "Max retries exceeded";
           SyncComplete 0 0])) /\
  Observed.sync on_synced (demo_world accepts (Json [demo_record])) =
    (Returned (mkCounts 0 1),
     mkWorld (demo_queue accepts)
       (mkEnv (Json []) [] [] false false 0
          [SyncStart; DeliveryCalled demo_record;
           SubmissionSynced (id demo_record);
           SubmissionFailed (id demo_record) "observer failed";
           Pause 100; SyncComplete 0 1])).
Proof. split; vm_compute; reflexivity. Qed.

(* ===================================================================== *)
(** * The facade with callbacks that throw *)
(* ===================================================================== *)

(** With callbacks that return, [submit] is the one of the facade above. *)
Lemma silent_submit sur feedback app :
  Observed.submit silent sur feedback app = Static.submit sur feedback app.
Proof. reflexivity. Qed.

Section ObservedWidget.

Variable callbacks : Observers.
Variable wd0 : FeedbackWidget.

Lemma call_keeps ev : keeps (same_widget wd0) (Observed.call callbacks ev).
Proof.
  intros [wd e] H. unfold Observed.call. cbv zeta.
  now destruct (callbacks _ ev).
Qed.

Lemma observed_attempt_keeps sur feedback :
  keeps (same_widget wd0)
        (Observed.submitFeedback_attempt callbacks sur feedback).
Proof.
  unfold Observed.submitFeedback_attempt.
  apply keeps_try_finally; [|now intros [wd e]].
  repeat first
    [ apply queueSubmission_keeps
    | apply call_keeps
    | apply notify_keeps
    | apply transport_submitFeedback_keeps
    | apply transport_uploadScreenshot_keeps
    | apply keeps_gets
    | apply keeps_ret
    | apply on_queue_keeps; intros ?; apply keeps_gets
    | apply keeps_if
    | match goal with
      | |- keeps _ (match ?x with _ => _ end) => destruct x
      end
    | apply keeps_try_catch; [|intros ?; cbv zeta]
    | apply keeps_bind; [|intros ?] ].
Qed.

Lemma observed_attempt_returns sur feedback :
  (forall l err, callbacks l (SubmitError err) = None) ->
  returns (same_widget wd0)
          (Observed.submitFeedback_attempt callbacks sur feedback).
Proof.
  intros Herr s Hs.
  pose proof (observed_attempt_keeps sur feedback s Hs) as Hk.
  revert Hk. unfold Observed.submitFeedback_attempt, try_finally.
  match goal with
  | |- context [let (r, s') := try_catch ?m ?h s in _] =>
      set (body := m); set (handler := h)
  end.
  intros _. unfold try_catch.
  assert (Hbody : keeps (same_widget wd0) body).
  { subst body.
    repeat first
      [ apply queueSubmission_keeps
      | apply call_keeps
      | apply notify_keeps
      | apply transport_submitFeedback_keeps
      | apply transport_uploadScreenshot_keeps
      | apply keeps_gets
      | apply keeps_ret
      | apply on_queue_keeps; intros ?; apply keeps_gets
      | apply keeps_if
      | match goal with
        | |- keeps _ (match ?x with _ => _ end) => destruct x
        end
      | apply keeps_bind; [|intros ?] ]. }
  specialize (Hbody s Hs).
  destruct (body s) as [[response|thrown] s1]; cbn [fst snd] in *.
  - now exists response.
  - subst handler. cbv beta zeta.
    destruct (isNetworkError _).
    + destruct (queueSubmission_returns wd0 (entropy sur)
                  (mkSubmission (feedback_type feedback)
                     (feedback_priority feedback) (feedback_title feedback)
                     (feedback_description feedback) None None
                     (Some SDK_VERSION) (Some (context_again sur)))
                  (feedback_screenshotUri feedback) s1 Hbody) as (a & Ha).
      destruct (queueSubmission _ _ _ s1) as [r s2]. cbn [fst] in *.
      now exists a.
    + unfold bind, Observed.call. cbv zeta. rewrite Herr.
      eexists. reflexivity.
Qed.

End ObservedWidget.

Lemma observed_attempt_releases callbacks sur feedback s :
  isSubmitting
    (fst (snd (Observed.submitFeedback_attempt callbacks sur feedback s))) =
  false.
Proof.
  unfold Observed.submitFeedback_attempt, try_finally.
  match goal with |- context [let (r, s') := ?m s in _] => destruct (m s) end.
  reflexivity.
Qed.

Lemma observed_submit_unfold callbacks sur feedback wd e :
  isSubmitting wd = false ->
  callbacks (log e) SubmitStart = None ->
  let s := (set_isSubmitting true wd, add_event SubmitStart e) in
  let out := Observed.submitFeedback_attempt callbacks sur feedback s in
  Observed.submit callbacks sur feedback (mkApp (Some wd) e) =
  (fst out, mkApp (Some (fst (snd out))) (snd (snd out))).
Proof.
  intros Hb Hstart s out. subst out s.
  unfold Observed.submit, Observed.submitFeedback. cbn [instance platform fst].
  rewrite Hb. unfold bind, modify, Observed.call. cbv zeta. cbn [fst snd].
  rewrite Hstart.
  now destruct (Observed.submitFeedback_attempt callbacks sur feedback _)
    as [r [wd' e']].
Qed.

(** X20. [submit] and the callbacks of the configuration, which may throw.
    [submitFeedback] sets the single-flight flag and calls [onSubmitStart]
    before its [try] statement.  When [onSubmitStart] and [onSubmitError]
    return, [submit] always answers: whatever the transport, the storage
    and [onSubmitSuccess] do, it returns a response and throws nothing.
    When [onSubmitStart] returns, [submit] leaves the flag as it found it,
    also when it throws, and changes neither the configuration nor the
    fields of the queue object.  When [onSubmitStart] throws on an idle
    instance, [submit] throws what it threw with the flag still set, and
    from then on every [submit] on the instance is rejected with
    "Submission already in progress", whatever its callbacks. *)
Theorem submit_answers_unless_a_callback_throws
  (callbacks : Observers) (sur : Surroundings) (feedback : Feedback)
  (app : App) :
  (callbacks (log (platform app)) SubmitStart = None ->
   (forall l err, callbacks l (SubmitError err) = None) ->
   exists response app',
     Observed.submit callbacks sur feedback app = (Returned response, app')) /\
  (callbacks (log (platform app)) SubmitStart = None ->
   match instance app with
   | None => snd (Observed.submit callbacks sur feedback app) = app
   | Some wd =>
       exists wd',
         instance (snd (Observed.submit callbacks sur feedback app)) =
           Some wd' /\
         isSubmitting wd' = isSubmitting wd /\
         config wd' = config wd /\
         transport wd' = transport wd /\
         offlineQueue wd' = offlineQueue wd
   end) /\
  (forall wd thrown,
     instance app = Some wd -> isSubmitting wd = false ->
     callbacks (log (platform app)) SubmitStart = Some thrown ->
     let locked := set_isSubmitting true wd in
     Observed.submit callbacks sur feedback app =
       (Threw thrown,
        mkApp (Some locked) (add_event SubmitStart (platform app))) /\
     forall others sur' feedback' e,
       Observed.submit others sur' feedback' (mkApp (Some locked) e) =
       (Returned (mkResponse false None
                    (Some "Submission already in progress")),
        mkApp (Some locked) e)).
Proof.
  destruct app as [[wd|] e]; cbn [instance platform].
  - split; [|split].
    + intros Hstart Herr. destruct (isSubmitting wd) eqn:Hb.
      * unfold Observed.submit, Observed.submitFeedback.
        cbn [instance platform fst]. rewrite Hb. now eexists _, _.
      * rewrite (observed_submit_unfold callbacks sur feedback wd e Hb Hstart).
        cbv zeta.
        set (s := (set_isSubmitting true wd, add_event SubmitStart e)).
        assert (Hs : same_widget wd s) by (repeat split).
        destruct (observed_attempt_returns callbacks wd sur feedback Herr s Hs)
          as (a & Ha).
        rewrite Ha. now eexists _, _.
    + intros Hstart. destruct (isSubmitting wd) eqn:Hb.
      * unfold Observed.submit, Observed.submitFeedback.
        cbn [instance platform fst snd]. rewrite Hb. cbn [instance snd fst].
        exists wd. now repeat split.
      * rewrite (observed_submit_unfold callbacks sur feedback wd e Hb Hstart).
        cbv zeta.
        set (s := (set_isSubmitting true wd, add_event SubmitStart e)).
        assert (Hs : same_widget wd s) by (repeat split).
        destruct (observed_attempt_keeps callbacks wd sur feedback s Hs)
          as (Hc & Ht & Hq).
        pose proof (observed_attempt_releases callbacks sur feedback s) as Hr.
        cbn [snd instance]. eexists. split; [reflexivity|].
        now repeat split.
    + intros wd' thrown [= <-] Hb Hstart. split.
      * unfold Observed.submit, Observed.submitFeedback.
        cbn [instance platform fst]. rewrite Hb.
        unfold bind, modify, Observed.call. cbv zeta. cbn [fst snd].
        now rewrite Hstart.
      * intros others sur' feedback' e'. reflexivity.
  - split; [|split].
    + intros _ _. now eexists _, _.
    + intros _. reflexivity.
    + intros wd thrown [=].
Qed.

Lemma submit_answers_unless_a_callback_throws_witness :
  let callbacks := throwing is_SubmitStart (ErrorObj "callback failed") in
  let t := replying (Responds (mkResponse true (Some "fb_1") None)) in
  let app := mkApp (Some (demo_widget t true false)) demo_platform in
  let app' := snd (Observed.submit callbacks demo_surroundings demo_feedback
                     app) in
  fst (Observed.submit callbacks demo_surroundings demo_feedback app) =
    Threw (ErrorObj "callback failed") /\
  fst (Observed.submit silent demo_surroundings demo_feedback app') =
    Returned (mkResponse false None (Some "Submission already in progress")).
Proof.
  intros callbacks t app app'. subst app'.
  destruct (submit_answers_unless_a_callback_throws callbacks
              demo_surroundings demo_feedback app) as (_ & _ & H).
  destruct (H (demo_widget t true false) (ErrorObj "callback failed")
              eq_refl eq_refl eq_refl) as [H1 H2].
  rewrite H1. split; [reflexivity|].
  cbn [snd]. now rewrite H2.
Defined.

(** A throwing [onSubmitError] makes [submit] throw, the flag released; a
    throwing [onSubmitSuccess] is taken for a failure of the submission
    that the transport has accepted. *)
Example callbacks_that_throw_inside_submit :
  let refused := replying (Responds (mkResponse false None
                                       (Some "Invalid title"))) in
  let accepted := replying (Responds (mkResponse true (Some "fb_1") None)) in
  let on_error := throwing is_SubmitError (ErrorObj "callback failed") in
  let on_success :=
    throwing (fun ev => match ev with SubmitSuccess _ => true | _ => false end)
             (ErrorObj "callback failed") in
  Observed.submit on_error demo_surroundings demo_feedback
    (mkApp (Some (demo_widget refused true false)) demo_platform) =
    (Threw (ErrorObj "callback failed"),
     mkApp (Some (demo_widget refused true false))
       (mkEnv NoItem [] [] true true 0
          [SubmitStart;
           TransportCalled (built_submission demo_config demo_surroundings
                              demo_feedback);
           SubmitError (ErrorObj "Invalid title");
           SubmitError (ErrorObj "callback failed")])) /\
  fst (Observed.submit on_success demo_surroundings demo_feedback
         (mkApp (Some (demo_widget accepted true false)) demo_platform)) =
    Returned (mkResponse false None (Some "callback failed")).
Proof. split; vm_compute; reflexivity. Qed.
